(** * Trading-bot orchestration core (hooks/useTradingBot.ts)

    A shallow embedding of the decision-turn and refresh functions of the
    hook [useTradingBots], and the properties of its validation pipeline,
    live execution engine, reconciliation and precision adapter.

    Conventions of the embedding.
    - A JavaScript [number] that carries money, a price, a leverage or a
      quantity is an exact rational [Q] in the engine, where numbers
      select the path taken: [Math.floor] is [Qfloor], [Math.pow (10, p)]
      is [10 ^ p]. The precision adapter is also given in binary64, with
      the rounding of every operation ([Double]), for what depends on the
      value computed.
    - A timestamp ([Date.now ()], a cooldown expiry) is a number of
      milliseconds since the epoch, an [N].
    - An optional or nullable field is an [option]; the truthiness test
      that JavaScript applies to it ([decision.size && ...]) is written out
      ([truthyQ], [truthyS], [truthyN]).
    - A note pushed to [notes] is kept as the template that produced it and
      the values interpolated into it ([Note]); the formatting of numbers
      ([toFixed]) is not modelled.
    - [Date.now ()], the venue, the market feed and the decision source are
      the outside world: the k-th reading of the clock and the way the
      venue settles a request, given the requests sent before it, are
      oracles; the engine threads the number of readings and the list of
      requests sent.
    - Division follows [Q]: a division by zero, which JavaScript turns into
      an infinity or a NaN, is not modelled; the properties that depend on
      a quotient assume its divisor is not zero. *)

From Stdlib Require Import QArith Qround Qpower Qabs ZArith NArith Lia Lqa.
From Stdlib Require Import Ascii SpecFloat.
From stdpp Require Import base option list gmap strings.

Open Scope Q_scope.

(** ** Numbers *)

(** [a < b] on JavaScript numbers. *)
Definition Qltb (a b : Q) : bool := negb (Qle_bool b a).

(** Truthiness of an optional number: [undefined] and [0] are falsy. *)
Definition truthyQ (o : option Q) : option Q :=
  match o with
  | Some q => if Qeq_bool q 0 then None else Some q
  | None => None
  end.

(** Truthiness of an optional string: [undefined] and the empty string are
    falsy. *)
Definition truthyS (o : option string) : option string :=
  match o with
  | Some s => if decide (s = EmptyString) then None else Some s
  | None => None
  end.

(** Truthiness of an optional timestamp. *)
Definition truthyN (o : option N) : option N :=
  match o with
  | Some n => if (n =? 0)%N then None else Some n
  | None => None
  end.

Definition MINIMUM_TRADE_SIZE_USD : Q := 50.
Definition SYMBOL_COOLDOWN_MS : N := 30 * 60 * 1000.

(** ** Data model (types.ts, as used by the hook) *)

Inductive AiAction := LONG | SHORT | CLOSE | HOLD.

Inductive OrderType := OrderLONG | OrderSHORT.

Inductive TradingMode := paper | real.

Inductive Provider := gemini | grok.

Record AiDecision := {
  d_action : AiAction;
  d_symbol : option string;
  d_size : option Q;
  d_leverage : option Q;
  d_stopLoss : option Q;
  d_takeProfit : option Q;
  d_closePositionId : option string;
  d_reasoning : string
}.

Record Position := {
  pos_id : string;
  pos_symbol : string;
  pos_type : OrderType;
  pos_entryPrice : Q;
  pos_size : Q;
  pos_leverage : Q;
  pos_pnl : Q
}.

Record Portfolio := {
  pf_balance : Q;
  pf_pnl : Q;
  pf_totalValue : Q;
  pf_positions : list Position
}.

Record Order := {
  ord_id : string;
  ord_symbol : string;
  ord_pnl : Q
}.

Record Market := {
  m_symbol : string;
  m_price : Q
}.

Record ValueHistoryPoint := {
  vh_timestamp : N;
  vh_value : Q
}.

(** [SymbolPrecisionInfo] of services/asterdexService: the hook reads its
    [quantityPrecision] only. *)
Record SymbolPrecisionInfo := {
  quantityPrecision : Z
}.

Definition is_directional (a : AiAction) : bool :=
  match a with
  | LONG | SHORT => true
  | _ => false
  end.

(** ** Precision adapter *)

Section PrecisionAdapter.

Variable symbolPrecisions : gmap string SymbolPrecisionInfo.

(** [symbolPrecisions.get(symbol)?.quantityPrecision ?? 3] *)
Definition precision_of (symbol : string) : Z :=
  match symbolPrecisions !! symbol with
  | Some info => quantityPrecision info
  | None => 3%Z
  end.

(** The formula in exact arithmetic, as the engine uses it to choose its
    path; [Double.getAdjustedQuantity] below is the formula with the
    rounding of binary64. *)
Definition getAdjustedQuantity (symbol : string) (rawQuantity : Q) : Q :=
  let precision := precision_of symbol in
  let factor := 10 ^ precision in
  inject_Z (Qfloor (rawQuantity * factor)) / factor.

End PrecisionAdapter.

(** ** The precision adapter in binary64

    The numbers of the program are IEEE 754 binary64 values, and every
    operation rounds to nearest, ties to even. [spec_float], with a
    precision of 53 bits and a maximal exponent of 1024, is that format. *)

Module Double.

Definition prec : Z := 53.
Definition emax : Z := 1024.

(** The binary64 value nearest to an integer. *)
Definition of_Z (n : Z) : spec_float := binary_normalize prec emax n 0 false.

(** [x * y] and [x / y]. *)
Definition mul : spec_float -> spec_float -> spec_float := SFmul prec emax.
Definition div : spec_float -> spec_float -> spec_float := SFdiv prec emax.

(** The value of the decimal literal [n] times [10^-k], for [0 <= k]: the
    binary64 value nearest to it. *)
Definition decimal (n k : Z) : spec_float := div (of_Z n) (of_Z (10 ^ k)).

(** [Math.floor (x)]: zeros, infinities and NaN are returned as they are;
    a finite value with a non-negative exponent is an integer already. *)
Definition Math_floor (x : spec_float) : spec_float :=
  match x with
  | S754_finite s m e =>
      if (0 <=? e)%Z then x
      else of_Z ((if s then Z.neg m else Z.pos m) / 2 ^ (- e))
  | _ => x
  end.

(** [Math.pow (10, p)] for an integer [p]. *)
Definition Math_pow10 (p : Z) : spec_float :=
  if (0 <=? p)%Z then of_Z (10 ^ p) else div (of_Z 1) (of_Z (10 ^ (- p))).

Section PrecisionAdapter.

Variable symbolPrecisions : gmap string SymbolPrecisionInfo.

Definition getAdjustedQuantity (symbol : string) (rawQuantity : spec_float)
  : spec_float :=
  let precision := precision_of symbolPrecisions symbol in
  let factor := Math_pow10 precision in
  div (Math_floor (mul rawQuantity factor)) factor.

End PrecisionAdapter.

End Double.

(** ** Notes of a turn

    Each constructor is one template of [notes.push] in [runTradingTurn],
    with the values the template interpolates. *)

Inductive Leg := StopLossLeg | TakeProfitLeg.

Inductive Note :=
  (** REJECTED a sym: Margin $size is below minimum of $50. *)
  | RejectedBelowMinimum (a : AiAction) (sym : option string) (size : Q)
  (** REJECTED a sym: Symbol is on cooldown for m more minutes. *)
  | RejectedCooldown (a : AiAction) (sym : string) (minutesLeft : Q)
  (** NOTE: Leverage for sym adjusted from l x to exchange max of m x. *)
  | LeverageAdjusted (sym : string) (requested maxLeverage : Q)
  (** REJECTED a sym: Available balance $b is below the minimum trade size
      of $50. *)
  | RejectedBalance (a : AiAction) (sym : string) (availableBalance : Q)
  (** NOTE: Trade size for sym adjusted from $s to fit available margin of
      $b. *)
  | TradeSizeAdjusted (sym : string) (tradeSize availableBalance : Q)
  (** REJECTED a sym: Adjusted trade size $s is below minimum of $50. *)
  | RejectedAdjustedSize (a : AiAction) (sym : string) (tradeSize : Q)
  (** Execution Warning: Calculated quantity for sym is 0. *)
  | QuantityZeroWarning (sym : string)
  (** SUCCESS: Opened a sym position. *)
  | OpenedPosition (a : AiAction) (sym : string)
  (** SUCCESS: leg order placed for sym. *)
  | ProtectivePlaced (leg : Leg) (sym : string)
  (** ERROR: Failed to place leg order for sym: message *)
  | ProtectiveFailed (leg : Leg) (sym : string) (message : option string)
  (** SUCCESS: Closed sym position. Cooldown initiated. *)
  | ClosedPosition (sym : string)
  (** NOTE: Attempted to close id, but position no longer exists on
      exchange. *)
  | PositionGone (closePositionId : option string)
  (** Execution Error: message *)
  | ExecutionError (message : option string).

(** The first word of the template: what kind of outcome the note reports. *)
Inductive NoteKind := Rejection | Adjustment | Success | Warning | Failure.

Definition note_kind (n : Note) : NoteKind :=
  match n with
  | RejectedBelowMinimum _ _ _ | RejectedCooldown _ _ _
  | RejectedBalance _ _ _ | RejectedAdjustedSize _ _ _ => Rejection
  | LeverageAdjusted _ _ _ | TradeSizeAdjusted _ _ _ | PositionGone _ =>
      Adjustment
  | OpenedPosition _ _ | ProtectivePlaced _ _ | ClosedPosition _ => Success
  | QuantityZeroWarning _ => Warning
  | ProtectiveFailed _ _ _ | ExecutionError _ => Failure
  end.

Record BotLog := {
  log_timestamp : N;
  log_decisions : list AiDecision;
  log_prompt : string;
  log_notes : list Note
}.

Record BotState := {
  bot_id : string;
  bot_name : string;
  bot_prompt : string;
  bot_provider : Provider;
  bot_tradingMode : TradingMode;
  bot_portfolio : Portfolio;
  bot_orders : list Order;
  bot_botLogs : list BotLog;
  bot_valueHistory : list ValueHistoryPoint;
  bot_isLoading : bool;
  bot_isPaused : bool;
  bot_realizedPnl : Q;
  bot_tradeCount : N;
  bot_winRate : Q;
  bot_symbolCooldowns : gmap string N
}.

(** A validated decision: [{ decision, adjustedLeverage }]. *)
Record Validated := {
  v_decision : AiDecision;
  v_adjustedLeverage : Q
}.

(** ** Validation pipeline: the [decisions.forEach] of [runTradingTurn] *)

Section Validation.

(** The table of leverageLimits.ts, symbol to venue maximum, is a
    parameter. *)
Variable leverageLimits : gmap string Q.

(** [Date_now k] is the value of the k-th call of [Date.now ()]. *)
Variable Date_now : nat -> N.

(** Rule: minimum trade size. [Some note] is the early [return]. *)
Definition rule_minimum_size (decision : AiDecision) : option Note :=
  if is_directional (d_action decision) then
    match truthyQ (d_size decision) with
    | Some size =>
        if Qltb size MINIMUM_TRADE_SIZE_USD
        then Some (RejectedBelowMinimum (d_action decision)
                     (d_symbol decision) size)
        else None
    | None => None
    end
  else None.

(** Rule: symbol cooldown. The clock is read once for the test (when the
    symbol has a truthy entry) and once more for the note. *)
Definition rule_cooldown (bot : BotState) (k : nat) (decision : AiDecision)
  : option Note * nat :=
  if is_directional (d_action decision) then
    match truthyS (d_symbol decision) with
    | Some symbol =>
        match truthyN (bot_symbolCooldowns bot !! symbol) with
        | Some cooldownEndTime =>
            if (Date_now k <? cooldownEndTime)%N then
              let minutesLeft :=
                inject_Z (Z.of_N cooldownEndTime
                          - Z.of_N (Date_now (S k))) / 60000 in
              (Some (RejectedCooldown (d_action decision) symbol
                       minutesLeft), S (S k))
            else (None, S k)
        | None => (None, k)
        end
    | None => (None, k)
    end
  else (None, k).

(** Rule: adjust leverage. There is no [return] in this rule. *)
Definition rule_leverage (decision : AiDecision) : Q * list Note :=
  let adjustedLeverage := default 1 (truthyQ (d_leverage decision)) in
  if is_directional (d_action decision) then
    match truthyS (d_symbol decision) with
    | Some symbol =>
        let maxLeverage := default 25 (leverageLimits !! symbol) in
        if Qltb maxLeverage adjustedLeverage then
          (maxLeverage,
           [LeverageAdjusted symbol adjustedLeverage maxLeverage])
        else (adjustedLeverage, [])
    | None => (adjustedLeverage, [])
    end
  else (adjustedLeverage, []).

(** The state of the [forEach]: [notes], [validatedDecisions] and the
    number of clock readings so far. *)
Record ValidationState := {
  vs_notes : list Note;
  vs_validated : list Validated;
  vs_clock : nat
}.

(** One call of the [forEach] callback. *)
Definition validate_decision (bot : BotState) (st : ValidationState)
    (decision : AiDecision) : ValidationState :=
  match rule_minimum_size decision with
  | Some note =>
      {| vs_notes := vs_notes st ++ [note];
         vs_validated := vs_validated st;
         vs_clock := vs_clock st |}
  | None =>
      match rule_cooldown bot (vs_clock st) decision with
      | (Some note, k) =>
          {| vs_notes := vs_notes st ++ [note];
             vs_validated := vs_validated st;
             vs_clock := k |}
      | (None, k) =>
          let '(adjustedLeverage, adjustments) := rule_leverage decision in
          {| vs_notes := vs_notes st ++ adjustments;
             vs_validated :=
               vs_validated st
               ++ [{| v_decision := decision;
                      v_adjustedLeverage := adjustedLeverage |}];
             vs_clock := k |}
      end
  end.

Definition validate (bot : BotState) (k : nat) (decisions : list AiDecision)
  : ValidationState :=
  fold_left (validate_decision bot) decisions
    {| vs_notes := []; vs_validated := []; vs_clock := k |}.

End Validation.

(** ** Venue requests and their outcomes *)

Inductive Side := BUY | SELL.

Inductive OrderKind := MARKET | STOP_MARKET | TAKE_PROFIT_MARKET.

Record OrderSpec := {
  o_symbol : string;
  o_side : Side;
  o_type : OrderKind;
  o_quantity : Q;
  o_stopPrice : option Q;
  o_reduceOnly : bool
}.

Inductive VenueCall :=
  | SetLeverage (symbol : string) (leverage : Q) (botId : string)
  | PlaceRealOrder (spec : OrderSpec) (botId : string).

(** A thrown value, as far as the hook inspects it: [error.message]. *)
Record JsError := {
  err_message : option string
}.

(** How the promise of a venue request settles. *)
Inductive Settled := Resolved | Failed (reason : JsError).

(** [s.includes(sub)] *)
Fixpoint includes (s sub : string) : bool :=
  if String.prefix sub s then true
  else match s with
       | EmptyString => false
       | String _ rest => includes rest sub
       end.

(** ** The execution monad

    The body of the turn of one agent runs over its local variables [notes]
    and [updatedBotState], reads the clock, sends requests to the venue, and
    may throw. [ex_calls] records the requests sent so far, in order. *)

Record ExecState := {
  ex_notes : list Note;
  ex_updatedBotState : BotState;
  ex_clock : nat;
  ex_calls : list VenueCall
}.

Definition Exec (A : Type) : Type := ExecState -> (A + JsError) * ExecState.

#[global] Instance Exec_ret : MRet Exec :=
  fun A (a : A) st => (inl a, st).

#[global] Instance Exec_bind : MBind Exec :=
  fun A B (f : A -> Exec B) (m : Exec A) st =>
    match m st with
    | (inl a, st') => f a st'
    | (inr e, st') => (inr e, st')
    end.

Definition throw {A : Type} (e : JsError) : Exec A :=
  fun st => (inr e, st).

(** [try { body } catch (error) { handler }] *)
Definition try_catch (body : Exec unit) (handler : JsError -> Exec unit)
  : Exec unit :=
  fun st =>
    match body st with
    | (inl tt, st') => (inl tt, st')
    | (inr e, st') => handler e st'
    end.

(** [for (const x of xs) { body }] *)
Fixpoint for_of {A : Type} (xs : list A) (body : A -> Exec unit) : Exec unit :=
  match xs with
  | [] => mret tt
  | x :: rest => body x ;; for_of rest body
  end.

Definition gets {A : Type} (f : ExecState -> A) : Exec A :=
  fun st => (inl (f st), st).

(** [notes.push(n)] *)
Definition push (n : Note) : Exec unit :=
  fun st =>
    (inl tt,
     {| ex_notes := ex_notes st ++ [n];
        ex_updatedBotState := ex_updatedBotState st;
        ex_clock := ex_clock st;
        ex_calls := ex_calls st |}).

Definition set_symbolCooldowns (c : gmap string N) (b : BotState) : BotState :=
  {| bot_id := bot_id b; bot_name := bot_name b; bot_prompt := bot_prompt b;
     bot_provider := bot_provider b; bot_tradingMode := bot_tradingMode b;
     bot_portfolio := bot_portfolio b;
     bot_orders := bot_orders b; bot_botLogs := bot_botLogs b;
     bot_valueHistory := bot_valueHistory b; bot_isLoading := bot_isLoading b;
     bot_isPaused := bot_isPaused b; bot_realizedPnl := bot_realizedPnl b;
     bot_tradeCount := bot_tradeCount b; bot_winRate := bot_winRate b;
     bot_symbolCooldowns := c |}.

(** [{ ...bot, portfolio, valueHistory, orders, realizedPnl }] *)
Definition set_refreshed (portfolio : Portfolio)
    (valueHistory : list ValueHistoryPoint) (orders : list Order)
    (realizedPnl : Q) (b : BotState) : BotState :=
  {| bot_id := bot_id b; bot_name := bot_name b; bot_prompt := bot_prompt b;
     bot_provider := bot_provider b; bot_tradingMode := bot_tradingMode b;
     bot_portfolio := portfolio;
     bot_orders := orders; bot_botLogs := bot_botLogs b;
     bot_valueHistory := valueHistory; bot_isLoading := bot_isLoading b;
     bot_isPaused := bot_isPaused b; bot_realizedPnl := realizedPnl;
     bot_tradeCount := bot_tradeCount b; bot_winRate := bot_winRate b;
     bot_symbolCooldowns := bot_symbolCooldowns b |}.

Definition set_botLogs (l : list BotLog) (b : BotState) : BotState :=
  {| bot_id := bot_id b; bot_name := bot_name b; bot_prompt := bot_prompt b;
     bot_provider := bot_provider b; bot_tradingMode := bot_tradingMode b;
     bot_portfolio := bot_portfolio b;
     bot_orders := bot_orders b; bot_botLogs := l;
     bot_valueHistory := bot_valueHistory b; bot_isLoading := bot_isLoading b;
     bot_isPaused := bot_isPaused b; bot_realizedPnl := bot_realizedPnl b;
     bot_tradeCount := bot_tradeCount b; bot_winRate := bot_winRate b;
     bot_symbolCooldowns := bot_symbolCooldowns b |}.

Definition set_isLoading (l : bool) (b : BotState) : BotState :=
  {| bot_id := bot_id b; bot_name := bot_name b; bot_prompt := bot_prompt b;
     bot_provider := bot_provider b; bot_tradingMode := bot_tradingMode b;
     bot_portfolio := bot_portfolio b;
     bot_orders := bot_orders b; bot_botLogs := bot_botLogs b;
     bot_valueHistory := bot_valueHistory b; bot_isLoading := l;
     bot_isPaused := bot_isPaused b; bot_realizedPnl := bot_realizedPnl b;
     bot_tradeCount := bot_tradeCount b; bot_winRate := bot_winRate b;
     bot_symbolCooldowns := bot_symbolCooldowns b |}.

Definition modify_bot (f : BotState -> BotState) : Exec unit :=
  fun st =>
    (inl tt,
     {| ex_notes := ex_notes st;
        ex_updatedBotState := f (ex_updatedBotState st);
        ex_clock := ex_clock st;
        ex_calls := ex_calls st |}).

(** [updatedBotState.symbolCooldowns[symbol] = expiry]. [updatedBotState]
    is the shallow copy [{ ...bot }], so the map written here is the one
    [bot.symbolCooldowns] refers to as well; the turn reads
    [bot.symbolCooldowns] during validation only, before any write. *)
Definition set_cooldown (symbol : string) (expiry : N) : Exec unit :=
  modify_bot
    (fun b =>
       set_symbolCooldowns (<[symbol := expiry]> (bot_symbolCooldowns b)) b).

Section LiveEngine.

Variable symbolPrecisions : gmap string SymbolPrecisionInfo.
Variable leverageLimits : gmap string Q.
Variable Date_now : nat -> N.

(** [venue history call]: how the promise of [call] settles when the
    requests of [history] were sent before it. *)
Variable venue : list VenueCall -> VenueCall -> Settled.

(** [Date.now ()] *)
Definition now : Exec N :=
  fun st =>
    (inl (Date_now (ex_clock st)),
     {| ex_notes := ex_notes st;
        ex_updatedBotState := ex_updatedBotState st;
        ex_clock := S (ex_clock st);
        ex_calls := ex_calls st |}).

(** Send a request; the result is how its promise settles. *)
Definition request (call : VenueCall) : Exec Settled :=
  fun st =>
    (inl (venue (ex_calls st) call),
     {| ex_notes := ex_notes st;
        ex_updatedBotState := ex_updatedBotState st;
        ex_clock := ex_clock st;
        ex_calls := ex_calls st ++ [call] |}).

(** [await call]: a rejected promise throws its reason. *)
Definition await (call : VenueCall) : Exec unit :=
  r ← request call;
  match r with
  | Resolved => mret tt
  | Failed reason => throw reason
  end.

(** The promises of a list of requests, all sent before any is awaited,
    then [Promise.allSettled]. *)
Fixpoint allSettled (calls : list VenueCall) : Exec (list Settled) :=
  match calls with
  | [] => mret []
  | c :: rest =>
      r ← request c;
      rs ← allSettled rest;
      mret (r :: rs)
  end.

Definition open_side (a : AiAction) : Side :=
  match a with LONG => BUY | _ => SELL end.

Definition protective_side (a : AiAction) : Side :=
  match a with LONG => SELL | _ => BUY end.

(** The protective orders of an opened position, in the order in which
    they are pushed to [slTpPromises]. *)
Definition slTp_calls (botId : string) (decision : AiDecision)
    (symbol : string) (quantity : Q) : list VenueCall :=
  let orderSide := protective_side (d_action decision) in
  match truthyQ (d_stopLoss decision) with
  | Some stopLoss =>
      [PlaceRealOrder
         {| o_symbol := symbol; o_side := orderSide;
            o_type := STOP_MARKET; o_quantity := quantity;
            o_stopPrice := Some stopLoss; o_reduceOnly := true |} botId]
  | None => []
  end
  ++
  match truthyQ (d_takeProfit decision) with
  | Some takeProfit =>
      [PlaceRealOrder
         {| o_symbol := symbol; o_side := orderSide;
            o_type := TAKE_PROFIT_MARKET; o_quantity := quantity;
            o_stopPrice := Some takeProfit; o_reduceOnly := true |} botId]
  | None => []
  end.

(** The callback of [results.forEach]. *)
Definition slTp_note (decision : AiDecision) (symbol : string)
    (i : nat) (result : Settled) : Note :=
  let type :=
    if (i =? 0)%nat && bool_decide (is_Some (truthyQ (d_stopLoss decision)))
    then StopLossLeg else TakeProfitLeg in
  match result with
  | Resolved => ProtectivePlaced type symbol
  | Failed reason => ProtectiveFailed type symbol (err_message reason)
  end.

(** The rest of the LONG/SHORT branch once the trade size is settled:
    leverage, market order, protective orders. The quotient is that of
    [Q], so the definition stands for the code at a quote that is not
    zero: at a zero quote JavaScript computes an infinity, which is not
    [<= 0], and the code goes on to place the order. *)
Definition submit_open (bot : BotState) (decision : AiDecision)
    (adjustedLeverage : Q) (market : Market) (tradeSize : Q)
    (symbol : string) : Exec unit :=
  (* 1. Set Leverage *)
  await (SetLeverage symbol adjustedLeverage (bot_id bot)) ;;
  (* 2. Open Position with MARKET order *)
  let rawQuantity := tradeSize * adjustedLeverage / m_price market in
  let quantity :=
    getAdjustedQuantity symbolPrecisions symbol rawQuantity in
  if Qle_bool quantity 0 then
    push (QuantityZeroWarning symbol)
  else
    await (PlaceRealOrder
             {| o_symbol := symbol;
                o_side := open_side (d_action decision);
                o_type := MARKET; o_quantity := quantity;
                o_stopPrice := None; o_reduceOnly := false |}
             (bot_id bot)) ;;
    push (OpenedPosition (d_action decision) symbol) ;;
    (* 3. Place Stop-Loss and Take-Profit orders *)
    results ← allSettled (slTp_calls (bot_id bot) decision symbol
                            quantity);
    for_of (imap (slTp_note decision symbol) results) push.

(** The LONG/SHORT branch of the [try] block; a [continue] ends it. *)
Definition execute_open (bot : BotState) (decision : AiDecision)
    (adjustedLeverage : Q) (market : Market) (size : Q) (symbol : string)
  : Exec unit :=
  availableBalance ←
    gets (fun st => pf_balance (bot_portfolio (ex_updatedBotState st)));
  (* STAGE 1: Check if balance can even cover the minimum trade. *)
  if Qltb availableBalance MINIMUM_TRADE_SIZE_USD then
    push (RejectedBalance (d_action decision) symbol availableBalance)
  else
    (* STAGE 2: Adjust trade size if it exceeds available balance. *)
    tradeSize ←
      (if Qltb availableBalance size then
         push (TradeSizeAdjusted symbol size availableBalance) ;;
         mret availableBalance
       else mret size);
    (* Final check to ensure adjusted size is still valid. *)
    if Qltb tradeSize MINIMUM_TRADE_SIZE_USD then
      push (RejectedAdjustedSize (d_action decision) symbol tradeSize)
    else
      submit_open bot decision adjustedLeverage market tradeSize symbol.

(** The CLOSE branch of the [try] block. The position is looked up in
    [bot.portfolio], the cooldown is written to [updatedBotState]. The
    quotient is that of [Q], so the definition stands for the code at an
    entry price that is not zero: at a zero entry price JavaScript
    computes an infinity, which is [> 0], and the code places the order
    and starts the cooldown. *)
Definition execute_close (bot : BotState) (closePositionId : string)
  : Exec unit :=
  match find (fun p => String.eqb (pos_id p) closePositionId)
             (pf_positions (bot_portfolio bot)) with
  | Some posToClose =>
      let rawQuantity :=
        Qabs (pos_size posToClose * pos_leverage posToClose
              / pos_entryPrice posToClose) in
      let quantity :=
        getAdjustedQuantity symbolPrecisions (pos_symbol posToClose)
          rawQuantity in
      if Qltb 0 quantity then
        await (PlaceRealOrder
                 {| o_symbol := pos_symbol posToClose;
                    o_side := match pos_type posToClose with
                              | OrderLONG => SELL
                              | OrderSHORT => BUY
                              end;
                    o_type := MARKET; o_quantity := quantity;
                    o_stopPrice := None; o_reduceOnly := true |}
                 (bot_id bot)) ;;
        (* Set cooldown after closing *)
        t ← now;
        set_cooldown (pos_symbol posToClose) (t + SYMBOL_COOLDOWN_MS)%N ;;
        push (ClosedPosition (pos_symbol posToClose))
      else mret tt
  | None => mret tt
  end.

(** [markets.find(m => m.symbol === decision.symbol)] *)
Definition find_market (markets : list Market) (symbol : option string)
  : option Market :=
  find (fun m => bool_decide (Some (m_symbol m) = symbol)) markets.

(** The [try] block. *)
Definition execute_body (bot : BotState) (markets : list Market)
    (v : Validated) : Exec unit :=
  let decision := v_decision v in
  let market := find_market markets (d_symbol decision) in
  match is_directional (d_action decision), market,
        truthyQ (d_size decision), truthyS (d_symbol decision) with
  | true, Some market, Some size, Some symbol =>
      execute_open bot decision (v_adjustedLeverage v) market size symbol
  | _, _, _, _ =>
      match d_action decision, truthyS (d_closePositionId decision) with
      | CLOSE, Some closePositionId => execute_close bot closePositionId
      | _, _ => mret tt
      end
  end.

(** The [catch] block. *)
Definition execute_catch (decision : AiDecision) (error : JsError)
  : Exec unit :=
  match truthyS (err_message error) with
  | Some message =>
      if includes message "ReduceOnly Order is rejected" then
        push (PositionGone (d_closePositionId decision))
      else push (ExecutionError (err_message error))
  | None => push (ExecutionError (err_message error))
  end.

(** One iteration of [for (const { decision, adjustedLeverage } of
    validatedDecisions)]. *)
Definition execute_decision (bot : BotState) (markets : list Market)
    (v : Validated) : Exec unit :=
  try_catch (execute_body bot markets v) (execute_catch (v_decision v)).

(** The live branch of the turn. *)
Definition execute_live (bot : BotState) (markets : list Market)
    (validatedDecisions : list Validated) : Exec unit :=
  for_of validatedDecisions (execute_decision bot markets).

(** [updatedBotState.botLogs = [newLog, ...botLogs].slice(0, 50)] *)
Definition append_log (decisions : list AiDecision) (prompt : string)
  : Exec unit :=
  t ← now;
  notes ← gets ex_notes;
  let newLog :=
    {| log_timestamp := t; log_decisions := decisions;
       log_prompt := prompt; log_notes := notes |} in
  modify_bot (fun b => set_botLogs (take 50 (newLog :: bot_botLogs b)) b).

(** The body of [for (const bot of bots)] for a bot that is not paused,
    from the answer [{ prompt, decisions }] of its decision source on:
    validation, execution, turn log. It starts at clock reading [k] with
    the requests [calls] already sent. The paper branch is empty in this
    file. *)
Definition bot_turn (bot : BotState) (markets : list Market)
    (prompt : string) (decisions : list AiDecision)
    (k : nat) (calls : list VenueCall)
  : (unit + JsError) * ExecState :=
  let vs := validate leverageLimits Date_now bot k decisions in
  let updatedBotState := bot in
  (match bot_tradingMode bot with
   | real => execute_live bot markets (vs_validated vs)
   | paper => mret tt
   end ;;
   append_log decisions prompt)
    {| ex_notes := vs_notes vs;
       ex_updatedBotState := updatedBotState;
       ex_clock := vs_clock vs;
       ex_calls := calls |}.

(** What [setBots] stores for the bot at the end of its turn:
    [{ ...updatedBotState, isLoading: false }]. *)
Definition bot_after_turn (bot : BotState) (markets : list Market)
    (prompt : string) (decisions : list AiDecision)
    (k : nat) (calls : list VenueCall) : BotState :=
  set_isLoading false
    (ex_updatedBotState (snd (bot_turn bot markets prompt decisions k calls))).

End LiveEngine.

(** ** Reconciliation: [updatePortfolios] and the initial sync *)

(** [xs.slice(-n)]: the last [n] elements. *)
Definition slice_last {A : Type} (n : nat) (xs : list A) : list A :=
  drop (length xs - n) xs.

(** What the outside world answers during one refresh tick: the market
    snapshot, the account state and the trade history of a bot at the venue
    ([None] when the promise rejects), and the reading of [Date.now ()] in
    the callback of a bot. *)
Record Tick := {
  tick_marketData : list Market;
  tick_getRealAccountState : string -> option Portfolio;
  tick_getRealTradeHistory : string -> option (list Order);
  tick_now : string -> N
}.

(** The state of the hook: [bots], [markets] and [initialBalanceRef]. *)
Record Arena := {
  bots : list BotState;
  markets : list Market;
  initialBalanceRef : gmap string Q
}.

Section Reconciliation.

(** The two nominal balances of constants.ts are parameters. *)
Variable PAPER_BOT_INITIAL_BALANCE : Q.
Variable LIVE_BOT_INITIAL_BALANCE : Q.

Definition createNewBot (id name prompt : string) (provider : Provider)
    (mode : TradingMode) (now : N) : BotState :=
  let initialBalance :=
    match mode with
    | real => LIVE_BOT_INITIAL_BALANCE
    | paper => PAPER_BOT_INITIAL_BALANCE
    end in
  {| bot_id := id; bot_name := name; bot_prompt := prompt;
     bot_provider := provider; bot_tradingMode := mode;
     bot_portfolio :=
       {| pf_balance := initialBalance; pf_pnl := 0;
          pf_totalValue := initialBalance; pf_positions := [] |};
     bot_orders := []; bot_botLogs := [];
     bot_valueHistory :=
       [{| vh_timestamp := now; vh_value := initialBalance |}];
     bot_isLoading := false; bot_isPaused := false;
     bot_realizedPnl := 0; bot_tradeCount := 0%N; bot_winRate := 0;
     bot_symbolCooldowns := ∅ |}.

(** [orders.reduce((acc, o) => acc + o.pnl, 0)] *)
Definition sum_order_pnl (orders : list Order) : Q :=
  fold_left (fun acc o => acc + ord_pnl o) orders 0.

(** The callback of the one-time sync in [initialize]. [sync] is the
    outcome of the race between the two venue reads and the 5 s timer:
    [None] when it throws. *)
Definition initial_sync_bot (sync : option (Portfolio * list Order))
    (now : N) (ref : gmap string Q) (bot : BotState)
  : BotState * gmap string Q :=
  match bot_tradingMode bot with
  | real =>
      match sync with
      | Some (realPortfolio, realOrders) =>
          let realizedPnl := sum_order_pnl realOrders in
          let ref' := <[bot_id bot := LIVE_BOT_INITIAL_BALANCE]> ref in
          let correctedHistory :=
            [{| vh_timestamp := now;
                vh_value := pf_totalValue realPortfolio |}] in
          (set_refreshed realPortfolio correctedHistory realOrders
             realizedPnl bot, ref')
      | None => (bot, <[bot_id bot := LIVE_BOT_INITIAL_BALANCE]> ref)
      end
  | paper => (bot, <[bot_id bot := PAPER_BOT_INITIAL_BALANCE]> ref)
  end.

(** [marketData.find(m => m.symbol === pos.symbol)?.price
     ?? pos.entryPrice] *)
Definition current_price (marketData : list Market) (pos : Position) : Q :=
  match find (fun m => String.eqb (m_symbol m) (pos_symbol pos))
             marketData with
  | Some m => m_price m
  | None => pos_entryPrice pos
  end.

Definition direction (t : OrderType) : Q :=
  match t with OrderLONG => 1 | OrderSHORT => -1 end.

Definition position_pnl (marketData : list Market) (pos : Position) : Q :=
  let currentPrice := current_price marketData pos in
  let assetQuantity :=
    pos_size pos * pos_leverage pos / pos_entryPrice pos in
  (currentPrice - pos_entryPrice pos) * assetQuantity
  * direction (pos_type pos).

Definition set_pnl (pnl : Q) (pos : Position) : Position :=
  {| pos_id := pos_id pos; pos_symbol := pos_symbol pos;
     pos_type := pos_type pos; pos_entryPrice := pos_entryPrice pos;
     pos_size := pos_size pos; pos_leverage := pos_leverage pos;
     pos_pnl := pnl |}.

(** The local variables of the paper branch while [positions.map] runs:
    [unrealizedPnl], [totalMarginUsed] and the positions mapped so far. *)
Record PaperAcc := {
  acc_unrealizedPnl : Q;
  acc_totalMarginUsed : Q;
  acc_updatedPositions : list Position
}.

(** The callback of [portfolio.positions.map]. *)
Definition paper_position (marketData : list Market) (acc : PaperAcc)
    (pos : Position) : PaperAcc :=
  let pnl := position_pnl marketData pos in
  {| acc_unrealizedPnl := acc_unrealizedPnl acc + pnl;
     acc_totalMarginUsed := acc_totalMarginUsed acc + pos_size pos;
     acc_updatedPositions :=
       acc_updatedPositions acc ++ [set_pnl pnl pos] |}.

Definition paper_portfolio (marketData : list Market)
    (portfolio : Portfolio) : Portfolio :=
  let acc :=
    fold_left (paper_position marketData) (pf_positions portfolio)
      {| acc_unrealizedPnl := 0; acc_totalMarginUsed := 0;
         acc_updatedPositions := [] |} in
  let totalValue :=
    pf_balance portfolio + acc_totalMarginUsed acc
    + acc_unrealizedPnl acc in
  {| pf_balance := pf_balance portfolio;
     pf_pnl := acc_unrealizedPnl acc;
     pf_totalValue := totalValue;
     pf_positions := acc_updatedPositions acc |}.

(** The callback of [bots.map] in [updatePortfolios]: the refreshed bot
    ([None] when a venue read rejects) and [initialBalanceRef]
    afterwards. *)
Definition refresh_bot (t : Tick) (ref : gmap string Q) (bot : BotState)
  : option BotState * gmap string Q :=
  let finish updatedPortfolio updatedOrders updatedRealizedPnl :=
    let newValueHistory :=
      {| vh_timestamp := tick_now t (bot_id bot);
         vh_value := pf_totalValue updatedPortfolio |} in
    let newHistory :=
      slice_last 300 (bot_valueHistory bot ++ [newValueHistory]) in
    set_refreshed updatedPortfolio newHistory updatedOrders
      updatedRealizedPnl bot in
  match bot_tradingMode bot with
  | real =>
      match tick_getRealAccountState t (bot_id bot) with
      | None => (None, ref)
      | Some updatedPortfolio =>
          match tick_getRealTradeHistory t (bot_id bot) with
          | None => (None, ref)
          | Some updatedOrders =>
              let updatedRealizedPnl := sum_order_pnl updatedOrders in
              (* Set initial balance only once *)
              let ref' :=
                match ref !! bot_id bot with
                | Some _ => ref
                | None => <[bot_id bot := LIVE_BOT_INITIAL_BALANCE]> ref
                end in
              (Some (finish updatedPortfolio updatedOrders
                       updatedRealizedPnl), ref')
          end
      end
  | paper =>
      (Some (finish (paper_portfolio (tick_marketData t)
                       (bot_portfolio bot))
               (bot_orders bot) (bot_realizedPnl bot)), ref)
  end.

(** [Promise.all(bots.map(...))]: every callback runs; the result is the
    list of refreshed bots, or a rejection when one callback rejects. *)
Fixpoint refresh_all (t : Tick) (ref : gmap string Q)
    (bs : list BotState) : option (list BotState) * gmap string Q :=
  match bs with
  | [] => (Some [], ref)
  | bot :: rest =>
      let '(r, ref1) := refresh_bot t ref bot in
      let '(rs, ref2) := refresh_all t ref1 rest in
      (match r, rs with
       | Some b, Some l => Some (b :: l)
       | _, _ => None
       end, ref2)
  end.

(** One refresh tick. *)
Definition updatePortfolios (t : Tick) (a : Arena) : Arena :=
  match tick_marketData t with
  | [] => a
  | marketData =>
      let '(updatedBots, ref) :=
        refresh_all t (initialBalanceRef a) (bots a) in
      match updatedBots with
      | Some l =>
          {| bots := l; markets := marketData; initialBalanceRef := ref |}
      | None =>
          {| bots := bots a; markets := marketData;
             initialBalanceRef := ref |}
      end
  end.

(** The writes of the callbacks of [bots] to [initialBalanceRef], in the
    order of the list. *)
Definition initial_sync_writes
    (sync : string -> option (Portfolio * list Order)) (now : string -> N)
    (bs : list BotState) (ref : gmap string Q) : gmap string Q :=
  fold_left
    (fun r bot =>
       snd (initial_sync_bot (sync (bot_id bot)) (now (bot_id bot)) r bot))
    bs ref.

Definition is_paper (bot : BotState) : bool :=
  match bot_tradingMode bot with paper => true | real => false end.

Definition is_live (bot : BotState) : bool :=
  match bot_tradingMode bot with real => true | paper => false end.

(** The one-time sync of [initialize] over the initial bots:
    [Promise.all (initialBots.map (async bot => ...))]. A callback runs up
    to its first [await] when [map] calls it: the callback of a paper bot
    has none and writes its figure then, in the order of the list; the
    callback of a live bot awaits the race of the venue reads (promises,
    which reject and do not throw) against the timer, and writes its
    figure when the race has settled, after every paper bot. The live bots
    all write the same constant, so the order in which their races settle
    does not show in the record. The synced bot does not depend on the
    record. *)
Definition initial_sync (sync : string -> option (Portfolio * list Order))
    (now : string -> N) (ref : gmap string Q) (bs : list BotState)
  : list BotState * gmap string Q :=
  ((fun bot =>
      fst (initial_sync_bot (sync (bot_id bot)) (now (bot_id bot)) ref bot))
   <$> bs,
   initial_sync_writes sync now (List.filter is_live bs)
     (initial_sync_writes sync now (List.filter is_paper bs) ref)).

End Reconciliation.

(** ** Bot configurations: [fetchBotConfigs] *)

(** [provider_type] of an [ApiProvider]. *)
Inductive ProviderType :=
  | pt_openai | pt_anthropic | pt_gemini | pt_grok | pt_local | pt_custom.

Record ApiBot := {
  ab_id : string;
  ab_name : string;
  ab_prompt : string;
  ab_provider_id : Z;
  ab_trading_mode : TradingMode;
  ab_is_active : bool;
  ab_is_paused : bool
}.

Record ApiProvider := {
  ap_id : Z;
  ap_provider_type : ProviderType
}.

(** An element of the result of [fetchBotConfigs]. *)
Record BotConfig := {
  cfg_id : string;
  cfg_name : string;
  cfg_prompt : string;
  cfg_provider : Provider;
  cfg_mode : TradingMode;
  cfg_isPaused : bool
}.

(** [new Map(providersResponse.data.map(p => [p.id, p.provider_type]))]:
    the entries are set in order, a later one replaces an earlier one with
    the same id. *)
Definition provider_map (providers : list ApiProvider)
  : gmap Z ProviderType :=
  fold_left (fun m p => <[ap_id p := ap_provider_type p]> m) providers ∅.

(** [(providerType === 'gemini' || providerType === 'grok') ? providerType
     : 'gemini'] *)
Definition resolve_provider (providerType : option ProviderType)
  : Provider :=
  match providerType with
  | Some pt_grok => grok
  | Some pt_gemini => gemini
  | _ => gemini
  end.

Definition config_of (providers : gmap Z ProviderType) (bot : ApiBot)
  : BotConfig :=
  {| cfg_id := ab_id bot; cfg_name := ab_name bot;
     cfg_prompt := ab_prompt bot;
     cfg_provider := resolve_provider (providers !! ab_provider_id bot);
     cfg_mode := ab_trading_mode bot;
     cfg_isPaused := ab_is_paused bot |}.

(** [response] is the outcome of the two requests: [None] when one of them
    rejects, which the [catch] turns into an empty list. *)
Definition fetchBotConfigs
    (response : option (list ApiBot * list ApiProvider)) : list BotConfig :=
  match response with
  | Some (botsData, providersData) =>
      let providers := provider_map providersData in
      config_of providers <$> List.filter ab_is_active botsData
  | None => []
  end.

(** [botConfigs.find(c => c.id === id)] *)
Definition find_config (botConfigs : list BotConfig) (id : string)
  : option BotConfig :=
  find (fun c => String.eqb (cfg_id c) id) botConfigs.

(** ** Engine start: [initialize] *)

(** A bot of the saved arena state; its [symbolCooldowns] may be missing
    ([savedBot.symbolCooldowns || {}]). *)
Record SavedBot := {
  saved_bot : BotState;
  saved_symbolCooldowns : option (gmap string N)
}.

(** A bot of the hook with what its [getDecision] closure captured: the
    provider it asks and the prompt it sends. *)
Record Loaded := {
  ld_bot : BotState;
  ld_provider : Provider;
  ld_prompt : string
}.

(** [{ ...bot, isPaused }] *)
Definition set_isPaused (p : bool) (b : BotState) : BotState :=
  {| bot_id := bot_id b; bot_name := bot_name b; bot_prompt := bot_prompt b;
     bot_provider := bot_provider b; bot_tradingMode := bot_tradingMode b;
     bot_portfolio := bot_portfolio b;
     bot_orders := bot_orders b; bot_botLogs := bot_botLogs b;
     bot_valueHistory := bot_valueHistory b;
     bot_isLoading := bot_isLoading b;
     bot_isPaused := p; bot_realizedPnl := bot_realizedPnl b;
     bot_tradeCount := bot_tradeCount b; bot_winRate := bot_winRate b;
     bot_symbolCooldowns := bot_symbolCooldowns b |}.

(** The callback of [savedState.bots.map]: [None] is the [null] that the
    [filter] removes. *)
Definition resume_bot (botConfigs : list BotConfig) (savedBot : SavedBot)
  : option Loaded :=
  match find_config botConfigs (bot_id (saved_bot savedBot)) with
  | None => None
  | Some config =>
      let b := saved_bot savedBot in
      Some
        {| ld_bot :=
             {| bot_id := bot_id b; bot_name := bot_name b;
                bot_prompt := bot_prompt b; bot_provider := bot_provider b;
                bot_tradingMode := cfg_mode config;
                bot_portfolio := bot_portfolio b;
                bot_orders := bot_orders b; bot_botLogs := bot_botLogs b;
                bot_valueHistory := bot_valueHistory b;
                bot_isLoading := bot_isLoading b;
                bot_isPaused := cfg_isPaused config;
                bot_realizedPnl := bot_realizedPnl b;
                bot_tradeCount := bot_tradeCount b;
                bot_winRate := bot_winRate b;
                bot_symbolCooldowns :=
                  default ∅ (saved_symbolCooldowns savedBot) |};
           ld_provider := cfg_provider config;
           ld_prompt := cfg_prompt config |}
  end.

(** What [getArenaState ()] gives: it throws, it resolves to [null], or it
    resolves to a saved state with these bots. *)
Inductive ArenaRead :=
  | ReadThrows
  | ReadNull
  | ReadSaved (savedBots : list SavedBot).

Section Initialize.

Variable PAPER_BOT_INITIAL_BALANCE : Q.
Variable LIVE_BOT_INITIAL_BALANCE : Q.

(** The fresh bot of a configuration, with the pause flag of the first
    configuration that has its id ([config?.isPaused || false]). *)
Definition fresh_bot (botConfigs : list BotConfig) (created : string -> N)
    (c : BotConfig) : Loaded :=
  let bot :=
    createNewBot PAPER_BOT_INITIAL_BALANCE LIVE_BOT_INITIAL_BALANCE
      (cfg_id c) (cfg_name c) (cfg_prompt c) (cfg_provider c) (cfg_mode c)
      (created (cfg_id c)) in
  {| ld_bot :=
       set_isPaused
         (match find_config botConfigs (bot_id bot) with
          | Some config => cfg_isPaused config
          | None => false
          end) bot;
     ld_provider := cfg_provider c;
     ld_prompt := cfg_prompt c |}.

(** [initialBots]: resumed from a saved state that has bots, fresh
    otherwise. *)
Definition initial_loaded (botConfigs : list BotConfig)
    (savedBots : list SavedBot) (created : string -> N) : list Loaded :=
  match savedBots with
  | _ :: _ => omap (resume_bot botConfigs) savedBots
  | [] => fresh_bot botConfigs created <$> botConfigs
  end.

(** The outside world at engine start. *)
Record InitWorld := {
  iw_isAppConfigured : bool;
  iw_exchangeInfo : option (gmap string SymbolPrecisionInfo);
  iw_configs : option (list ApiBot * list ApiProvider);
  iw_savedState : ArenaRead;
  iw_created : string -> N;
  iw_sync : string -> option (Portfolio * list Order);
  iw_now : string -> N
}.

(** The state of the hook that [initialize] writes. *)
Record HookState := {
  hs_bots : list BotState;
  hs_symbolPrecisions : gmap string SymbolPrecisionInfo;
  hs_isLoading : bool;
  hs_initialBalanceRef : gmap string Q
}.

(** [initialize] runs once, when the hook mounts, on the initial state of
    the hook: no bots, no symbol precisions, [isLoading] set and an empty
    [initialBalanceRef]. The result is the state of the hook when it has
    settled. *)
Definition initialize (w : InitWorld) : HookState :=
  if negb (iw_isAppConfigured w) then
    {| hs_bots := []; hs_symbolPrecisions := ∅; hs_isLoading := false;
       hs_initialBalanceRef := ∅ |}
  else
    let precisions := default ∅ (iw_exchangeInfo w) in
    let botConfigs := fetchBotConfigs (iw_configs w) in
    match botConfigs with
    | [] =>
        {| hs_bots := []; hs_symbolPrecisions := precisions;
           hs_isLoading := false; hs_initialBalanceRef := ∅ |}
    | _ :: _ =>
        match iw_savedState w with
        | ReadThrows =>
            {| hs_bots := []; hs_symbolPrecisions := precisions;
               hs_isLoading := false; hs_initialBalanceRef := ∅ |}
        | saved =>
            let savedBots :=
              match saved with ReadSaved l => l | _ => [] end in
            let initialBots :=
              ld_bot <$> initial_loaded botConfigs savedBots (iw_created w) in
            let '(liveCorrectedBots, ref) :=
              initial_sync PAPER_BOT_INITIAL_BALANCE LIVE_BOT_INITIAL_BALANCE
                (iw_sync w) (iw_now w) ∅ initialBots in
            {| hs_bots := liveCorrectedBots;
               hs_symbolPrecisions := precisions;
               hs_isLoading := false; hs_initialBalanceRef := ref |}
        end
    end.

(** [bots.find(b => b.id === botId)] *)
Definition find_bot (bs : list BotState) (botId : string) : option BotState :=
  find (fun b => String.eqb (bot_id b) botId) bs.

(** [resetBot]: [confirm] is the answer to [window.confirm], [response]
    the outcome of the requests of [fetchBotConfigs], [now i] the reading
    of the clock in the [createNewBot] that replaces the bot at index [i];
    [closure] is the list [bots] the function closed over, [bots a] the
    list [setBots] updates. *)
Definition resetBot (confirm : bool)
    (response : option (list ApiBot * list ApiProvider)) (now : nat -> N)
    (botId : string) (closure : list BotState) (a : Arena) : Arena :=
  let refused :=
    match find_bot closure botId with
    | Some botToReset =>
        match bot_tradingMode botToReset with
        | real => true
        | paper => false
        end
    | None => false
    end in
  if refused then a
  else if negb confirm then a
  else
    match find_config (fetchBotConfigs response) botId with
    | None => a
    | Some config =>
        {| bots :=
             imap
               (fun i b =>
                  if String.eqb (bot_id b) botId then
                    createNewBot PAPER_BOT_INITIAL_BALANCE
                      LIVE_BOT_INITIAL_BALANCE (cfg_id config)
                      (cfg_name config) (cfg_prompt config)
                      (cfg_provider config) (cfg_mode config) (now i)
                  else b) (bots a);
           markets := markets a;
           initialBalanceRef :=
             match find_bot (bots a) botId with
             | Some _ => delete botId (initialBalanceRef a)
             | None => initialBalanceRef a
             end |}
    end.

End Initialize.

(** ** The decision turn over all bots: [runTradingTurn] *)

(** [setBots(current => current.map(b => b.id === id ? f(b) : b))] *)
Definition setBots_at (id : string) (f : BotState -> BotState)
    (current : list BotState) : list BotState :=
  (fun b => if String.eqb (bot_id b) id then f b else b) <$> current.

(** The state a turn runs over: the bots of the hook as [setBots] sees
    them, the number of clock readings and the requests sent. *)
Record TurnState := {
  ts_current : list BotState;
  ts_clock : nat;
  ts_calls : list VenueCall
}.

Section TradingTurn.

Variable symbolPrecisions : gmap string SymbolPrecisionInfo.
Variable leverageLimits : gmap string Q.
Variable Date_now : nat -> N.
Variable venue : list VenueCall -> VenueCall -> Settled.

(** [bot.getDecision(bot.portfolio, markets)]: the prompt and the decisions
    the decision source of the bot answers. *)
Variable getDecision : BotState -> list Market -> string * list AiDecision.

(** [runTradingTurn]: [closure] is the list [bots] the function closed
    over, [ts_current] the list [setBots] updates. *)
Fixpoint runTradingTurn (markets : list Market) (closure : list BotState)
    (ts : TurnState) : TurnState :=
  match closure with
  | [] => ts
  | bot :: rest =>
      if bot_isPaused bot then runTradingTurn markets rest ts
      else
        let loading :=
          setBots_at (bot_id bot) (set_isLoading true) (ts_current ts) in
        let '(prompt, decisions) := getDecision bot markets in
        match bot_turn symbolPrecisions leverageLimits Date_now venue bot
                markets prompt decisions (ts_clock ts) (ts_calls ts) with
        | (inl _, st) =>
            runTradingTurn markets rest
              {| ts_current :=
                   setBots_at (bot_id bot)
                     (fun _ => set_isLoading false (ex_updatedBotState st))
                     loading;
                 ts_clock := ex_clock st;
                 ts_calls := ex_calls st |}
        | (inr _, st) =>
            {| ts_current := loading; ts_clock := ex_clock st;
               ts_calls := ex_calls st |}
        end
  end.

End TradingTurn.

(** ** Decision source: services/grokService.ts *)

(** The suffix of a text that starts at its first '['. *)
Fixpoint from_open_bracket (s : string) : option string :=
  match s with
  | EmptyString => None
  | String c rest =>
      if Ascii.eqb c "["%char then Some s else from_open_bracket rest
  end.

(** The prefix of a text that ends at its last ']'. *)
Fixpoint upto_last_close (s : string) : option string :=
  match s with
  | EmptyString => None
  | String c rest =>
      match upto_last_close rest with
      | Some p => Some (String c p)
      | None => if Ascii.eqb c "]"%char then Some (String c EmptyString)
                else None
      end
  end.

(** [decisionText.match(/(\[[\s\S]*\])/)]: the leftmost match starts at the
    first '[' (a later '[' has a ']' after it only if the first one has),
    and the greedy star runs to the last ']'. *)
Definition match_array (decisionText : string) : option string :=
  from_open_bracket decisionText ≫= upto_last_close.






Section GrokService.

(** [API_URL] of config.ts. *)
Variable API_URL : option string.

(** [JSON.parse], typed as the service types its result: [None] when it
    throws. *)
Variable JSON_parse : string -> option (list AiDecision).


End GrokService.

(** ** Vocabulary of the properties *)

(** [updatedBotState.portfolio.balance], as the LONG/SHORT branch reads
    it. *)
Definition available_balance (st : ExecState) : Q :=
  pf_balance (bot_portfolio (ex_updatedBotState st)).

(** [st] after [notes] were pushed and [calls] were sent. *)
Definition ex_extend (notes : list Note) (calls : list VenueCall)
    (st : ExecState) : ExecState :=
  {| ex_notes := ex_notes st ++ notes;
     ex_updatedBotState := ex_updatedBotState st;
     ex_clock := ex_clock st;
     ex_calls := ex_calls st ++ calls |}.

(** The market order of an open of [tradeSize]. *)
Definition open_order (symbolPrecisions : gmap string SymbolPrecisionInfo)
    (bot : BotState) (d : AiDecision) (lev : Q)
    (market : Market) (tradeSize : Q) (sym : string) : VenueCall :=
  PlaceRealOrder
    {| o_symbol := sym; o_side := open_side (d_action d);
       o_type := MARKET;
       o_quantity :=
         getAdjustedQuantity symbolPrecisions sym
           (tradeSize * lev / m_price market);
       o_stopPrice := None; o_reduceOnly := false |} (bot_id bot).

(** A computation that leaves the field [f] of [updatedBotState] as it
    is. *)
Definition keeps {A X : Type} (f : BotState -> X) (m : Exec A) : Prop :=
  forall st,
    f (ex_updatedBotState (snd (m st))) = f (ex_updatedBotState st).

(** A computation that lets no exception escape. *)
Definition never_throws {A : Type} (m : Exec A) : Prop :=
  forall st, exists a, fst (m st) = inl a.

(** The quantity of the order that closes [pos]. *)
Definition close_quantity (symbolPrecisions : gmap string SymbolPrecisionInfo)
    (pos : Position) : Q :=
  getAdjustedQuantity symbolPrecisions (pos_symbol pos)
    (Qabs (pos_size pos * pos_leverage pos / pos_entryPrice pos)).

(** The reduce-only market order that closes [pos]. *)
Definition close_order (symbolPrecisions : gmap string SymbolPrecisionInfo)
    (bot : BotState) (pos : Position) : VenueCall :=
  PlaceRealOrder
    {| o_symbol := pos_symbol pos;
       o_side := match pos_type pos with
                 | OrderLONG => SELL
                 | OrderSHORT => BUY
                 end;
       o_type := MARKET;
       o_quantity := close_quantity symbolPrecisions pos;
       o_stopPrice := None; o_reduceOnly := true |} (bot_id bot).

(** [positions.find(p => p.id === id)] *)
Definition find_position (bot : BotState) (id : string) : option Position :=
  find (fun p => String.eqb (pos_id p) id)
    (pf_positions (bot_portfolio bot)).

(** The sum of a list of amounts. *)
Definition Qsum (l : list Q) : Q := fold_right Qplus 0 l.

(** The unrealized PnL of a position at a price, written from the words of
    the specification: (currentPrice - entryPrice) x (size x leverage /
    entryPrice) x (+1 for long, -1 for short). *)
Definition unrealized_pnl_formula (currentPrice : Q) (pos : Position) : Q :=
  (currentPrice - pos_entryPrice pos)
  * (pos_size pos * pos_leverage pos / pos_entryPrice pos)
  * match pos_type pos with OrderLONG => 1 | OrderSHORT => -1 end.

(** The quote of the symbol of [pos] in a market snapshot. *)
Definition quote (marketData : list Market) (pos : Position)
  : option Market :=
  find (fun m => String.eqb (m_symbol m) (pos_symbol pos)) marketData.

(** A run of refresh ticks, oldest first. *)
Definition refresh_ticks (LIVE : Q) (ticks : list Tick) (a : Arena) : Arena :=
  fold_left (fun a t => updatePortfolios LIVE t a) ticks a.




(** A note that reports a rejection. *)
Definition is_rejection (n : Note) : bool :=
  match note_kind n with Rejection => true | _ => false end.

(** The trade size after stage 2 of the live open: the proposed size, or
    the available balance when the size exceeds it. *)
Definition trade_size (availableBalance size : Q) : Q :=
  if Qltb availableBalance size then availableBalance else size.

(** The note of stage 2, when it adjusts. *)
Definition sizing_notes (symbol : string) (availableBalance size : Q)
  : list Note :=
  if Qltb availableBalance size
  then [TradeSizeAdjusted symbol size availableBalance] else [].

(** The note the [catch] block pushes for a thrown error. *)
Definition catch_note (decision : AiDecision) (error : JsError) : Note :=
  match truthyS (err_message error) with
  | Some message =>
      if includes message "ReduceOnly Order is rejected"
      then PositionGone (d_closePositionId decision)
      else ExecutionError (err_message error)
  | None => ExecutionError (err_message error)
  end.

(** The agent on whose account a request is made. *)
Definition call_botId (c : VenueCall) : string :=
  match c with
  | SetLeverage _ _ botId => botId
  | PlaceRealOrder _ botId => botId
  end.

(** What a computation of the live engine does to its state, started where
    the portfolio of [updatedBotState] is [pf]: it appends notes, it appends
    requests that satisfy [PC], the clock does not go back, the cooldown
    entry of a symbol outside [PS] is left as it is, and no cooldown entry
    is removed. *)
Definition effects {A : Type} (pf : Portfolio) (PC : VenueCall -> Prop)
    (PS : string -> Prop) (m : Exec A) : Prop :=
  forall st,
    bot_portfolio (ex_updatedBotState st) = pf ->
    exists notes calls,
      ex_notes (snd (m st)) = ex_notes st ++ notes /\
      ex_calls (snd (m st)) = ex_calls st ++ calls /\
      Forall PC calls /\
      (ex_clock st <= ex_clock (snd (m st)))%nat /\
      (forall sym, ~ PS sym ->
         bot_symbolCooldowns (ex_updatedBotState (snd (m st))) !! sym
         = bot_symbolCooldowns (ex_updatedBotState st) !! sym) /\
      (forall sym,
         is_Some (bot_symbolCooldowns (ex_updatedBotState st) !! sym) ->
         is_Some
           (bot_symbolCooldowns (ex_updatedBotState (snd (m st))) !! sym)).

(** A leverage request that stays within the venue maximum of its symbol
    (25 when the table has no entry). *)
Definition leverage_within (lim : gmap string Q) (c : VenueCall) : Prop :=
  match c with
  | SetLeverage symbol leverage _ => leverage <= default 25 (lim !! symbol)
  | PlaceRealOrder _ _ => True
  end.

(** A reduce-only market order is on the account of the agent, for the
    symbol of a position the agent holds, on the side that closes it. *)
Definition closes_held (bot : BotState) (c : VenueCall) : Prop :=
  match c with
  | SetLeverage _ _ _ => True
  | PlaceRealOrder spec botId =>
      o_reduceOnly spec = true -> o_type spec = MARKET ->
      exists pos,
        pos ∈ pf_positions (bot_portfolio bot) /\
        botId = bot_id bot /\
        o_symbol spec = pos_symbol pos /\
        o_side spec = match pos_type pos with
                      | OrderLONG => SELL
                      | OrderSHORT => BUY
                      end
  end.

(** A symbol on which the agent holds a position. *)
Definition held_symbol (bot : BotState) (sym : string) : Prop :=
  exists pos,
    pos ∈ pf_positions (bot_portfolio bot) /\ pos_symbol pos = sym.

(** A protective order of an open on [sym] for [quantity]: reduce-only,
    conditional, on the closing side. *)
Definition protective_order (botId : string) (d : AiDecision) (sym : string)
    (quantity : Q) (c : VenueCall) : Prop :=
  exists spec,
    c = PlaceRealOrder spec botId /\
    o_reduceOnly spec = true /\ o_symbol spec = sym /\
    o_quantity spec = quantity /\
    o_side spec = protective_side (d_action d) /\
    (o_type spec = STOP_MARKET /\
     truthyQ (d_stopLoss d) = o_stopPrice spec \/
     o_type spec = TAKE_PROFIT_MARKET /\
     truthyQ (d_takeProfit d) = o_stopPrice spec).

(** The leg a protective order is: by its type. *)
Definition leg_of (c : VenueCall) : option Leg :=
  match c with
  | PlaceRealOrder spec _ =>
      match o_type spec with
      | STOP_MARKET => Some StopLossLeg
      | TAKE_PROFIT_MARKET => Some TakeProfitLeg
      | MARKET => None
      end
  | SetLeverage _ _ _ => None
  end.

(** The note that reports how the order of a leg settled. *)
Definition settlement_note (leg : Leg) (sym : string) (r : Settled) : Note :=
  match r with
  | Resolved => ProtectivePlaced leg sym
  | Failed reason => ProtectiveFailed leg sym (err_message reason)
  end.

(** [updatedBotState] with the cooldown of [sym] set to [expiry]. *)
Definition with_cooldown (sym : string) (expiry : N) (st : ExecState)
  : ExecState :=
  {| ex_notes := ex_notes st;
     ex_updatedBotState :=
       set_symbolCooldowns
         (<[sym := expiry]> (bot_symbolCooldowns (ex_updatedBotState st)))
         (ex_updatedBotState st);
     ex_clock := S (ex_clock st);
     ex_calls := ex_calls st |}.

(** The nominal initial balance of a trading mode. *)
Definition nominal_balance (PAPER LIVE : Q) (mode : TradingMode) : Q :=
  match mode with real => LIVE | paper => PAPER end.

(** The provider entry that decides for a provider id: the last one of the
    response that carries the id. *)
Definition deciding_provider (providersData : list ApiProvider) (id : Z)
  : option ApiProvider :=
  find (fun p => Z.eqb (ap_id p) id) (rev providersData).

(** A bot of the list a turn closed over that is not paused has this id. *)
Definition takes_turn (closure : list BotState) (id : string) : bool :=
  existsb (fun bot => negb (bot_isPaused bot) && String.eqb (bot_id bot) id)
    closure.

(** What a turn stores for [bot], when its decision source answered
    [prompt] and [decisions]: the record the turn started from, not
    loading, with one new entry in front of the turn log, of which the 50
    newest are kept, and with cooldowns that differ at most on symbols of
    held positions, none of them removed. *)
Definition stored_from (bot : BotState) (prompt : string)
    (decisions : list AiDecision) (b' : BotState) : Prop :=
  bot_id b' = bot_id bot /\
  bot_name b' = bot_name bot /\
  bot_prompt b' = bot_prompt bot /\
  bot_provider b' = bot_provider bot /\
  bot_tradingMode b' = bot_tradingMode bot /\
  bot_portfolio b' = bot_portfolio bot /\
  bot_orders b' = bot_orders bot /\
  bot_valueHistory b' = bot_valueHistory bot /\
  bot_realizedPnl b' = bot_realizedPnl bot /\
  bot_tradeCount b' = bot_tradeCount bot /\
  bot_winRate b' = bot_winRate bot /\
  bot_isPaused b' = false /\
  bot_isLoading b' = false /\
  (exists newLog,
     bot_botLogs b' = take 50 (newLog :: bot_botLogs bot) /\
     log_decisions newLog = decisions /\ log_prompt newLog = prompt) /\
  (forall sym,
     ~ held_symbol bot sym ->
     bot_symbolCooldowns b' !! sym = bot_symbolCooldowns bot !! sym) /\
  (forall sym,
     is_Some (bot_symbolCooldowns bot !! sym) ->
     is_Some (bot_symbolCooldowns b' !! sym)).

(** The character [c] occurs in [s]. *)
Fixpoint occurs (c : ascii) (s : string) : bool :=
  match s with
  | EmptyString => false
  | String c' rest => Ascii.eqb c' c || occurs c rest
  end.

(** ** Sample data

    Concrete agents, decisions and worlds on which the properties below are
    evaluated. *)

Module Sample.

Definition btc : string := "BTCUSDT".

Definition portfolio (balance : Q) (positions : list Position)
  : Portfolio :=
  {| pf_balance := balance; pf_pnl := 0; pf_totalValue := balance;
     pf_positions := positions |}.

Definition agent (mode : TradingMode) (balance : Q)
    (positions : list Position) (cooldowns : gmap string N) : BotState :=
  {| bot_id := "bot_degen"; bot_name := "DEGEN LIVE"; bot_prompt := "";
     bot_provider := grok; bot_tradingMode := mode;
     bot_portfolio := portfolio balance positions;
     bot_orders := []; bot_botLogs := [];
     bot_valueHistory := [{| vh_timestamp := 0; vh_value := balance |}];
     bot_isLoading := false; bot_isPaused := false;
     bot_realizedPnl := 0; bot_tradeCount := 0%N; bot_winRate := 0;
     bot_symbolCooldowns := cooldowns |}.

Definition open_long (size leverage : option Q) : AiDecision :=
  {| d_action := LONG; d_symbol := Some btc; d_size := size;
     d_leverage := leverage; d_stopLoss := None; d_takeProfit := None;
     d_closePositionId := None; d_reasoning := "" |}.

Definition close (id : string) : AiDecision :=
  {| d_action := CLOSE; d_symbol := None; d_size := None;
     d_leverage := None; d_stopLoss := None; d_takeProfit := None;
     d_closePositionId := Some id; d_reasoning := "" |}.

Definition btc_long (id : string) : Position :=
  {| pos_id := id; pos_symbol := btc; pos_type := OrderLONG;
     pos_entryPrice := 100; pos_size := 50; pos_leverage := 2;
     pos_pnl := 0 |}.

Definition btc_at (price : Q) : list Market :=
  [{| m_symbol := btc; m_price := price |}].

(** A clock that stands at [t]. *)
Definition clock_at (t : N) : nat -> N := fun _ => t.

(** A venue that accepts every request. *)
Definition venue_ok : list VenueCall -> VenueCall -> Settled :=
  fun _ _ => Resolved.

(** A venue on which the position is already gone: it rejects every
    reduce-only order. *)
Definition venue_gone : list VenueCall -> VenueCall -> Settled :=
  fun _ call =>
    match call with
    | PlaceRealOrder spec _ =>
        if o_reduceOnly spec
        then Failed {| err_message :=
                         Some "ReduceOnly Order is rejected." |}
        else Resolved
    | _ => Resolved
    end.

Definition init_state (bot : BotState) : ExecState :=
  {| ex_notes := []; ex_updatedBotState := bot; ex_clock := 0;
     ex_calls := [] |}.

(** A LONG with both protective prices. *)
Definition open_long_protected (size leverage stopLoss takeProfit : Q)
  : AiDecision :=
  {| d_action := LONG; d_symbol := Some btc; d_size := Some size;
     d_leverage := Some leverage; d_stopLoss := Some stopLoss;
     d_takeProfit := Some takeProfit; d_closePositionId := None;
     d_reasoning := "" |}.

(** A venue that rejects stop orders and accepts everything else. *)
Definition venue_no_stops : list VenueCall -> VenueCall -> Settled :=
  fun _ call =>
    match call with
    | PlaceRealOrder spec _ =>
        match o_type spec with
        | STOP_MARKET =>
            Failed {| err_message := Some "Order would trigger" |}
        | _ => Resolved
        end
    | _ => Resolved
    end.

End Sample.

(** * Properties *)

(** ** Precision adapter *)

Lemma Qltb_lt (a b : Q) : Qltb a b = true <-> a < b.
Proof.
  unfold Qltb. rewrite negb_true_iff. split.
  - intros H. apply Qnot_le_lt. intros Hle.
    apply Qle_bool_iff in Hle. congruence.
  - intros H. destruct (Qle_bool b a) eqn:E; [|reflexivity].
    apply Qle_bool_iff in E. exfalso. exact (Qlt_not_le _ _ H E).
Qed.

Lemma Qltb_ge (a b : Q) : Qltb a b = false <-> b <= a.
Proof.
  unfold Qltb. rewrite negb_false_iff. apply Qle_bool_iff.
Qed.

Lemma factor_pos (p : Z) : 0 < 10 ^ p.
Proof. apply Qpower_0_lt. reflexivity. Qed.

Lemma floor_scaled_le (q f : Q) :
  0 < f -> inject_Z (Qfloor (q * f)) / f <= q.
Proof.
  intros Hf. apply Qle_shift_div_r; [exact Hf|]. apply Qfloor_le.
Qed.

Lemma floor_scaled_gt (q f : Q) :
  0 < f -> q < inject_Z (Qfloor (q * f)) / f + 1 / f.
Proof.
  intros Hf.
  assert (H : q * f < inject_Z (Qfloor (q * f)) + 1).
  { pose proof (Qlt_floor (q * f)) as H.
    rewrite inject_Z_plus in H. exact H. }
  assert (E : inject_Z (Qfloor (q * f)) / f + 1 / f
              == (inject_Z (Qfloor (q * f)) + 1) / f).
  { field. intros E. rewrite E in Hf. discriminate. }
  rewrite E. apply Qlt_shift_div_l; assumption.
Qed.

Lemma floor_scaled_nonneg (q f : Q) :
  0 < f -> 0 <= q -> 0 <= inject_Z (Qfloor (q * f)) / f.
Proof.
  intros Hf Hq. apply Qle_shift_div_l; [exact Hf|].
  rewrite Qmult_0_l.
  assert (H : (Qfloor 0 <= Qfloor (q * f))%Z).
  { apply Qfloor_resp_le. apply Qmult_le_0_compat; [exact Hq|].
    apply Qlt_le_weak; exact Hf. }
  change (Qfloor 0) with 0%Z in H.
  rewrite Zle_Qle in H. exact H.
Qed.

(** In exact arithmetic the formula of the adjustment is a truncation: for
    a non-negative [q] the result is a whole number of units of [10^-p],
    it lies between [0] and [q], and it is less than one unit below [q],
    where [p] is the quantity precision of the symbol, 3 when the symbol
    is unknown. *)
Lemma getAdjustedQuantity_exact_truncates
    (precs : gmap string SymbolPrecisionInfo) (symbol : string) (q : Q) :
  0 <= q ->
  let p := match precs !! symbol with
           | Some info => quantityPrecision info
           | None => 3%Z
           end in
  let r := getAdjustedQuantity precs symbol q in
  r = inject_Z (Qfloor (q * 10 ^ p)) / 10 ^ p /\
  (exists n : Z, (0 <= n)%Z /\ r == inject_Z n / 10 ^ p) /\
  0 <= r /\ r <= q /\ q < r + 1 / 10 ^ p.
Proof.
  intros Hq p r. subst p r. unfold getAdjustedQuantity, precision_of.
  set (p := match precs !! symbol with
            | Some info => quantityPrecision info
            | None => 3%Z
            end).
  pose proof (factor_pos p) as Hf.
  split; [reflexivity|]. split.
  - exists (Qfloor (q * 10 ^ p)). split; [|reflexivity].
    change 0%Z with (Qfloor 0). apply Qfloor_resp_le.
    apply Qmult_le_0_compat; [exact Hq|]. apply Qlt_le_weak; exact Hf.
  - split; [apply floor_scaled_nonneg; assumption|].
    split; [apply floor_scaled_le; assumption|].
    apply floor_scaled_gt; assumption.
Qed.

(** C6 (it fails on the code). In binary64 the adjustment can round a
    quantity up. The raw quantity of a $51.17 trade at leverage 3 and a
    quote of 10 is 51.17 * 3 / 10, which is 15.350999999999999; for a
    symbol of unknown precision the factor is 1000, the product rounds to
    the integer 15351, the floor keeps it, and the quotient is 15.351: the
    adjusted quantity is above the raw quantity, and it is not the raw
    quantity truncated to three digits, which is 15.35. *)
Theorem getAdjustedQuantity_rounds_up :
  let rawQuantity :=
    Double.div (Double.mul (Double.decimal 5117 2) (Double.of_Z 3))
      (Double.of_Z 10) in
  let quantity :=
    Double.getAdjustedQuantity ∅ "BTCUSDT"%string rawQuantity in
  SFltb (Double.decimal 15350 3) rawQuantity = true /\
  SFltb rawQuantity (Double.decimal 15351 3) = true /\
  Double.mul rawQuantity (Double.Math_pow10 3) = Double.of_Z 15351 /\
  quantity = Double.decimal 15351 3 /\
  SFltb rawQuantity quantity = true.
Proof. vm_compute. repeat split. Qed.


(** ** Validation pipeline *)

Lemma truthyQ_Some (o : option Q) (q : Q) :
  truthyQ o = Some q <-> o = Some q /\ ~ q == 0.
Proof.
  unfold truthyQ. destruct o as [x|];
    [|split; [discriminate|intros [? _]; discriminate]].
  destruct (Qeq_bool x 0) eqn:E.
  - apply Qeq_bool_iff in E. split; [discriminate|].
    intros [[= ->] H]. contradiction.
  - apply Qeq_bool_neq in E. split.
    + intros [= ->]. split; [reflexivity|exact E].
    + intros [[= ->] _]. reflexivity.
Qed.

Lemma truthyS_Some (o : option string) (s : string) :
  truthyS o = Some s <-> o = Some s /\ s <> EmptyString.
Proof.
  unfold truthyS. destruct o as [x|];
    [|split; [discriminate|intros [? _]; discriminate]].
  destruct (decide (x = EmptyString)) as [->|Hne]; split.
  - discriminate.
  - intros [[= <-] H]. contradiction.
  - intros [= ->]. split; [reflexivity|exact Hne].
  - intros [[= ->] _]. reflexivity.
Qed.

Lemma truthyN_Some (o : option N) (n : N) :
  truthyN o = Some n <-> o = Some n /\ n <> 0%N.
Proof.
  unfold truthyN. destruct o as [x|];
    [|split; [discriminate|intros [? _]; discriminate]].
  destruct (N.eqb_spec x 0) as [->|Hne]; split.
  - discriminate.
  - intros [[= <-] H]. contradiction.
  - intros [= ->]. split; [reflexivity|exact Hne].
  - intros [[= ->] _]. reflexivity.
Qed.

Section ValidationFacts.

Variable leverageLimits : gmap string Q.
Variable Date_now : nat -> N.
Variable bot : BotState.

Local Abbreviation step :=
  (validate_decision leverageLimits Date_now bot).

(** What one call of the callback does, by the outcome of the first two
    rules. *)
Lemma step_minimum_size st d note :
  rule_minimum_size d = Some note ->
  step st d =
    {| vs_notes := vs_notes st ++ [note];
       vs_validated := vs_validated st;
       vs_clock := vs_clock st |}.
Proof. intros H. unfold validate_decision. rewrite H. reflexivity. Qed.

Lemma step_cooldown st d note k :
  rule_minimum_size d = None ->
  rule_cooldown Date_now bot (vs_clock st) d = (Some note, k) ->
  step st d =
    {| vs_notes := vs_notes st ++ [note];
       vs_validated := vs_validated st;
       vs_clock := k |}.
Proof.
  intros H1 H2. unfold validate_decision. rewrite H1, H2. reflexivity.
Qed.

Lemma step_accept st d k :
  rule_minimum_size d = None ->
  rule_cooldown Date_now bot (vs_clock st) d = (None, k) ->
  step st d =
    {| vs_notes := vs_notes st ++ snd (rule_leverage leverageLimits d);
       vs_validated :=
         vs_validated st
         ++ [{| v_decision := d;
                v_adjustedLeverage :=
                  fst (rule_leverage leverageLimits d) |}];
       vs_clock := k |}.
Proof.
  intros H1 H2. unfold validate_decision. rewrite H1, H2.
  destruct (rule_leverage leverageLimits d). reflexivity.
Qed.

(** Where an element of [validatedDecisions] comes from. *)
Lemma validated_origin ds : forall st v,
  v ∈ vs_validated (fold_left step ds st) ->
  v ∈ vs_validated st \/
  exists d, d ∈ ds /\ rule_minimum_size d = None /\
            v = {| v_decision := d;
                   v_adjustedLeverage :=
                     fst (rule_leverage leverageLimits d) |}.
Proof.
  induction ds as [|d ds IH]; intros st v Hv; simpl in Hv.
  - left. exact Hv.
  - apply IH in Hv. destruct Hv as [Hv|(d' & Hin & Hmin & ->)].
    + destruct (rule_minimum_size d) as [note|] eqn:Hmin.
      * rewrite (step_minimum_size _ _ _ Hmin) in Hv. left. exact Hv.
      * destruct (rule_cooldown Date_now bot (vs_clock st) d)
          as [[note|] k] eqn:Hcool.
        -- rewrite (step_cooldown _ _ _ _ Hmin Hcool) in Hv.
           left. exact Hv.
        -- rewrite (step_accept _ _ _ Hmin Hcool) in Hv. simpl in Hv.
           apply elem_of_app in Hv. destruct Hv as [Hv|Hv].
           ++ left. exact Hv.
           ++ apply list_elem_of_singleton in Hv. right.
              exists d. split; [left|]. split; assumption.
    + right. exists d'. split; [right; exact Hin|].
      split; [exact Hmin|reflexivity].
Qed.

End ValidationFacts.

(** C2 (as stated, it fails): a LONG of size 0 is directional and below
    the minimum of $50, yet the pipeline neither rejects it nor notes
    anything; it is handed to execution with leverage 1. *)
Lemma minimum_size_zero_not_rejected :
  let d := Sample.open_long (Some 0) None in
  let vs := validate ∅ (Sample.clock_at 0)
              (Sample.agent real 1000 [] ∅) 0 [d] in
  is_directional (d_action d) = true /\
  (exists s, d_size d = Some s /\ s < MINIMUM_TRADE_SIZE_USD) /\
  vs_notes vs = [] /\
  vs_validated vs = [{| v_decision := d; v_adjustedLeverage := 1 |}].
Proof.
  cbv zeta. split; [reflexivity|]. split.
  - exists 0. split; reflexivity.
  - split; reflexivity.
Qed.

(** C2 (amended). A directional decision whose size is present, not zero
    and below the minimum of $50 is rejected by every call of the
    validation callback with the note "Margin ... is below minimum", and
    never occurs among the validated decisions handed to execution;
    a decision that is not directional passes the minimum-size rule
    whatever its size, and so does a decision whose size is absent or
    zero. *)
Theorem minimum_size_rejects_nonzero
    (lim : gmap string Q) (clock : nat -> N) (bot : BotState)
    (d : AiDecision) (s : Q) :
  is_directional (d_action d) = true ->
  d_size d = Some s -> ~ s == 0 -> s < MINIMUM_TRADE_SIZE_USD ->
  (forall st,
     validate_decision lim clock bot st d =
       {| vs_notes :=
            vs_notes st ++ [RejectedBelowMinimum (d_action d) (d_symbol d) s];
          vs_validated := vs_validated st;
          vs_clock := vs_clock st |}) /\
  (forall k ds v,
     v ∈ vs_validated (validate lim clock bot k ds) -> v_decision v <> d) /\
  (forall c, is_directional (d_action c) = false ->
             rule_minimum_size c = None) /\
  (forall c, truthyQ (d_size c) = None -> rule_minimum_size c = None).
Proof.
  intros Hdir Hsize Hnz Hlt.
  assert (Hrule : rule_minimum_size d
                  = Some (RejectedBelowMinimum (d_action d) (d_symbol d) s)).
  { unfold rule_minimum_size. rewrite Hdir.
    replace (truthyQ (d_size d)) with (Some s)
      by (symmetry; apply truthyQ_Some; split; assumption).
    apply Qltb_lt in Hlt. rewrite Hlt. reflexivity. }
  split; [|split; [|split]].
  - intros st. apply step_minimum_size. exact Hrule.
  - intros k ds v Hv Heq. unfold validate in Hv.
    apply validated_origin in Hv. destruct Hv as [Hv|(d' & _ & Hmin & ->)].
    + simpl in Hv. apply elem_of_nil in Hv. exact Hv.
    + simpl in Heq. subst d'. congruence.
  - intros c Hc. unfold rule_minimum_size. rewrite Hc. reflexivity.
  - intros c Hc. unfold rule_minimum_size. rewrite Hc.
    destruct (is_directional (d_action c)); reflexivity.
Qed.

Lemma minimum_size_rejects_nonzero_witness :
  let d := Sample.open_long (Some 10) None in
  vs_notes (validate ∅ (Sample.clock_at 0) (Sample.agent real 1000 [] ∅) 0
              [d])
  = [RejectedBelowMinimum LONG (Some Sample.btc) 10] /\
  rule_minimum_size (Sample.close "pos_1") = None.
Proof.
  cbv zeta.
  destruct (minimum_size_rejects_nonzero ∅ (Sample.clock_at 0)
              (Sample.agent real 1000 [] ∅)
              (Sample.open_long (Some 10) None) 10)
    as (H1 & _ & H3 & _).
  - reflexivity.
  - reflexivity.
  - discriminate.
  - reflexivity.
  - split.
    + unfold validate. simpl fold_left. rewrite H1. reflexivity.
    + apply H3. reflexivity.
Defined.

(** C3. For a directional decision on a symbol whose cooldown entry of the
    agent has not expired when the callback reads the clock, the cooldown
    rule yields the rejection note with the remaining minutes, validation
    does not add the decision to the validated ones and pushes exactly one
    note, a rejection, which is that note whenever the decision passed the
    minimum-size rule before; and a decision on a symbol with no entry, or
    with an entry that has expired, is not rejected by the cooldown rule. *)
Theorem cooldown_rejects_until_expiry
    (lim : gmap string Q) (clock : nat -> N) (bot : BotState)
    (st : ValidationState) (d : AiDecision) (sym : string) (expiry : N) :
  is_directional (d_action d) = true ->
  d_symbol d = Some sym -> sym <> EmptyString ->
  bot_symbolCooldowns bot !! sym = Some expiry ->
  ((clock (vs_clock st) < expiry)%N ->
   let note :=
     RejectedCooldown (d_action d) sym
       (inject_Z (Z.of_N expiry - Z.of_N (clock (S (vs_clock st))))
        / 60000) in
   let st' := validate_decision lim clock bot st d in
   rule_cooldown clock bot (vs_clock st) d
   = (Some note, S (S (vs_clock st))) /\
   vs_validated st' = vs_validated st /\
   (exists n, vs_notes st' = vs_notes st ++ [n] /\
              note_kind n = Rejection) /\
   (rule_minimum_size d = None -> vs_notes st' = vs_notes st ++ [note])) /\
  ((expiry <= clock (vs_clock st))%N ->
   fst (rule_cooldown clock bot (vs_clock st) d) = None) /\
  (forall bot',
     bot_symbolCooldowns bot' !! sym = None ->
     fst (rule_cooldown clock bot' (vs_clock st) d) = None).
Proof.
  intros Hdir Hsym Hne Hentry.
  assert (Hts : truthyS (d_symbol d) = Some sym)
    by (apply truthyS_Some; split; assumption).
  split; [|split].
  - intros Hlt note st'.
    assert (Htn : truthyN (bot_symbolCooldowns bot !! sym) = Some expiry).
    { apply truthyN_Some. split; [exact Hentry|]. lia. }
    assert (Hrule : rule_cooldown clock bot (vs_clock st) d
                    = (Some note, S (S (vs_clock st)))).
    { unfold rule_cooldown. rewrite Hdir, Hts, Htn.
      apply N.ltb_lt in Hlt. rewrite Hlt. reflexivity. }
    split; [exact Hrule|].
    subst st'. destruct (rule_minimum_size d) as [n|] eqn:Hmin.
    + rewrite (step_minimum_size _ _ _ _ _ _ Hmin). simpl.
      split; [reflexivity|]. split; [|discriminate].
      exists n. split; [reflexivity|].
      unfold rule_minimum_size in Hmin.
      destruct (is_directional (d_action d)); [|discriminate].
      destruct (truthyQ (d_size d)); [|discriminate].
      destruct (Qltb q MINIMUM_TRADE_SIZE_USD); [|discriminate].
      injection Hmin as <-. reflexivity.
    + rewrite (step_cooldown _ _ _ _ _ _ _ Hmin Hrule). simpl.
      split; [reflexivity|]. split; [|reflexivity].
      exists note. split; reflexivity.
  - intros Hge. unfold rule_cooldown. rewrite Hdir, Hts.
    destruct (truthyN (bot_symbolCooldowns bot !! sym)) as [e|] eqn:Htn;
      [|reflexivity].
    apply truthyN_Some in Htn. destruct Htn as [Htn _].
    rewrite Hentry in Htn. injection Htn as <-.
    apply N.ltb_ge in Hge. rewrite Hge. reflexivity.
  - intros bot' Hnone. unfold rule_cooldown. rewrite Hdir, Hts, Hnone.
    reflexivity.
Qed.

(** Scenario D on the sample agent: BTCUSDT was closed at minute 0 with a
    30-minute cooldown; a LONG issued at minute 10 is rejected with 20
    minutes left, one issued at minute 31 is validated. *)
Lemma cooldown_rejects_until_expiry_witness :
  let bot := Sample.agent real 1000 [] {[ Sample.btc := 1800000%N ]} in
  let d := Sample.open_long (Some 100) (Some 2) in
  vs_notes (validate ∅ (Sample.clock_at 600000) bot 0 [d])
  = [RejectedCooldown LONG Sample.btc (inject_Z 1200000 / 60000)] /\
  vs_validated (validate ∅ (Sample.clock_at 1860000) bot 0 [d])
  = [{| v_decision := d; v_adjustedLeverage := 2 |}].
Proof.
  cbv zeta. split.
  - destruct (cooldown_rejects_until_expiry ∅ (Sample.clock_at 600000)
                (Sample.agent real 1000 [] {[ Sample.btc := 1800000%N ]})
                {| vs_notes := []; vs_validated := []; vs_clock := 0 |}
                (Sample.open_long (Some 100) (Some 2)) Sample.btc
                1800000%N)
      as (H1 & _ & _).
    + reflexivity.
    + reflexivity.
    + discriminate.
    + reflexivity.
    + destruct H1 as (_ & _ & _ & H); [reflexivity|].
      unfold validate. simpl fold_left. rewrite H; reflexivity.
  - reflexivity.
Defined.

(** C4. For a directional decision on a symbol, the leverage rule yields the
    requested leverage (1 when none is given) capped at the maximum of the
    symbol in the venue table (25 when the symbol is not in the table): when
    the request exceeds the cap, the effective leverage is the cap and one
    adjustment note is pushed; the rule cannot reject, so a decision that
    passes the two rules before it is validated whatever leverage it asks
    for, and those two rules do not look at the leverage; every validated
    directional decision on a symbol carries an effective leverage of at
    most the cap. *)
Theorem leverage_clamped_never_rejected
    (lim : gmap string Q) (clock : nat -> N) (bot : BotState)
    (d : AiDecision) (sym : string) :
  is_directional (d_action d) = true ->
  d_symbol d = Some sym -> sym <> EmptyString ->
  let requested := default 1 (truthyQ (d_leverage d)) in
  let cap := default 25 (lim !! sym) in
  (cap < requested ->
   rule_leverage lim d = (cap, [LeverageAdjusted sym requested cap])) /\
  (requested <= cap -> rule_leverage lim d = (requested, [])) /\
  fst (rule_leverage lim d) <= cap /\
  (forall st,
     rule_minimum_size d = None ->
     fst (rule_cooldown clock bot (vs_clock st) d) = None ->
     let st' := validate_decision lim clock bot st d in
     vs_validated st'
     = vs_validated st
       ++ [{| v_decision := d;
              v_adjustedLeverage := fst (rule_leverage lim d) |}] /\
     vs_notes st' = vs_notes st ++ snd (rule_leverage lim d)) /\
  (forall d',
     d_action d' = d_action d -> d_symbol d' = d_symbol d ->
     d_size d' = d_size d ->
     rule_minimum_size d' = rule_minimum_size d /\
     forall k, rule_cooldown clock bot k d' = rule_cooldown clock bot k d) /\
  (forall k ds v,
     v ∈ vs_validated (validate lim clock bot k ds) ->
     v_decision v = d -> v_adjustedLeverage v <= cap).
Proof.
  intros Hdir Hsym Hne requested cap.
  assert (Hts : truthyS (d_symbol d) = Some sym)
    by (apply truthyS_Some; split; assumption).
  assert (Hgt : cap < requested ->
                rule_leverage lim d
                = (cap, [LeverageAdjusted sym requested cap])).
  { intros H. unfold rule_leverage. rewrite Hdir, Hts.
    apply Qltb_lt in H. fold cap requested. rewrite H. reflexivity. }
  assert (Hle : requested <= cap -> rule_leverage lim d = (requested, [])).
  { intros H. unfold rule_leverage. rewrite Hdir, Hts.
    apply Qltb_ge in H. fold cap requested. rewrite H. reflexivity. }
  assert (Hcap : fst (rule_leverage lim d) <= cap).
  { destruct (Qlt_le_dec cap requested) as [H|H].
    - rewrite (Hgt H). simpl. apply Qle_refl.
    - rewrite (Hle H). simpl. exact H. }
  split; [exact Hgt|]. split; [exact Hle|]. split; [exact Hcap|].
  split; [|split].
  - intros st Hmin Hcool st'. subst st'.
    destruct (rule_cooldown clock bot (vs_clock st) d) as [o k] eqn:E.
    simpl in Hcool. subst o.
    rewrite (step_accept _ _ _ _ _ _ Hmin E). split; reflexivity.
  - intros d' Ha Hs Hz. split.
    + unfold rule_minimum_size. rewrite Ha, Hs, Hz. reflexivity.
    + intros k. unfold rule_cooldown. rewrite Ha, Hs. reflexivity.
  - intros k ds v Hv Hd. unfold validate in Hv.
    apply validated_origin in Hv. destruct Hv as [Hv|(d' & _ & _ & ->)].
    + simpl in Hv. apply elem_of_nil in Hv. contradiction.
    + simpl in Hd. subst d'. exact Hcap.
Qed.

Lemma leverage_clamped_never_rejected_witness :
  let lim : gmap string Q := {[ Sample.btc := 20 ]} in
  let bot := Sample.agent real 1000 [] ∅ in
  let d := Sample.open_long (Some 100) (Some 50) in
  rule_leverage lim d = (20, [LeverageAdjusted Sample.btc 50 20]) /\
  rule_leverage ∅ d = (25, [LeverageAdjusted Sample.btc 50 25]) /\
  vs_validated (validate lim (Sample.clock_at 0) bot 0 [d])
  = [{| v_decision := d; v_adjustedLeverage := 20 |}].
Proof.
  cbv zeta.
  destruct (leverage_clamped_never_rejected {[ Sample.btc := 20 ]}
              (Sample.clock_at 0) (Sample.agent real 1000 [] ∅)
              (Sample.open_long (Some 100) (Some 50)) Sample.btc)
    as (H1 & _); [reflexivity|reflexivity|discriminate|].
  destruct (leverage_clamped_never_rejected ∅
              (Sample.clock_at 0) (Sample.agent real 1000 [] ∅)
              (Sample.open_long (Some 100) (Some 50)) Sample.btc)
    as (H2 & _); [reflexivity|reflexivity|discriminate|].
  split; [apply H1; reflexivity|].
  split; [apply H2; reflexivity|].
  reflexivity.
Defined.

(** ** Live execution engine *)

Section LiveFacts.

Variable symbolPrecisions : gmap string SymbolPrecisionInfo.
Variable venue : list VenueCall -> VenueCall -> Settled.

Lemma bind_inl {A B : Type} (m : Exec A) (f : A -> Exec B) st a st' :
  m st = (inl a, st') -> (m ≫= f) st = f a st'.
Proof. intros H. unfold mbind, Exec_bind. rewrite H. reflexivity. Qed.

Lemma bind_inr {A B : Type} (m : Exec A) (f : A -> Exec B) st e st' :
  m st = (inr e, st') -> (m ≫= f) st = (inr e, st').
Proof. intros H. unfold mbind, Exec_bind. rewrite H. reflexivity. Qed.

Lemma execute_open_low_balance bot d lev market size sym st :
  available_balance st < MINIMUM_TRADE_SIZE_USD ->
  execute_open symbolPrecisions venue bot d lev market size sym st
  = push (RejectedBalance (d_action d) sym (available_balance st)) st.
Proof.
  intros H. apply Qltb_lt in H. unfold execute_open.
  erewrite bind_inl by reflexivity.
  fold (available_balance st). rewrite H. reflexivity.
Qed.

Lemma execute_open_clamp bot d lev market size sym st :
  MINIMUM_TRADE_SIZE_USD <= available_balance st ->
  available_balance st < size ->
  execute_open symbolPrecisions venue bot d lev market size sym st
  = submit_open symbolPrecisions venue bot d lev market
      (available_balance st) sym
      (snd (push (TradeSizeAdjusted sym size (available_balance st)) st)).
Proof.
  intros H1 H2. pose proof H1 as H1'.
  apply Qltb_ge in H1. apply Qltb_lt in H2. unfold execute_open.
  erewrite bind_inl by reflexivity.
  fold (available_balance st). rewrite H1.
  erewrite bind_inl.
  2:{ rewrite H2. erewrite bind_inl by reflexivity. reflexivity. }
  rewrite H1. reflexivity.
Qed.

Lemma execute_open_fits bot d lev market size sym st :
  MINIMUM_TRADE_SIZE_USD <= size ->
  size <= available_balance st ->
  execute_open symbolPrecisions venue bot d lev market size sym st
  = submit_open symbolPrecisions venue bot d lev market size sym st.
Proof.
  intros H1 H2.
  assert (H0 : MINIMUM_TRADE_SIZE_USD <= available_balance st)
    by (eapply Qle_trans; eassumption).
  apply Qltb_ge in H0, H1, H2. unfold execute_open.
  erewrite bind_inl by reflexivity.
  fold (available_balance st). rewrite H0.
  erewrite bind_inl by (rewrite H2; reflexivity).
  rewrite H1. reflexivity.
Qed.

Lemma execute_open_recheck bot d lev market size sym st :
  MINIMUM_TRADE_SIZE_USD <= available_balance st ->
  size < MINIMUM_TRADE_SIZE_USD ->
  execute_open symbolPrecisions venue bot d lev market size sym st
  = push (RejectedAdjustedSize (d_action d) sym size) st.
Proof.
  intros H0 H1.
  assert (H2 : size <= available_balance st).
  { apply Qlt_le_weak. eapply Qlt_le_trans; eassumption. }
  apply Qltb_ge in H0, H2. apply Qltb_lt in H1. unfold execute_open.
  erewrite bind_inl by reflexivity.
  fold (available_balance st). rewrite H0.
  erewrite bind_inl by (rewrite H2; reflexivity).
  rewrite H1. reflexivity.
Qed.

End LiveFacts.

(** *** What the live engine leaves alone

    The engine writes [updatedBotState] only through [set_cooldown]: every
    field that [set_symbolCooldowns] keeps is a frame of it. *)

Section Frame.

Variable symbolPrecisions : gmap string SymbolPrecisionInfo.
Variable Date_now : nat -> N.
Variable venue : list VenueCall -> VenueCall -> Settled.

Context {X : Type} (field : BotState -> X).
Hypothesis field_frame :
  forall c b, field (set_symbolCooldowns c b) = field b.

Lemma keeps_ret {A : Type} (a : A) : keeps field (mret a : Exec A).
Proof. intros st. reflexivity. Qed.

Lemma keeps_throw {A : Type} (e : JsError) : keeps field (@throw A e).
Proof. intros st. reflexivity. Qed.

Lemma keeps_bind {A B : Type} (m : Exec A) (f : A -> Exec B) :
  keeps field m -> (forall a, keeps field (f a)) ->
  keeps field (m ≫= f).
Proof.
  intros Hm Hf st. unfold mbind, Exec_bind.
  specialize (Hm st). destruct (m st) as [[a|e] st1]; simpl in *.
  - rewrite (Hf a st1). exact Hm.
  - exact Hm.
Qed.

Lemma keeps_push n : keeps field (push n).
Proof. intros st. reflexivity. Qed.

Lemma keeps_gets {A : Type} (f : ExecState -> A) : keeps field (gets f).
Proof. intros st. reflexivity. Qed.

Lemma keeps_now : keeps field (now Date_now).
Proof. intros st. reflexivity. Qed.

Lemma keeps_request c : keeps field (request venue c).
Proof. intros st. reflexivity. Qed.

Lemma keeps_set_cooldown sym t : keeps field (set_cooldown sym t).
Proof. intros st. simpl. apply field_frame. Qed.

Lemma keeps_await c : keeps field (await venue c).
Proof.
  unfold await. apply keeps_bind; [apply keeps_request|].
  intros [|e]; [apply keeps_ret|apply keeps_throw].
Qed.

Lemma keeps_allSettled cs : keeps field (allSettled venue cs).
Proof.
  induction cs as [|c cs IH]; simpl.
  - apply keeps_ret.
  - apply keeps_bind; [apply keeps_request|]. intros r.
    apply keeps_bind; [exact IH|]. intros rs. apply keeps_ret.
Qed.

Lemma keeps_for_of {A : Type} (xs : list A) (body : A -> Exec unit) :
  (forall x, keeps field (body x)) -> keeps field (for_of xs body).
Proof.
  intros Hb. induction xs as [|x xs IH]; simpl.
  - apply keeps_ret.
  - apply keeps_bind; [apply Hb|]. intros _. exact IH.
Qed.

Lemma keeps_try_catch body handler :
  keeps field body -> (forall e, keeps field (handler e)) ->
  keeps field (try_catch body handler).
Proof.
  intros Hb Hh st. unfold try_catch.
  specialize (Hb st). destruct (body st) as [[[]|e] st1]; simpl in *.
  - exact Hb.
  - rewrite (Hh e st1). exact Hb.
Qed.

Lemma keeps_submit_open bot d lev market size sym :
  keeps field
    (submit_open symbolPrecisions venue bot d lev market size sym).
Proof.
  unfold submit_open.
  apply keeps_bind; [apply keeps_await|]. intros _.
  destruct (Qle_bool _ 0); [apply keeps_push|].
  apply keeps_bind; [apply keeps_await|]. intros _.
  apply keeps_bind; [apply keeps_push|]. intros _.
  apply keeps_bind; [apply keeps_allSettled|]. intros rs.
  apply keeps_for_of. apply keeps_push.
Qed.

Lemma keeps_execute_open bot d lev market size sym :
  keeps field
    (execute_open symbolPrecisions venue bot d lev market size sym).
Proof.
  unfold execute_open.
  apply keeps_bind; [apply keeps_gets|]. intros b.
  destruct (Qltb b MINIMUM_TRADE_SIZE_USD); [apply keeps_push|].
  apply keeps_bind.
  - destruct (Qltb b size); [|apply keeps_ret].
    apply keeps_bind; [apply keeps_push|]. intros _. apply keeps_ret.
  - intros t. destruct (Qltb t MINIMUM_TRADE_SIZE_USD);
      [apply keeps_push|apply keeps_submit_open].
Qed.

Lemma keeps_execute_close bot id :
  keeps field
    (execute_close symbolPrecisions Date_now venue bot id).
Proof.
  unfold execute_close.
  destruct (find _ _) as [p|]; [|apply keeps_ret].
  destruct (Qltb 0 _); [|apply keeps_ret].
  apply keeps_bind; [apply keeps_await|]. intros _.
  apply keeps_bind; [apply keeps_now|]. intros t.
  apply keeps_bind; [apply keeps_set_cooldown|]. intros _.
  apply keeps_push.
Qed.

Lemma keeps_execute_body bot markets v :
  keeps field
    (execute_body symbolPrecisions Date_now venue bot markets v).
Proof.
  unfold execute_body.
  assert (Hclose :
    keeps field
      (match d_action (v_decision v),
             truthyS (d_closePositionId (v_decision v)) with
       | CLOSE, Some closePositionId =>
           execute_close symbolPrecisions Date_now venue bot
             closePositionId
       | _, _ => mret tt
       end)).
  { destruct (d_action (v_decision v)); try apply keeps_ret.
    destruct (truthyS _); [apply keeps_execute_close|apply keeps_ret]. }
  destruct (is_directional _); [|exact Hclose].
  destruct (find_market _ _); [|exact Hclose].
  destruct (truthyQ _); [|exact Hclose].
  destruct (truthyS (d_symbol _)); [|exact Hclose].
  apply keeps_execute_open.
Qed.

Lemma keeps_execute_catch d e : keeps field (execute_catch d e).
Proof.
  unfold execute_catch. destruct (truthyS _); [|apply keeps_push].
  destruct (includes _ _); apply keeps_push.
Qed.

Lemma keeps_execute_decision bot markets v :
  keeps field
    (execute_decision symbolPrecisions Date_now venue bot markets v).
Proof.
  apply keeps_try_catch; [apply keeps_execute_body|].
  intros e. apply keeps_execute_catch.
Qed.

(** No exception escapes the [try]/[catch] of a decision. *)
Lemma execute_catch_returns d e st :
  exists st', execute_catch d e st = (inl tt, st').
Proof.
  unfold execute_catch. destruct (truthyS _); [|eexists; reflexivity].
  destruct (includes _ _); eexists; reflexivity.
Qed.

Lemma execute_decision_returns bot markets v st :
  exists st',
    execute_decision symbolPrecisions Date_now venue bot markets v st
    = (inl tt, st').
Proof.
  unfold execute_decision, try_catch.
  destruct (execute_body _ _ _ _ _ _ st) as [[[]|e] st1].
  - eexists; reflexivity.
  - apply execute_catch_returns.
Qed.

Lemma execute_live_returns bot markets vs : forall st,
  exists st',
    execute_live symbolPrecisions Date_now venue bot markets vs st
    = (inl tt, st').
Proof.
  unfold execute_live. induction vs as [|v vs IH]; intros st; simpl.
  - eexists; reflexivity.
  - destruct (execute_decision_returns bot markets v st) as [st1 H1].
    erewrite bind_inl by exact H1. apply IH.
Qed.

Lemma execute_live_app bot markets pre post st :
  execute_live symbolPrecisions Date_now venue bot markets (pre ++ post) st
  = execute_live symbolPrecisions Date_now venue bot markets post
      (snd (execute_live symbolPrecisions Date_now venue bot markets
              pre st)).
Proof.
  revert st. unfold execute_live.
  induction pre as [|v pre IH]; intros st; simpl.
  - reflexivity.
  - destruct (execute_decision_returns bot markets v st) as [st1 H1].
    erewrite !bind_inl by exact H1. apply IH.
Qed.

End Frame.

Lemma keeps_append_log {X : Type} (f : BotState -> X) Date_now decisions
    prompt :
  (forall l b, f (set_botLogs l b) = f b) ->
  keeps f (append_log Date_now decisions prompt).
Proof.
  intros Hf. unfold append_log.
  apply keeps_bind; [apply keeps_now|]. intros t.
  apply keeps_bind; [apply keeps_gets|]. intros notes.
  intros st. simpl. apply Hf.
Qed.

(** C10. In the live branch of a turn, executing a validated decision (an
    open that succeeds included) returns normally and leaves the portfolio
    of [updatedBotState], hence its balance, as it was; so, whatever
    decisions come before it in the turn, a decision is executed in a state
    whose available balance is the one at the start of the turn, and the bot
    stored at the end of the turn still has the portfolio of the bot the
    turn started from. *)
Theorem live_turn_balance_unchanged
    (precs : gmap string SymbolPrecisionInfo) (lim : gmap string Q)
    (clock : nat -> N) (venue : list VenueCall -> VenueCall -> Settled)
    (bot : BotState) (mkts : list Market) :
  (forall v st,
     let r := execute_decision precs clock venue bot mkts v st in
     fst r = inl tt /\
     bot_portfolio (ex_updatedBotState (snd r))
     = bot_portfolio (ex_updatedBotState st) /\
     available_balance (snd r) = available_balance st) /\
  (forall pre v post st0,
     let before := snd (execute_live precs clock venue bot mkts pre st0) in
     execute_live precs clock venue bot mkts (pre ++ v :: post) st0
     = execute_live precs clock venue bot mkts post
         (snd (execute_decision precs clock venue bot mkts v before)) /\
     available_balance before = available_balance st0 /\
     (ex_updatedBotState st0 = bot ->
      available_balance before = pf_balance (bot_portfolio bot))) /\
  (forall prompt decisions k calls,
     bot_portfolio
       (bot_after_turn precs lim clock venue bot mkts prompt decisions k
          calls)
     = bot_portfolio bot).
Proof.
  split; [|split].
  - intros v st r. subst r.
    pose proof (keeps_execute_decision precs clock venue bot_portfolio
                  (fun _ _ => eq_refl) bot mkts v st) as Hk.
    destruct (execute_decision_returns precs clock venue bot mkts v st)
      as [st1 H1].
    rewrite H1 in *. simpl in *. split; [reflexivity|].
    split; [exact Hk|]. unfold available_balance. rewrite Hk. reflexivity.
  - intros pre v post st0 before. subst before.
    assert (Hb : available_balance
                   (snd (execute_live precs clock venue bot mkts pre st0))
                 = available_balance st0).
    { unfold available_balance, execute_live.
      rewrite (keeps_for_of bot_portfolio pre
                 (execute_decision precs clock venue bot mkts)
                 (keeps_execute_decision precs clock venue bot_portfolio
                    (fun _ _ => eq_refl) bot mkts) st0).
      reflexivity. }
    split; [|split; [exact Hb|]].
    + rewrite execute_live_app.
      set (st1 := snd (execute_live precs clock venue bot mkts pre st0)).
      unfold execute_live at 1. simpl.
      destruct (execute_decision_returns precs clock venue bot mkts v st1)
        as [st2 H2].
      erewrite bind_inl by exact H2. rewrite H2. reflexivity.
    + intros Hst. rewrite Hb. unfold available_balance. rewrite Hst.
      reflexivity.
  - intros prompt decisions k calls. unfold bot_after_turn, bot_turn.
    simpl.
    match goal with
    | |- bot_portfolio (ex_updatedBotState (snd (?m ?st))) = _ =>
        assert (Hk : keeps bot_portfolio m)
    end.
    { apply keeps_bind.
      - destruct (bot_tradingMode bot); [apply keeps_ret|].
        apply keeps_for_of. intros v.
        apply keeps_execute_decision. reflexivity.
      - intros _. apply keeps_append_log. reflexivity. }
    rewrite Hk. reflexivity.
Qed.

(** Two LONGs of $80 in one turn of an agent whose balance is $100: both
    market orders are sent, the second is checked against $100 again. *)
Lemma live_turn_balance_unchanged_witness :
  let bot := Sample.agent real 100 [] ∅ in
  let v := {| v_decision := Sample.open_long (Some 80) (Some 1);
              v_adjustedLeverage := 1 |} in
  let st := snd (execute_live ∅ (Sample.clock_at 0) Sample.venue_ok bot
                   (Sample.btc_at 10) [v; v] (Sample.init_state bot)) in
  ex_notes st = [OpenedPosition LONG Sample.btc;
                 OpenedPosition LONG Sample.btc] /\
  length (ex_calls st) = 4%nat /\
  available_balance st = 100.
Proof.
  cbv zeta. split; [vm_compute; reflexivity|].
  split; [vm_compute; reflexivity|].
  destruct (live_turn_balance_unchanged ∅ ∅ (Sample.clock_at 0)
              Sample.venue_ok (Sample.agent real 100 [] ∅)
              (Sample.btc_at 10)) as (_ & H & _).
  destruct (H [{| v_decision := Sample.open_long (Some 80) (Some 1);
                  v_adjustedLeverage := 1 |};
               {| v_decision := Sample.open_long (Some 80) (Some 1);
                  v_adjustedLeverage := 1 |}]
              {| v_decision := Sample.open_long (Some 80) (Some 1);
                 v_adjustedLeverage := 1 |} []
              (Sample.init_state (Sample.agent real 100 [] ∅)))
    as (_ & Hb & _).
  exact Hb.
Defined.

(** *** What a run of the live engine adds to the notes and the requests *)

Section Runs.

Variable symbolPrecisions : gmap string SymbolPrecisionInfo.
Variable Date_now : nat -> N.
Variable venue : list VenueCall -> VenueCall -> Settled.

Lemma ex_extend_nil st : ex_extend [] [] st = st.
Proof.
  destruct st. unfold ex_extend. simpl. rewrite !app_nil_r. reflexivity.
Qed.

Lemma ex_extend_extend n1 c1 n2 c2 st :
  ex_extend n2 c2 (ex_extend n1 c1 st) = ex_extend (n1 ++ n2) (c1 ++ c2) st.
Proof. unfold ex_extend. simpl. rewrite !app_assoc. reflexivity. Qed.

Lemma push_run n st : push n st = (inl tt, ex_extend [n] [] st).
Proof. unfold push, ex_extend. rewrite app_nil_r. reflexivity. Qed.

Lemma request_run c st :
  request venue c st = (inl (venue (ex_calls st) c), ex_extend [] [c] st).
Proof. unfold request, ex_extend. rewrite app_nil_r. reflexivity. Qed.

Lemma await_resolved c st :
  venue (ex_calls st) c = Resolved ->
  await venue c st = (inl tt, ex_extend [] [c] st).
Proof.
  intros H. unfold await. erewrite bind_inl by apply request_run.
  rewrite H. reflexivity.
Qed.

Lemma await_failed c st e :
  venue (ex_calls st) c = Failed e ->
  await venue c st = (inr e, ex_extend [] [c] st).
Proof.
  intros H. unfold await. erewrite bind_inl by apply request_run.
  rewrite H. reflexivity.
Qed.

Lemma for_of_push_run ns : forall st,
  for_of ns push st = (inl tt, ex_extend ns [] st).
Proof.
  induction ns as [|n ns IH]; intros st; simpl.
  - rewrite ex_extend_nil. reflexivity.
  - erewrite bind_inl by apply push_run. rewrite IH, ex_extend_extend.
    reflexivity.
Qed.

Lemma allSettled_run cs : forall st,
  exists rs, allSettled venue cs st = (inl rs, ex_extend [] cs st) /\
             length rs = length cs.
Proof.
  induction cs as [|c cs IH]; intros st; simpl.
  - exists []. rewrite ex_extend_nil. split; reflexivity.
  - destruct (IH (ex_extend [] [c] st)) as (rs & Hrs & Hlen).
    exists (venue (ex_calls st) c :: rs). split.
    + erewrite bind_inl by apply request_run.
      erewrite bind_inl by exact Hrs.
      rewrite ex_extend_extend. reflexivity.
    + simpl. rewrite Hlen. reflexivity.
Qed.

(** When the venue accepts the leverage and the market order, the open
    goes through: both requests and the protective ones are sent, and the
    success note is pushed, followed by one note per protective order. *)
Lemma submit_open_success bot d lev market tradeSize sym st :
  let quantity :=
    getAdjustedQuantity symbolPrecisions sym
      (tradeSize * lev / m_price market) in
  let lever := SetLeverage sym lev (bot_id bot) in
  let order :=
    open_order symbolPrecisions bot d lev market tradeSize sym in
  0 < quantity ->
  venue (ex_calls st) lever = Resolved ->
  venue (ex_calls st ++ [lever]) order = Resolved ->
  exists legs,
    submit_open symbolPrecisions venue bot d lev market tradeSize sym st
    = (inl tt,
       ex_extend (OpenedPosition (d_action d) sym :: legs)
         (lever :: order :: slTp_calls (bot_id bot) d sym quantity) st) /\
    length legs = length (slTp_calls (bot_id bot) d sym quantity).
Proof.
  intros quantity lever order Hq Hl Ho. unfold submit_open.
  erewrite bind_inl by (apply await_resolved; exact Hl).
  fold quantity.
  assert (Hq' : Qle_bool quantity 0 = false).
  { destruct (Qle_bool quantity 0) eqn:E; [|reflexivity].
    apply Qle_bool_iff in E. exfalso. exact (Qlt_not_le _ _ Hq E). }
  rewrite Hq'.
  erewrite bind_inl by (apply await_resolved; exact Ho).
  erewrite bind_inl by apply push_run.
  rewrite !ex_extend_extend. simpl.
  destruct (allSettled_run (slTp_calls (bot_id bot) d sym quantity)
              (ex_extend [OpenedPosition (d_action d) sym] [lever; order]
                 st)) as (rs & Hrs & Hlen).
  erewrite bind_inl by exact Hrs.
  rewrite for_of_push_run, !ex_extend_extend. simpl.
  rewrite app_nil_r.
  exists (imap (slTp_note d sym) rs). split; [reflexivity|].
  rewrite length_imap. exact Hlen.
Qed.

End Runs.

Lemma execute_body_open precs clock venue bot mkts v market size sym :
  is_directional (d_action (v_decision v)) = true ->
  find_market mkts (d_symbol (v_decision v)) = Some market ->
  d_size (v_decision v) = Some size -> ~ size == 0 ->
  d_symbol (v_decision v) = Some sym -> sym <> EmptyString ->
  execute_body precs clock venue bot mkts v
  = execute_open precs venue bot (v_decision v) (v_adjustedLeverage v)
      market size sym.
Proof.
  intros Hdir Hm Hs Hnz Hsym Hne. unfold execute_body.
  rewrite Hdir, Hm.
  replace (truthyQ (d_size (v_decision v))) with (Some size)
    by (symmetry; apply truthyQ_Some; split; assumption).
  replace (truthyS (d_symbol (v_decision v))) with (Some sym)
    by (symmetry; apply truthyS_Some; split; assumption).
  reflexivity.
Qed.

(** C1. A live LONG or SHORT that enters the open branch (its symbol is
    quoted, its size is given) is sized in stages against the available
    balance [B]: (a) when [B] is below $50 the decision is rejected with the
    balance note alone, nothing is adjusted and no request is sent;
    (b) when [B] is at least $50 and the proposed size exceeds it, the
    adjustment note is pushed and the order proceeds with size [B], which
    passes the final check: the engine goes on as it does for an order of
    size [B], and when the venue accepts the leverage and the market order,
    the market order for [B] is sent and the success note follows the
    adjustment note; (c) the final check rejects, with its own note and
    without any request, a size that is below $50 after stage 2. *)
Theorem live_open_staged_sizing
    (precs : gmap string SymbolPrecisionInfo) (clock : nat -> N)
    (venue : list VenueCall -> VenueCall -> Settled)
    (bot : BotState) (mkts : list Market) (v : Validated)
    (market : Market) (size : Q) (sym : string) (st : ExecState) :
  let d := v_decision v in
  let lev := v_adjustedLeverage v in
  let B := available_balance st in
  let run := execute_decision precs clock venue bot mkts v in
  is_directional (d_action d) = true ->
  find_market mkts (d_symbol d) = Some market ->
  d_size d = Some size -> ~ size == 0 ->
  d_symbol d = Some sym -> sym <> EmptyString ->
  (B < MINIMUM_TRADE_SIZE_USD ->
   run st
   = (inl tt, ex_extend [RejectedBalance (d_action d) sym B] [] st)) /\
  (MINIMUM_TRADE_SIZE_USD <= B -> B < size ->
   let st1 := ex_extend [TradeSizeAdjusted sym size B] [] st in
   let lever := SetLeverage sym lev (bot_id bot) in
   let order := open_order precs bot d lev market B sym in
   let quantity :=
     getAdjustedQuantity precs sym (B * lev / m_price market) in
   run st
   = try_catch (submit_open precs venue bot d lev market B sym)
       (execute_catch d) st1 /\
   (0 < quantity ->
    venue (ex_calls st) lever = Resolved ->
    venue (ex_calls st ++ [lever]) order = Resolved ->
    exists legs,
      run st
      = (inl tt,
         ex_extend
           (TradeSizeAdjusted sym size B :: OpenedPosition (d_action d) sym
            :: legs)
           (lever :: order :: slTp_calls (bot_id bot) d sym quantity)
           st))) /\
  (MINIMUM_TRADE_SIZE_USD <= B -> size < MINIMUM_TRADE_SIZE_USD ->
   run st
   = (inl tt, ex_extend [RejectedAdjustedSize (d_action d) sym size] [] st)).
Proof.
  intros d lev B run Hdir Hm Hs Hnz Hsym Hne.
  assert (Hbody : execute_body precs clock venue bot mkts v
                  = execute_open precs venue bot d lev market size sym)
    by (apply execute_body_open; assumption).
  assert (Hrun : forall body' st',
            execute_open precs venue bot d lev market size sym st
            = body' st' ->
            run st = try_catch body' (execute_catch d) st').
  { intros body' st' E. subst run. unfold execute_decision, try_catch.
    rewrite Hbody. fold d. rewrite E. reflexivity. }
  split; [|split].
  - intros HB.
    rewrite (Hrun (push (RejectedBalance (d_action d) sym B)) st)
      by (apply execute_open_low_balance; exact HB).
    unfold try_catch. rewrite push_run. reflexivity.
  - intros HB Hgt st1 lever order quantity.
    assert (E : run st
                = try_catch (submit_open precs venue bot d lev market B sym)
                    (execute_catch d) st1).
    { apply Hrun. rewrite execute_open_clamp by assumption.
      rewrite push_run. reflexivity. }
    split; [exact E|].
    intros Hq Hl Ho.
    destruct (submit_open_success precs venue bot d lev market B sym st1)
      as (legs & Hsub & _).
    + exact Hq.
    + simpl. rewrite app_nil_r. exact Hl.
    + simpl. rewrite app_nil_r. exact Ho.
    + exists legs. rewrite E. unfold try_catch. rewrite Hsub.
      subst st1. rewrite ex_extend_extend. reflexivity.
  - intros HB Hlt.
    rewrite (Hrun (push (RejectedAdjustedSize (d_action d) sym size)) st)
      by (apply execute_open_recheck; assumption).
    unfold try_catch. rewrite push_run. reflexivity.
Qed.

(** Scenarios A and B: with a minimum of $50 and a proposed size of $100,
    a balance of $30 rejects the order without any adjustment, and a
    balance of $80 clamps the size to $80, notes the adjustment and sends
    the market order for $80 at leverage 2 and price 10 (16 units). *)
Lemma live_open_staged_sizing_witness :
  let v := {| v_decision := Sample.open_long (Some 100) (Some 2);
              v_adjustedLeverage := 2 |} in
  let run balance :=
    snd (execute_decision ∅ (Sample.clock_at 0) Sample.venue_ok
           (Sample.agent real balance [] ∅) (Sample.btc_at 10) v
           (Sample.init_state (Sample.agent real balance [] ∅))) in
  (ex_notes (run 30) = [RejectedBalance LONG Sample.btc 30] /\
   ex_calls (run 30) = []) /\
  (ex_notes (run 80) = [TradeSizeAdjusted Sample.btc 100 80;
                        OpenedPosition LONG Sample.btc] /\
   exists q,
     ex_calls (run 80)
     = [SetLeverage Sample.btc 2 "bot_degen";
        PlaceRealOrder
          {| o_symbol := Sample.btc; o_side := BUY; o_type := MARKET;
             o_quantity := q; o_stopPrice := None;
             o_reduceOnly := false |} "bot_degen"] /\
     q == 16).
Proof.
  cbv zeta. split.
  - destruct (live_open_staged_sizing ∅ (Sample.clock_at 0) Sample.venue_ok
                (Sample.agent real 30 [] ∅) (Sample.btc_at 10)
                {| v_decision := Sample.open_long (Some 100) (Some 2);
                   v_adjustedLeverage := 2 |}
                {| m_symbol := Sample.btc; m_price := 10 |} 100 Sample.btc
                (Sample.init_state (Sample.agent real 30 [] ∅)))
      as (Ha & _ & _);
      [reflexivity|reflexivity|reflexivity|discriminate|reflexivity
      |discriminate|].
    rewrite Ha by reflexivity. split; reflexivity.
  - destruct (live_open_staged_sizing ∅ (Sample.clock_at 0) Sample.venue_ok
                (Sample.agent real 80 [] ∅) (Sample.btc_at 10)
                {| v_decision := Sample.open_long (Some 100) (Some 2);
                   v_adjustedLeverage := 2 |}
                {| m_symbol := Sample.btc; m_price := 10 |} 100 Sample.btc
                (Sample.init_state (Sample.agent real 80 [] ∅)))
      as (_ & Hb & _);
      [reflexivity|reflexivity|reflexivity|discriminate|reflexivity
      |discriminate|].
    destruct Hb as [_ Hb]; [discriminate|reflexivity|].
    destruct Hb as (legs & Hrun); [reflexivity|reflexivity|reflexivity|].
    split; [vm_compute; reflexivity|].
    eexists. split; [vm_compute; reflexivity|]. reflexivity.
Defined.

(** *** Closing *)

Lemma execute_body_close precs clock venue bot mkts v id :
  d_action (v_decision v) = CLOSE ->
  d_closePositionId (v_decision v) = Some id -> id <> EmptyString ->
  execute_body precs clock venue bot mkts v
  = execute_close precs clock venue bot id.
Proof.
  intros Ha Hid Hne. unfold execute_body. rewrite Ha. simpl.
  replace (truthyS (d_closePositionId (v_decision v))) with (Some id)
    by (symmetry; apply truthyS_Some; split; assumption).
  reflexivity.
Qed.

(** C5 (as stated, it fails): a CLOSE of an id that no position of the agent
    has leaves the execution state as it was, but it pushes no note at all,
    and the log of the turn holds no note; a reduce-only rejection by the
    venue is not treated identically, since that one does push a note. *)
Lemma close_missing_position_records_no_note :
  let bot := Sample.agent real 1000 [] ∅ in
  let d := Sample.close "pos_404" in
  let v := {| v_decision := d; v_adjustedLeverage := 1 |} in
  let st := Sample.init_state bot in
  let held := Sample.agent real 1000 [Sample.btc_long "pos_1"] ∅ in
  let v1 := {| v_decision := Sample.close "pos_1";
               v_adjustedLeverage := 1 |} in
  find_position bot "pos_404" = None /\
  ex_notes (snd (execute_decision ∅ (Sample.clock_at 0) Sample.venue_ok
                   bot [] v st)) = [] /\
  log_notes <$> head (bot_botLogs
                        (bot_after_turn ∅ ∅ (Sample.clock_at 0)
                           Sample.venue_ok bot [] "" [d] 0 []))
  = Some [] /\
  ex_notes (snd (execute_decision ∅ (Sample.clock_at 0) Sample.venue_gone
                   held [] v1 (Sample.init_state held)))
  = [PositionGone (Some "pos_1")].
Proof.
  cbv zeta. repeat split; vm_compute; reflexivity.
Qed.

(** C5 (amended). A CLOSE whose target id resolves to no position of the
    agent is a silent no-op: the decision returns normally and leaves the
    notes, the agent state, the clock and the requests exactly as they were
    (no note is recorded). When the position is held locally but the venue
    rejects the reduce-only order as already gone, the decision also returns
    normally and leaves the agent state as it was (no cooldown is started),
    and there the benign note "position no longer exists on exchange" is
    recorded. *)
Theorem close_missing_position_is_noop
    (precs : gmap string SymbolPrecisionInfo) (clock : nat -> N)
    (venue : list VenueCall -> VenueCall -> Settled)
    (bot : BotState) (mkts : list Market) (v : Validated) (id : string)
    (st : ExecState) :
  d_action (v_decision v) = CLOSE ->
  d_closePositionId (v_decision v) = Some id -> id <> EmptyString ->
  let run := execute_decision precs clock venue bot mkts v in
  (find_position bot id = None -> run st = (inl tt, st)) /\
  (forall pos message,
     find_position bot id = Some pos ->
     0 < close_quantity precs pos ->
     venue (ex_calls st) (close_order precs bot pos)
     = Failed {| err_message := Some message |} ->
     includes message "ReduceOnly Order is rejected" = true ->
     run st
     = (inl tt,
        ex_extend [PositionGone (Some id)] [close_order precs bot pos] st)).
Proof.
  intros Ha Hid Hne run. subst run.
  unfold execute_decision, try_catch.
  rewrite (execute_body_close precs clock venue bot mkts v id Ha Hid Hne).
  unfold execute_close. fold (find_position bot id).
  split.
  - intros Hnone. rewrite Hnone. reflexivity.
  - intros pos message Hsome Hq Hv Hinc. rewrite Hsome.
    apply Qltb_lt in Hq. unfold close_quantity in Hq. rewrite Hq.
    erewrite bind_inr by (apply await_failed; exact Hv).
    unfold execute_catch.
    change (err_message {| err_message := Some message |})
      with (Some message).
    assert (Hm : truthyS (Some message) = Some message).
    { apply truthyS_Some. split; [reflexivity|]. intros ->.
      discriminate Hinc. }
    rewrite Hm, Hinc, push_run, ex_extend_extend, Hid. reflexivity.
Qed.

Lemma close_missing_position_is_noop_witness :
  let bot := Sample.agent real 1000 [] ∅ in
  let v := {| v_decision := Sample.close "pos_404";
              v_adjustedLeverage := 1 |} in
  execute_decision ∅ (Sample.clock_at 0) Sample.venue_ok bot [] v
    (Sample.init_state bot)
  = (inl tt, Sample.init_state bot).
Proof.
  cbv zeta.
  destruct (close_missing_position_is_noop ∅ (Sample.clock_at 0)
              Sample.venue_ok (Sample.agent real 1000 [] ∅) []
              {| v_decision := Sample.close "pos_404";
                 v_adjustedLeverage := 1 |} "pos_404"
              (Sample.init_state (Sample.agent real 1000 [] ∅)))
    as [H _]; [reflexivity|reflexivity|discriminate|].
  apply H. reflexivity.
Defined.

(** ** Reconciliation of a paper agent *)

Lemma paper_fold_positions md ps : forall acc,
  acc_updatedPositions (fold_left (paper_position md) ps acc)
  = acc_updatedPositions acc
    ++ ((fun pos => set_pnl (position_pnl md pos) pos) <$> ps).
Proof.
  induction ps as [|p ps IH]; intros acc; simpl.
  - rewrite app_nil_r. reflexivity.
  - rewrite IH. simpl. rewrite <- app_assoc. reflexivity.
Qed.

Lemma paper_fold_pnl md ps : forall acc,
  acc_unrealizedPnl (fold_left (paper_position md) ps acc)
  == acc_unrealizedPnl acc + Qsum (position_pnl md <$> ps).
Proof.
  induction ps as [|p ps IH]; intros acc.
  - cbn [fold_left fmap list_fmap Qsum fold_right]. ring.
  - cbn [fold_left fmap list_fmap Qsum fold_right]. rewrite IH.
    unfold paper_position. cbn [acc_unrealizedPnl]. unfold Qsum. ring.
Qed.

Lemma paper_fold_margin md ps : forall acc,
  acc_totalMarginUsed (fold_left (paper_position md) ps acc)
  == acc_totalMarginUsed acc + Qsum (pos_size <$> ps).
Proof.
  induction ps as [|p ps IH]; intros acc.
  - cbn [fold_left fmap list_fmap Qsum fold_right]. ring.
  - cbn [fold_left fmap list_fmap Qsum fold_right]. rewrite IH.
    unfold paper_position. cbn [acc_totalMarginUsed]. unfold Qsum. ring.
Qed.

Lemma paper_positions md pf :
  pf_positions (paper_portfolio md pf)
  = (fun pos => set_pnl (position_pnl md pos) pos) <$> pf_positions pf.
Proof. unfold paper_portfolio. simpl. apply paper_fold_positions. Qed.

Lemma paper_positions_pnl md pf :
  pos_pnl <$> pf_positions (paper_portfolio md pf)
  = position_pnl md <$> pf_positions pf.
Proof.
  rewrite paper_positions, <- list_fmap_compose. reflexivity.
Qed.

Lemma refresh_bot_paper LIVE t bot :
  bot_tradingMode bot = paper ->
  exists bot',
    (forall r, refresh_bot LIVE t r bot = (Some bot', r)) /\
    bot_portfolio bot' = paper_portfolio (tick_marketData t)
                           (bot_portfolio bot) /\
    bot_valueHistory bot'
    = slice_last 300
        (bot_valueHistory bot
         ++ [{| vh_timestamp := tick_now t (bot_id bot);
                vh_value := pf_totalValue (bot_portfolio bot') |}]) /\
    bot_botLogs bot' = bot_botLogs bot.
Proof.
  intros Hmode. unfold refresh_bot. rewrite Hmode.
  eexists. split; [intros r; reflexivity|].
  split; [reflexivity|]. split; reflexivity.
Qed.

Lemma refresh_all_lookup LIVE t bs : forall ref l ref' i b,
  refresh_all LIVE t ref bs = (Some l, ref') ->
  bs !! i = Some b ->
  exists r b', fst (refresh_bot LIVE t r b) = Some b' /\ l !! i = Some b'.
Proof.
  induction bs as [|b0 bs IH]; intros ref l ref' i b Hall Hi.
  - rewrite lookup_nil in Hi. discriminate.
  - simpl in Hall.
    destruct (refresh_bot LIVE t ref b0) as [r0 ref1] eqn:E0.
    destruct (refresh_all LIVE t ref1 bs) as [rs ref2] eqn:E1.
    destruct r0 as [b0'|]; [|discriminate].
    destruct rs as [l'|]; [|discriminate].
    injection Hall as <- <-.
    destruct i as [|i]; simpl in Hi.
    + injection Hi as ->. exists ref, b0'. rewrite E0. split; reflexivity.
    + destruct (IH ref1 l' ref2 i b E1 Hi) as (r & b' & H1 & H2).
      exists r, b'. split; [exact H1|exact H2].
Qed.

(** C7 (as stated, it fails): a refresh tick whose market snapshot is empty
    returns before any agent is refreshed. The paper agent below got a PnL
    of 10 on its position at a quote of 110; on the next tick the snapshot
    quotes nothing, and the agent is left as it was: the position still
    contributes 10, not zero, and no point is added to the value
    history. *)
Lemma empty_snapshot_refreshes_nothing :
  let bot := Sample.agent paper 1000 [Sample.btc_long "pos_1"] ∅ in
  let tick md :=
    {| tick_marketData := md;
       tick_getRealAccountState := fun _ => None;
       tick_getRealTradeHistory := fun _ => None;
       tick_now := fun _ => 5000%N |} in
  let a0 := {| bots := [bot]; markets := []; initialBalanceRef := ∅ |} in
  let a1 := updatePortfolios 950 (tick (Sample.btc_at 110)) a0 in
  let a2 := updatePortfolios 950 (tick []) a1 in
  a2 = a1 /\
  exists b pos,
    bots a2 = [b] /\ pf_positions (bot_portfolio b) = [pos] /\
    quote [] pos = None /\ pos_pnl pos == 10 /\ ~ pos_pnl pos == 0 /\
    pf_totalValue (bot_portfolio b) == 1060 /\
    length (bot_valueHistory b) = 2%nat.
Proof.
  cbv zeta. split; [reflexivity|].
  eexists. eexists. split; [vm_compute; reflexivity|].
  split; [reflexivity|]. split; [reflexivity|].
  split; [reflexivity|]. split; [discriminate|].
  split; reflexivity.
Qed.

(** C7 (amended). The refresh callback of a paper agent always succeeds and
    recomputes its portfolio from the market snapshot of the tick: the
    balance and the positions are kept, except that the unrealized PnL of
    each position becomes (currentPrice - entryPrice) x (size x leverage /
    entryPrice) x (+1 long, -1 short) at the price quoted for its symbol,
    and zero when the snapshot does not quote its symbol; the PnL of the
    portfolio is the sum of these, and its total value is balance + sum of
    the position sizes + sum of the unrealized PnL. On a tick whose market
    snapshot is not empty and on which every venue read succeeds, this
    refreshed agent is the one [updatePortfolios] stores. *)
Theorem paper_refresh_recomputes
    (LIVE : Q) (t : Tick) (ref : gmap string Q) (bot : BotState) :
  bot_tradingMode bot = paper ->
  let md := tick_marketData t in
  let pf := bot_portfolio bot in
  exists bot',
    refresh_bot LIVE t ref bot = (Some bot', ref) /\
    let pf' := bot_portfolio bot' in
    pf_balance pf' = pf_balance pf /\
    length (pf_positions pf') = length (pf_positions pf) /\
    (forall i pos,
       pf_positions pf !! i = Some pos ->
       exists pos',
         pf_positions pf' !! i = Some pos' /\
         pos' = set_pnl (pos_pnl pos') pos /\
         (forall m, quote md pos = Some m ->
                    pos_pnl pos' = unrealized_pnl_formula (m_price m) pos) /\
         (quote md pos = None -> pos_pnl pos' == 0)) /\
    pf_pnl pf' == Qsum (pos_pnl <$> pf_positions pf') /\
    pf_totalValue pf'
    == pf_balance pf + Qsum (pos_size <$> pf_positions pf)
       + Qsum (pos_pnl <$> pf_positions pf') /\
    (forall a i,
       tick_marketData t <> [] ->
       bots a !! i = Some bot ->
       is_Some (fst (refresh_all LIVE t (initialBalanceRef a) (bots a))) ->
       bots (updatePortfolios LIVE t a) !! i = Some bot').
Proof.
  intros Hmode md pf.
  destruct (refresh_bot_paper LIVE t bot Hmode)
    as (bot' & Hrun & Hpf & _ & _).
  exists bot'. split; [apply Hrun|]. cbv zeta. rewrite Hpf.
  fold md pf. split; [reflexivity|]. split.
  { rewrite paper_positions, length_fmap. reflexivity. }
  split.
  { intros i pos Hi. exists (set_pnl (position_pnl md pos) pos).
    split; [|split; [reflexivity|split]].
    - rewrite paper_positions, list_lookup_fmap, Hi. reflexivity.
    - intros m Hm. simpl. unfold position_pnl, current_price.
      fold (quote md pos). rewrite Hm. reflexivity.
    - intros Hnone. simpl. unfold position_pnl, current_price.
      fold (quote md pos). rewrite Hnone. ring. }
  split.
  { rewrite paper_positions_pnl. unfold paper_portfolio. simpl.
    rewrite paper_fold_pnl. simpl. ring. }
  split.
  { rewrite paper_positions_pnl. unfold paper_portfolio. simpl.
    rewrite paper_fold_pnl, paper_fold_margin. simpl. ring. }
  intros a i Hmd Hi [l Hl]. unfold updatePortfolios.
  destruct (tick_marketData t) as [|m0 md0] eqn:Emd; [contradiction|].
  destruct (refresh_all LIVE t (initialBalanceRef a) (bots a))
    as [o ref'] eqn:Eall.
  simpl in Hl. subst o. simpl.
  destruct (refresh_all_lookup LIVE t (bots a) _ _ _ i bot Eall Hi)
    as (r & b' & H1 & H2).
  rewrite Hrun in H1. simpl in H1. injection H1 as <-. exact H2.
Qed.

(** A paper agent holding a LONG of $50 at leverage 2 entered at 100: at a
    quote of 110 its PnL is 10 and its total value 1000 + 50 + 10. *)
Lemma paper_refresh_recomputes_witness :
  let bot := Sample.agent paper 1000 [Sample.btc_long "pos_1"] ∅ in
  let t := {| tick_marketData := Sample.btc_at 110;
              tick_getRealAccountState := fun _ => None;
              tick_getRealTradeHistory := fun _ => None;
              tick_now := fun _ => 5000%N |} in
  exists bot',
    refresh_bot 950 t ∅ bot = (Some bot', ∅) /\
    pf_pnl (bot_portfolio bot') == 10 /\
    pf_totalValue (bot_portfolio bot') == 1060.
Proof.
  cbv zeta.
  destruct (paper_refresh_recomputes 950
              {| tick_marketData := Sample.btc_at 110;
                 tick_getRealAccountState := fun _ => None;
                 tick_getRealTradeHistory := fun _ => None;
                 tick_now := fun _ => 5000%N |} ∅
              (Sample.agent paper 1000 [Sample.btc_long "pos_1"] ∅))
    as (bot' & Hrun & _); [reflexivity|].
  exists bot'. split; [exact Hrun|].
  vm_compute in Hrun. injection Hrun as <-. split; reflexivity.
Defined.

(** ** The nominal initial balance of a live agent *)

Lemma refresh_bot_keeps_entry LIVE t ref bot id v :
  ref !! id = Some v -> snd (refresh_bot LIVE t ref bot) !! id = Some v.
Proof.
  intros Hv. unfold refresh_bot.
  destruct (bot_tradingMode bot); [exact Hv|].
  destruct (tick_getRealAccountState t (bot_id bot)); [|exact Hv].
  destruct (tick_getRealTradeHistory t (bot_id bot)); [|exact Hv].
  simpl. destruct (ref !! bot_id bot) eqn:E; [exact Hv|].
  destruct (decide (bot_id bot = id)) as [Heq|Hne].
  - rewrite Heq in E. congruence.
  - rewrite lookup_insert_ne by exact Hne. exact Hv.
Qed.

Lemma refresh_all_keeps_entry LIVE t bs id v : forall ref,
  ref !! id = Some v -> snd (refresh_all LIVE t ref bs) !! id = Some v.
Proof.
  induction bs as [|b bs IH]; intros ref Hv; simpl.
  - exact Hv.
  - pose proof (refresh_bot_keeps_entry LIVE t ref b id v Hv) as H1.
    destruct (refresh_bot LIVE t ref b) as [r ref1]. simpl in H1.
    specialize (IH ref1 H1).
    destruct (refresh_all LIVE t ref1 bs) as [rs ref2]. exact IH.
Qed.

Lemma updatePortfolios_keeps_entry LIVE t a id v :
  initialBalanceRef a !! id = Some v ->
  initialBalanceRef (updatePortfolios LIVE t a) !! id = Some v.
Proof.
  intros Hv. unfold updatePortfolios.
  destruct (tick_marketData t); [exact Hv|].
  pose proof (refresh_all_keeps_entry LIVE t (bots a) id v _ Hv) as H.
  destruct (refresh_all LIVE t (initialBalanceRef a) (bots a)) as [o ref'].
  destruct o; exact H.
Qed.

(** C8 (as stated, it fails): the initial sync of a live agent that gets no
    answer from the venue (the race is lost or the read throws) leaves the
    agent as it was and still records the nominal initial balance, so the
    figure is on record before any sync with the venue has succeeded. *)
Lemma initial_balance_recorded_without_sync :
  let bot := Sample.agent real 950 [] ∅ in
  let r := initial_sync_bot 10000 950 None 0 ∅ bot in
  fst r = bot /\ snd r !! bot_id bot = Some 950.
Proof. cbv zeta. split; reflexivity. Qed.

(** C8 (amended). The nominal initial balance of a live agent is recorded
    by its initial sync at engine start, whether or not that sync succeeds;
    a refresh sync records it only when the agent has none on record and
    both venue reads succeed, and records nothing when a read fails; once a
    figure is on record, no run of refresh ticks changes it, whatever the
    venue and the market feed answer. *)
Theorem initial_balance_never_overwritten
    (PAPER LIVE : Q) (bot : BotState) :
  bot_tradingMode bot = real ->
  (forall sync now ref,
     snd (initial_sync_bot PAPER LIVE sync now ref bot) !! bot_id bot
     = Some LIVE) /\
  (forall t ref pf orders,
     tick_getRealAccountState t (bot_id bot) = Some pf ->
     tick_getRealTradeHistory t (bot_id bot) = Some orders ->
     ref !! bot_id bot = None ->
     snd (refresh_bot LIVE t ref bot) !! bot_id bot = Some LIVE) /\
  (forall t ref,
     tick_getRealAccountState t (bot_id bot) = None \/
     tick_getRealTradeHistory t (bot_id bot) = None ->
     refresh_bot LIVE t ref bot = (None, ref)) /\
  (forall a v ticks,
     initialBalanceRef a !! bot_id bot = Some v ->
     initialBalanceRef (refresh_ticks LIVE ticks a) !! bot_id bot = Some v).
Proof.
  intros Hmode. split; [|split; [|split]].
  - intros sync now ref. unfold initial_sync_bot. rewrite Hmode.
    destruct sync as [[realPortfolio realOrders]|]; simpl;
      apply lookup_insert_eq.
  - intros t ref pf orders Ha Hh Hnone. unfold refresh_bot.
    rewrite Hmode, Ha, Hh. simpl. rewrite Hnone. apply lookup_insert_eq.
  - intros t ref [Ha|Hh]; unfold refresh_bot; rewrite Hmode.
    + rewrite Ha. reflexivity.
    + rewrite Hh. destruct (tick_getRealAccountState t (bot_id bot));
        reflexivity.
  - intros a v ticks. revert a. unfold refresh_ticks.
    induction ticks as [|t ticks IH]; intros a Hv; simpl.
    + exact Hv.
    + apply IH. apply updatePortfolios_keeps_entry. exact Hv.
Qed.

(** A live agent recorded at 950 at start: two refresh ticks on which the
    venue reports a balance of 700 leave the figure at 950. *)
Lemma initial_balance_never_overwritten_witness :
  let bot := Sample.agent real 950 [] ∅ in
  let t := {| tick_marketData := Sample.btc_at 110;
              tick_getRealAccountState :=
                fun _ => Some (Sample.portfolio 700 []);
              tick_getRealTradeHistory := fun _ => Some [];
              tick_now := fun _ => 5000%N |} in
  let a := {| bots := [bot]; markets := [];
              initialBalanceRef :=
                snd (initial_sync_bot 10000 950 None 0 ∅ bot) |} in
  let a' := refresh_ticks 950 [t; t] a in
  initialBalanceRef a' !! bot_id bot = Some 950 /\
  (pf_balance <$> (bot_portfolio <$> head (bots a'))) = Some 700.
Proof.
  cbv zeta. split; [|vm_compute; reflexivity].
  destruct (initial_balance_never_overwritten 10000 950
              (Sample.agent real 950 [] ∅)) as (H1 & _ & _ & H4);
    [reflexivity|].
  apply H4. apply H1.
Defined.

(** ** Turn log and value history: one turn, one refresh *)


Lemma slice_last_short {A : Type} (n : nat) (xs : list A) :
  (length xs <= n)%nat -> slice_last n xs = xs.
Proof.
  intros H. unfold slice_last.
  replace (length xs - n)%nat with 0%nat by lia. reflexivity.
Qed.

Lemma bot_after_turn_logs precs lim clock venue bot mkts prompt decisions k
    calls :
  exists newLog,
    bot_botLogs
      (bot_after_turn precs lim clock venue bot mkts prompt decisions k
         calls)
    = take 50 (newLog :: bot_botLogs bot) /\
    log_decisions newLog = decisions /\ log_prompt newLog = prompt /\
    bot_valueHistory
      (bot_after_turn precs lim clock venue bot mkts prompt decisions k
         calls)
    = bot_valueHistory bot.
Proof.
  unfold bot_after_turn, bot_turn.
  set (vs := validate lim clock bot k decisions).
  set (st0 := {| ex_notes := vs_notes vs; ex_updatedBotState := bot;
                 ex_clock := vs_clock vs; ex_calls := calls |}).
  set (body := match bot_tradingMode bot with
               | paper => mret tt
               | real => execute_live precs clock venue bot mkts
                           (vs_validated vs)
               end).
  assert (Hret : exists st1, body st0 = (inl tt, st1)).
  { subst body. destruct (bot_tradingMode bot).
    - eexists; reflexivity.
    - apply execute_live_returns. }
  assert (Hkeep : forall X (field : BotState -> X),
            (forall c b, field (set_symbolCooldowns c b) = field b) ->
            keeps field body).
  { intros X field Hf. subst body. destruct (bot_tradingMode bot).
    - apply keeps_ret.
    - apply keeps_for_of. intros v. apply keeps_execute_decision.
      exact Hf. }
  destruct Hret as [st1 H1].
  pose proof (Hkeep _ bot_botLogs (fun _ _ => eq_refl) st0) as Hlogs.
  pose proof (Hkeep _ bot_valueHistory (fun _ _ => eq_refl) st0) as Hvh.
  rewrite H1 in Hlogs, Hvh. simpl in Hlogs, Hvh.
  erewrite bind_inl by exact H1.
  unfold append_log.
  erewrite bind_inl by reflexivity.
  erewrite bind_inl by reflexivity.
  simpl. rewrite Hlogs, Hvh.
  eexists. split; [reflexivity|]. split; [reflexivity|].
  split; reflexivity.
Qed.


(** * Further properties of the engine *)

(** ** Validation pipeline: what becomes of every decision *)

Section ValidationAccounting.

Variable leverageLimits : gmap string Q.
Variable Date_now : nat -> N.
Variable bot : BotState.

Local Abbreviation vstep :=
  (validate_decision leverageLimits Date_now bot).

Lemma rule_minimum_size_rejection d note :
  rule_minimum_size d = Some note -> is_rejection note = true.
Proof.
  unfold rule_minimum_size.
  destruct (is_directional (d_action d)); [|discriminate].
  destruct (truthyQ (d_size d)); [|discriminate].
  destruct (Qltb q MINIMUM_TRADE_SIZE_USD); [|discriminate].
  intros [= <-]. reflexivity.
Qed.

Lemma rule_cooldown_clock k d :
  let r := rule_cooldown Date_now bot k d in
  (k <= snd r <= k + 2)%nat /\
  (forall note, fst r = Some note -> is_rejection note = true).
Proof.
  unfold rule_cooldown.
  destruct (is_directional (d_action d)); [|simpl; split; [lia|discriminate]].
  destruct (truthyS (d_symbol d)); [|simpl; split; [lia|discriminate]].
  destruct (truthyN _); [|simpl; split; [lia|discriminate]].
  destruct (_ <? _)%N; simpl; split; try lia; try discriminate.
  intros note [= <-]. reflexivity.
Qed.

Lemma rule_leverage_notes d :
  Forall (fun n => note_kind n = Adjustment)
    (snd (rule_leverage leverageLimits d)) /\
  List.filter is_rejection (snd (rule_leverage leverageLimits d)) = [].
Proof.
  unfold rule_leverage.
  destruct (is_directional (d_action d)); [|split; [constructor|reflexivity]].
  destruct (truthyS (d_symbol d)); [|split; [constructor|reflexivity]].
  destruct (Qltb _ _); simpl; split; try reflexivity; repeat constructor.
Qed.

(** The three outcomes of one call of the callback. *)
Lemma vstep_cases st d :
  (exists note,
     is_rejection note = true /\
     vs_notes (vstep st d) = vs_notes st ++ [note] /\
     vs_validated (vstep st d) = vs_validated st /\
     (vs_clock st <= vs_clock (vstep st d) <= vs_clock st + 2)%nat) \/
  (rule_minimum_size d = None /\
   vs_notes (vstep st d)
   = vs_notes st ++ snd (rule_leverage leverageLimits d) /\
   vs_validated (vstep st d)
   = vs_validated st
     ++ [{| v_decision := d;
            v_adjustedLeverage := fst (rule_leverage leverageLimits d) |}] /\
   (vs_clock st <= vs_clock (vstep st d) <= vs_clock st + 2)%nat).
Proof.
  destruct (rule_minimum_size d) as [note|] eqn:Hmin.
  - left. exists note. rewrite (step_minimum_size _ _ _ _ _ _ Hmin). simpl.
    split; [eapply rule_minimum_size_rejection; exact Hmin|].
    split; [reflexivity|]. split; [reflexivity|lia].
  - pose proof (rule_cooldown_clock (vs_clock st) d) as [Hk Hn].
    destruct (rule_cooldown Date_now bot (vs_clock st) d) as [[note|] k]
      eqn:Hcool; simpl in Hk, Hn.
    + left. exists note. rewrite (step_cooldown _ _ _ _ _ _ _ Hmin Hcool).
      simpl. split; [apply Hn; reflexivity|].
      split; [reflexivity|]. split; [reflexivity|exact Hk].
    + right. rewrite (step_accept _ _ _ _ _ _ Hmin Hcool). simpl.
      split; [reflexivity|]. split; [reflexivity|].
      split; [reflexivity|exact Hk].
Qed.

Lemma validate_fold ds : forall st,
  exists vnew nnew,
    vs_validated (fold_left vstep ds st) = vs_validated st ++ vnew /\
    vs_notes (fold_left vstep ds st) = vs_notes st ++ nnew /\
    sublist (v_decision <$> vnew) ds /\
    (length vnew + length (List.filter is_rejection nnew) = length ds)%nat /\
    Forall (fun n => note_kind n = Rejection \/ note_kind n = Adjustment)
      nnew /\
    (vs_clock st <= vs_clock (fold_left vstep ds st)
     <= vs_clock st + 2 * length ds)%nat.
Proof.
  induction ds as [|d ds IH]; intros st.
  - exists [], []. simpl. rewrite !app_nil_r.
    split; [reflexivity|]. split; [reflexivity|].
    split; [constructor|]. split; [reflexivity|]. split; [constructor|lia].
  - simpl fold_left.
    destruct (IH (vstep st d)) as (vnew & nnew & Hv & Hn & Hs & Hl & Hk & Hc).
    destruct (vstep_cases st d)
      as [(note & Hrej & Hn1 & Hv1 & Hc1)|(Hmin & Hn1 & Hv1 & Hc1)].
    + exists vnew, (note :: nnew). rewrite Hv, Hn, Hv1, Hn1.
      rewrite <- app_assoc. simpl.
      split; [reflexivity|]. split; [reflexivity|].
      split; [apply sublist_cons; exact Hs|].
      rewrite Hrej. simpl. split; [lia|]. split; [|lia].
      constructor; [|exact Hk]. left. unfold is_rejection in Hrej.
      destruct (note_kind note); try discriminate. reflexivity.
    + destruct (rule_leverage_notes d) as [Hadj Hnone].
      exists ({| v_decision := d;
                 v_adjustedLeverage :=
                   fst (rule_leverage leverageLimits d) |} :: vnew),
             (snd (rule_leverage leverageLimits d) ++ nnew).
      rewrite Hv, Hn, Hv1, Hn1. rewrite <- !app_assoc. simpl.
      split; [reflexivity|]. split; [reflexivity|].
      split; [apply sublist_skip; exact Hs|].
      rewrite List.filter_app, Hnone. simpl. split; [lia|].
      split; [|lia]. apply Forall_app. split; [|exact Hk].
      eapply Forall_impl; [exact Hadj|]. intros n Hn'. right. exact Hn'.
Qed.

Lemma validated_grows ds : forall st v,
  v ∈ vs_validated st -> v ∈ vs_validated (fold_left vstep ds st).
Proof.
  intros st v Hv. destruct (validate_fold ds st) as (vnew & _ & -> & _).
  apply elem_of_app. left. exact Hv.
Qed.

End ValidationAccounting.

(** X2. Validation neither reorders nor loses a decision: the validated
    decisions are the proposed ones with some left out, in the proposed
    order; each proposed decision is either validated or answered by exactly
    one rejection note; every note of validation is a rejection or an
    adjustment; and the clock is read at most twice per decision. *)
Theorem validate_accounts_for_every_decision
    (lim : gmap string Q) (clock : nat -> N) (bot : BotState) (k : nat)
    (ds : list AiDecision) :
  let vs := validate lim clock bot k ds in
  sublist (v_decision <$> vs_validated vs) ds /\
  (length (vs_validated vs)
   + length (List.filter is_rejection (vs_notes vs)) = length ds)%nat /\
  Forall (fun n => note_kind n = Rejection \/ note_kind n = Adjustment)
    (vs_notes vs) /\
  (k <= vs_clock vs <= k + 2 * length ds)%nat.
Proof.
  intros vs. subst vs. unfold validate.
  destruct (validate_fold lim clock bot ds
              {| vs_notes := []; vs_validated := []; vs_clock := k |})
    as (vnew & nnew & Hv & Hn & Hs & Hl & Hk & Hc).
  simpl in Hv, Hn, Hc. rewrite Hv, Hn.
  split; [exact Hs|]. split; [exact Hl|]. split; [exact Hk|exact Hc].
Qed.

(** X3. A decision that is not directional (CLOSE, HOLD) is never rejected
    by validation, whatever its symbol, size or cooldowns: its call of the
    callback pushes no note and reads no clock, and it is among the
    validated decisions with its own leverage (1 when none is given), never
    clamped to the maximum of a symbol. *)
Theorem non_directional_always_validated
    (lim : gmap string Q) (clock : nat -> N) (bot : BotState)
    (d : AiDecision) :
  is_directional (d_action d) = false ->
  let v := {| v_decision := d;
              v_adjustedLeverage := default 1 (truthyQ (d_leverage d)) |} in
  (forall st,
     validate_decision lim clock bot st d
     = {| vs_notes := vs_notes st ++ [];
          vs_validated := vs_validated st ++ [v];
          vs_clock := vs_clock st |}) /\
  (forall k ds, d ∈ ds -> v ∈ vs_validated (validate lim clock bot k ds)).
Proof.
  intros Hdir v.
  assert (Hstep : forall st,
            validate_decision lim clock bot st d
            = {| vs_notes := vs_notes st ++ [];
                 vs_validated := vs_validated st ++ [v];
                 vs_clock := vs_clock st |}).
  { intros st. unfold validate_decision, rule_minimum_size, rule_cooldown,
      rule_leverage. rewrite Hdir. reflexivity. }
  split; [exact Hstep|].
  intros k ds Hin. unfold validate.
  generalize {| vs_notes := []; vs_validated := []; vs_clock := k |}.
  induction ds as [|d0 ds IH]; intros st.
  - apply elem_of_nil in Hin. contradiction.
  - simpl. apply elem_of_cons in Hin. destruct Hin as [<-|Hin].
    + apply validated_grows. rewrite Hstep. simpl.
      apply elem_of_app. right. apply list_elem_of_singleton. reflexivity.
    + apply IH. exact Hin.
Qed.

Lemma non_directional_always_validated_witness :
  let bot := Sample.agent real 1000 [] {[ Sample.btc := 1800000%N ]} in
  let d := Sample.close "pos_1" in
  vs_validated (validate ∅ (Sample.clock_at 0) bot 0
                  [Sample.open_long (Some 100) None; d])
  = [{| v_decision := d; v_adjustedLeverage := 1 |}].
Proof.
  cbv zeta.
  destruct (non_directional_always_validated ∅ (Sample.clock_at 0)
              (Sample.agent real 1000 [] {[ Sample.btc := 1800000%N ]})
              (Sample.close "pos_1") eq_refl) as [H _].
  unfold validate. simpl fold_left. rewrite H. reflexivity.
Defined.

(** ** Live engine: what a turn sends and writes *)

Section Effects.

Variable symbolPrecisions : gmap string SymbolPrecisionInfo.
Variable Date_now : nat -> N.
Variable venue : list VenueCall -> VenueCall -> Settled.
Variable pf : Portfolio.
Variable PC : VenueCall -> Prop.
Variable PS : string -> Prop.

Local Abbreviation eff := (effects pf PC PS).

Lemma effects_quiet {A : Type} (m : Exec A) :
  (forall st, snd (m st) = st) -> eff m.
Proof.
  intros H st _. rewrite H. exists [], []. rewrite !app_nil_r.
  repeat split; try constructor; auto.
Qed.

Lemma effects_ret {A : Type} (a : A) : eff (mret a : Exec A).
Proof. apply effects_quiet. reflexivity. Qed.

Lemma effects_throw {A : Type} (e : JsError) : eff (@throw A e).
Proof. apply effects_quiet. reflexivity. Qed.

Lemma effects_gets {A : Type} (f : ExecState -> A) : eff (gets f).
Proof. apply effects_quiet. reflexivity. Qed.

Lemma effects_push n : eff (push n).
Proof.
  intros st _. exists [n], []. simpl. rewrite app_nil_r.
  repeat split; try constructor; auto.
Qed.

Lemma effects_now : eff (now Date_now).
Proof.
  intros st _. exists [], []. simpl. rewrite !app_nil_r.
  repeat split; try constructor; auto.
Qed.

Lemma effects_request c : PC c -> eff (request venue c).
Proof.
  intros Hc st _. exists [], [c]. simpl. rewrite app_nil_r.
  repeat split; auto.
Qed.

Lemma effects_set_cooldown sym t : PS sym -> eff (set_cooldown sym t).
Proof.
  intros Hs st _. exists [], []. simpl. rewrite !app_nil_r.
  split; [reflexivity|]. split; [reflexivity|]. split; [constructor|].
  split; [lia|]. split.
  - intros sym' Hn. apply lookup_insert_ne. intros ->. contradiction.
  - intros sym' Hsome. apply lookup_insert_is_Some'. right. exact Hsome.
Qed.

Lemma effects_bind {A B : Type} (m : Exec A) (f : A -> Exec B) :
  keeps bot_portfolio m -> eff m -> (forall a, eff (f a)) -> eff (m ≫= f).
Proof.
  intros Hk Hm Hf st Hpf. unfold mbind, Exec_bind.
  specialize (Hk st). destruct (Hm st Hpf)
    as (n1 & c1 & Hn1 & Hc1 & HP1 & Hck1 & Hcd1 & Hs1).
  destruct (m st) as [[a|e] st1]; simpl in *.
  - destruct (Hf a st1) as (n2 & c2 & Hn2 & Hc2 & HP2 & Hck2 & Hcd2 & Hs2).
    { rewrite Hk. exact Hpf. }
    exists (n1 ++ n2), (c1 ++ c2).
    rewrite Hn2, Hn1, Hc2, Hc1, !app_assoc.
    split; [reflexivity|]. split; [reflexivity|].
    split; [apply Forall_app; split; assumption|].
    split; [lia|]. split.
    + intros sym Hn. rewrite Hcd2, Hcd1 by exact Hn. reflexivity.
    + intros sym Hsome. apply Hs2, Hs1. exact Hsome.
  - exists n1, c1. repeat split; auto.
Qed.

Lemma effects_await c : PC c -> eff (await venue c).
Proof.
  intros Hc. unfold await.
  apply effects_bind; [apply keeps_request|apply effects_request; exact Hc|].
  intros [|e]; [apply effects_ret|apply effects_throw].
Qed.

Lemma effects_allSettled cs : Forall PC cs -> eff (allSettled venue cs).
Proof.
  induction cs as [|c cs IH]; intros Hcs; simpl.
  - apply effects_ret.
  - apply Forall_cons in Hcs. destruct Hcs as [Hc Hcs].
    apply effects_bind;
      [apply keeps_request|apply effects_request; exact Hc|].
    intros r.
    apply effects_bind; [apply keeps_allSettled|apply IH; exact Hcs|].
    intros rs. apply effects_ret.
Qed.

Lemma effects_for_of {A : Type} (xs : list A) (body : A -> Exec unit) :
  (forall x, keeps bot_portfolio (body x)) ->
  (forall x, x ∈ xs -> eff (body x)) -> eff (for_of xs body).
Proof.
  intros Hk. induction xs as [|x xs IH]; intros Hb; simpl.
  - apply effects_ret.
  - apply effects_bind; [apply Hk|apply Hb; left|].
    intros _. apply IH. intros y Hy. apply Hb. right. exact Hy.
Qed.

Lemma effects_try_catch body handler :
  keeps bot_portfolio body -> eff body -> (forall e, eff (handler e)) ->
  eff (try_catch body handler).
Proof.
  intros Hk Hb Hh st Hpf. unfold try_catch.
  specialize (Hk st). destruct (Hb st Hpf)
    as (n1 & c1 & Hn1 & Hc1 & HP1 & Hck1 & Hcd1 & Hs1).
  destruct (body st) as [[[]|e] st1]; simpl in *.
  - exists n1, c1. repeat split; auto.
  - destruct (Hh e st1) as (n2 & c2 & Hn2 & Hc2 & HP2 & Hck2 & Hcd2 & Hs2).
    { rewrite Hk. exact Hpf. }
    exists (n1 ++ n2), (c1 ++ c2).
    rewrite Hn2, Hn1, Hc2, Hc1, !app_assoc.
    split; [reflexivity|]. split; [reflexivity|].
    split; [apply Forall_app; split; assumption|].
    split; [lia|]. split.
    + intros sym Hn. rewrite Hcd2, Hcd1 by exact Hn. reflexivity.
    + intros sym Hsome. apply Hs2, Hs1. exact Hsome.
Qed.

Lemma effects_submit_open bot d lev market tradeSize sym :
  PC (SetLeverage sym lev (bot_id bot)) ->
  (0 < getAdjustedQuantity symbolPrecisions sym
         (tradeSize * lev / m_price market) ->
   PC (open_order symbolPrecisions bot d lev market tradeSize sym) /\
   Forall PC
     (slTp_calls (bot_id bot) d sym
        (getAdjustedQuantity symbolPrecisions sym
           (tradeSize * lev / m_price market)))) ->
  eff (submit_open symbolPrecisions venue bot d lev market tradeSize sym).
Proof.
  intros Hl Hsent. unfold submit_open.
  apply effects_bind;
    [apply keeps_await|apply effects_await; exact Hl|]. intros _.
  destruct (Qle_bool _ 0) eqn:Hq; [apply effects_push|].
  destruct Hsent as [Ho Hlegs].
  { apply Qnot_le_lt. intros Hle. apply Qle_bool_iff in Hle. congruence. }
  apply effects_bind;
    [apply keeps_await|apply effects_await; exact Ho|]. intros _.
  apply effects_bind; [apply keeps_push|apply effects_push|]. intros _.
  apply effects_bind;
    [apply keeps_allSettled|apply effects_allSettled; exact Hlegs|].
  intros rs. apply effects_for_of; [apply keeps_push|].
  intros n _. apply effects_push.
Qed.

Lemma effects_execute_open bot d lev market size sym :
  (forall tradeSize,
     MINIMUM_TRADE_SIZE_USD <= tradeSize ->
     tradeSize <= pf_balance pf ->
     tradeSize = size \/ tradeSize = pf_balance pf ->
     PC (SetLeverage sym lev (bot_id bot)) /\
     (0 < getAdjustedQuantity symbolPrecisions sym
            (tradeSize * lev / m_price market) ->
      PC (open_order symbolPrecisions bot d lev market tradeSize sym) /\
      Forall PC
        (slTp_calls (bot_id bot) d sym
           (getAdjustedQuantity symbolPrecisions sym
              (tradeSize * lev / m_price market))))) ->
  eff (execute_open symbolPrecisions venue bot d lev market size sym).
Proof.
  intros Hside st Hpf.
  assert (HB : available_balance st = pf_balance pf)
    by (unfold available_balance; rewrite Hpf; reflexivity).
  destruct (Qlt_le_dec (available_balance st) MINIMUM_TRADE_SIZE_USD)
    as [Hlow|Hok].
  { rewrite execute_open_low_balance by exact Hlow.
    apply effects_push. exact Hpf. }
  destruct (Qlt_le_dec (available_balance st) size) as [Hgt|Hle].
  - rewrite execute_open_clamp by assumption.
    destruct (Hside (pf_balance pf)) as (Hl & Hsent);
      [rewrite <- HB; exact Hok|apply Qle_refl|right; reflexivity|].
    rewrite HB.
    destruct (effects_submit_open bot d lev market (pf_balance pf) sym
                Hl Hsent
                (snd (push (TradeSizeAdjusted sym size (pf_balance pf)) st)))
      as (n2 & c2 & Hn2 & Hc2 & HP2 & Hck2 & Hcd2 & Hs2); [exact Hpf|].
    exists (TradeSizeAdjusted sym size (pf_balance pf) :: n2), c2.
    rewrite Hn2, Hc2. simpl. rewrite <- app_assoc. simpl.
    repeat split; auto.
  - destruct (Qlt_le_dec size MINIMUM_TRADE_SIZE_USD) as [Hsmall|Hbig].
    + rewrite execute_open_recheck by assumption.
      apply effects_push. exact Hpf.
    + rewrite execute_open_fits by assumption.
      destruct (Hside size) as (Hl & Hsent);
        [exact Hbig|rewrite <- HB; exact Hle|left; reflexivity|].
      apply effects_submit_open; assumption.
Qed.

Lemma effects_execute_close bot id :
  (forall pos,
     find_position bot id = Some pos ->
     0 < close_quantity symbolPrecisions pos ->
     PC (close_order symbolPrecisions bot pos) /\ PS (pos_symbol pos)) ->
  eff (execute_close symbolPrecisions Date_now venue bot id).
Proof.
  intros Hside. unfold execute_close. fold (find_position bot id).
  destruct (find_position bot id) as [pos|] eqn:Hpos; [|apply effects_ret].
  fold (close_quantity symbolPrecisions pos).
  destruct (Qltb 0 (close_quantity symbolPrecisions pos)) eqn:Hq;
    [|apply effects_ret].
  apply Qltb_lt in Hq. destruct (Hside pos eq_refl Hq) as [Hc Hs].
  apply effects_bind;
    [apply keeps_await|apply effects_await; exact Hc|]. intros _.
  apply effects_bind; [apply keeps_now|apply effects_now|]. intros t.
  apply effects_bind;
    [apply keeps_set_cooldown; reflexivity
    |apply effects_set_cooldown; exact Hs|].
  intros _. apply effects_push.
Qed.

Lemma effects_execute_catch d e : eff (execute_catch d e).
Proof.
  unfold execute_catch. destruct (truthyS _); [|apply effects_push].
  destruct (includes _ _); apply effects_push.
Qed.

(** One validated decision, given what its requests and the symbol of its
    cooldown must satisfy. *)
Lemma effects_execute_decision bot mkts v :
  (forall market size sym tradeSize,
     is_directional (d_action (v_decision v)) = true ->
     find_market mkts (d_symbol (v_decision v)) = Some market ->
     truthyQ (d_size (v_decision v)) = Some size ->
     truthyS (d_symbol (v_decision v)) = Some sym ->
     MINIMUM_TRADE_SIZE_USD <= tradeSize ->
     tradeSize <= pf_balance pf ->
     tradeSize = size \/ tradeSize = pf_balance pf ->
     PC (SetLeverage sym (v_adjustedLeverage v) (bot_id bot)) /\
     (0 < getAdjustedQuantity symbolPrecisions sym
            (tradeSize * v_adjustedLeverage v / m_price market) ->
      PC (open_order symbolPrecisions bot (v_decision v)
            (v_adjustedLeverage v) market tradeSize sym) /\
      Forall PC
        (slTp_calls (bot_id bot) (v_decision v) sym
           (getAdjustedQuantity symbolPrecisions sym
              (tradeSize * v_adjustedLeverage v / m_price market))))) ->
  (forall id pos,
     d_action (v_decision v) = CLOSE ->
     truthyS (d_closePositionId (v_decision v)) = Some id ->
     find_position bot id = Some pos ->
     0 < close_quantity symbolPrecisions pos ->
     PC (close_order symbolPrecisions bot pos) /\ PS (pos_symbol pos)) ->
  eff (execute_decision symbolPrecisions Date_now venue bot mkts v).
Proof.
  intros Hopen Hclose. unfold execute_decision.
  apply effects_try_catch;
    [apply keeps_execute_body; reflexivity| |apply effects_execute_catch].
  unfold execute_body.
  assert (Hc : eff
    (match d_action (v_decision v),
           truthyS (d_closePositionId (v_decision v)) with
     | CLOSE, Some closePositionId =>
         execute_close symbolPrecisions Date_now venue bot closePositionId
     | _, _ => mret tt
     end)).
  { destruct (d_action (v_decision v)) eqn:Ha; try apply effects_ret.
    destruct (truthyS (d_closePositionId (v_decision v))) as [id|] eqn:Hid;
      [|apply effects_ret].
    apply effects_execute_close. intros pos Hpos Hq.
    apply (Hclose id pos eq_refl eq_refl Hpos Hq). }
  destruct (is_directional (d_action (v_decision v))) eqn:Hdir;
    [|exact Hc].
  destruct (find_market mkts (d_symbol (v_decision v))) as [market|] eqn:Hm;
    [|exact Hc].
  destruct (truthyQ (d_size (v_decision v))) as [size|] eqn:Hs;
    [|exact Hc].
  destruct (truthyS (d_symbol (v_decision v))) as [sym|] eqn:Hsym;
    [|exact Hc].
  apply effects_execute_open. intros tradeSize H1 H2 H3.
  apply (Hopen market size sym tradeSize eq_refl eq_refl eq_refl eq_refl
           H1 H2 H3).
Qed.

End Effects.

Lemma slTp_calls_protective botId d sym quantity :
  Forall (protective_order botId d sym quantity)
    (slTp_calls botId d sym quantity).
Proof.
  unfold slTp_calls.
  destruct (truthyQ (d_stopLoss d)) as [sl|] eqn:Hsl;
    destruct (truthyQ (d_takeProfit d)) as [tp|] eqn:Htp; simpl;
    repeat constructor;
    eexists; (split; [reflexivity|]); simpl;
    repeat (split; [reflexivity|]); auto.
Qed.

Lemma effects_append_log pf PC PS Date_now decisions prompt :
  effects pf PC PS (append_log Date_now decisions prompt).
Proof.
  intros st _. exists [], []. simpl. rewrite !app_nil_r.
  repeat split; try constructor; auto.
Qed.

Lemma append_log_run Date_now decisions prompt st :
  append_log Date_now decisions prompt st
  = (inl tt,
     {| ex_notes := ex_notes st;
        ex_updatedBotState :=
          set_botLogs
            (take 50
               ({| log_timestamp := Date_now (ex_clock st);
                   log_decisions := decisions; log_prompt := prompt;
                   log_notes := ex_notes st |}
                :: bot_botLogs (ex_updatedBotState st)))
            (ex_updatedBotState st);
        ex_clock := S (ex_clock st);
        ex_calls := ex_calls st |}).
Proof. reflexivity. Qed.

(** The turn of a bot: its engine branch returns normally, then the log is
    written. *)
Lemma bot_turn_split precs lim clock venue bot mkts prompt decisions k calls :
  let vs := validate lim clock bot k decisions in
  let st0 := {| ex_notes := vs_notes vs; ex_updatedBotState := bot;
                ex_clock := vs_clock vs; ex_calls := calls |} in
  exists st1,
    (match bot_tradingMode bot with
     | paper => mret tt
     | real => execute_live precs clock venue bot mkts (vs_validated vs)
     end) st0 = (inl tt, st1) /\
    bot_turn precs lim clock venue bot mkts prompt decisions k calls
    = append_log clock decisions prompt st1.
Proof.
  intros vs st0.
  assert (Hret : exists st1,
            (match bot_tradingMode bot with
             | paper => mret tt
             | real => execute_live precs clock venue bot mkts
                         (vs_validated vs)
             end) st0 = (inl tt, st1)).
  { destruct (bot_tradingMode bot).
    - eexists; reflexivity.
    - apply execute_live_returns. }
  destruct Hret as [st1 H1]. exists st1. split; [exact H1|].
  unfold bot_turn. fold vs. fold st0.
  erewrite bind_inl by exact H1. reflexivity.
Qed.

(** What a whole turn of a bot sends and writes, when each validated
    decision sends requests that satisfy [PC] and starts cooldowns only on
    symbols in [PS]. *)
Lemma effects_bot_turn precs lim clock venue bot mkts prompt decisions k
    calls (PC : VenueCall -> Prop) (PS : string -> Prop) :
  (forall v,
     v ∈ vs_validated (validate lim clock bot k decisions) ->
     effects (bot_portfolio bot) PC PS
       (execute_decision precs clock venue bot mkts v)) ->
  let st :=
    snd (bot_turn precs lim clock venue bot mkts prompt decisions k calls) in
  exists notes sent,
    ex_notes st = vs_notes (validate lim clock bot k decisions) ++ notes /\
    ex_calls st = calls ++ sent /\
    Forall PC sent /\
    (forall sym, ~ PS sym ->
       bot_symbolCooldowns (ex_updatedBotState st) !! sym
       = bot_symbolCooldowns bot !! sym) /\
    (forall sym,
       is_Some (bot_symbolCooldowns bot !! sym) ->
       is_Some (bot_symbolCooldowns (ex_updatedBotState st) !! sym)) /\
    exists newLog,
      bot_botLogs (ex_updatedBotState st)
      = take 50 (newLog :: bot_botLogs bot) /\
      log_notes newLog = ex_notes st /\
      log_decisions newLog = decisions.
Proof.
  intros Hv st. subst st.
  destruct (bot_turn_split precs lim clock venue bot mkts prompt decisions
              k calls) as (st1 & Hbody & Hturn).
  set (vs := validate lim clock bot k decisions) in *.
  set (st0 := {| ex_notes := vs_notes vs; ex_updatedBotState := bot;
                 ex_clock := vs_clock vs; ex_calls := calls |}) in *.
  assert (Heff : effects (bot_portfolio bot) PC PS
            (match bot_tradingMode bot with
             | paper => mret tt
             | real => execute_live precs clock venue bot mkts
                         (vs_validated vs)
             end)).
  { destruct (bot_tradingMode bot); [apply effects_ret|].
    apply effects_for_of; [|exact Hv].
    intros v. apply keeps_execute_decision. reflexivity. }
  assert (Hlogs : bot_botLogs (ex_updatedBotState st1) = bot_botLogs bot).
  { assert (Hk : keeps bot_botLogs
              (match bot_tradingMode bot with
               | paper => mret tt
               | real => execute_live precs clock venue bot mkts
                           (vs_validated vs)
               end)).
    { destruct (bot_tradingMode bot); [apply keeps_ret|].
      apply keeps_for_of. intros v. apply keeps_execute_decision.
      reflexivity. }
    specialize (Hk st0). rewrite Hbody in Hk. exact Hk. }
  destruct (Heff st0 eq_refl) as (notes & sent & Hn & Hc & HP & _ & Hcd & Hs).
  rewrite Hbody in Hn, Hc, Hcd, Hs. simpl in Hn, Hc, Hcd, Hs.
  rewrite Hturn, append_log_run. simpl.
  exists notes, sent.
  split; [exact Hn|]. split; [exact Hc|]. split; [exact HP|].
  split; [exact Hcd|]. split; [exact Hs|].
  eexists. rewrite Hlogs. split; [reflexivity|]. split; reflexivity.
Qed.

Lemma rule_leverage_cap lim d sym :
  is_directional (d_action d) = true ->
  truthyS (d_symbol d) = Some sym ->
  fst (rule_leverage lim d) <= default 25 (lim !! sym).
Proof.
  intros Hdir Hsym. unfold rule_leverage. rewrite Hdir, Hsym.
  destruct (Qltb _ _) eqn:E; simpl.
  - apply Qle_refl.
  - apply Qltb_ge in E. exact E.
Qed.

Lemma validated_leverage_cap lim clock bot k ds v sym :
  v ∈ vs_validated (validate lim clock bot k ds) ->
  is_directional (d_action (v_decision v)) = true ->
  truthyS (d_symbol (v_decision v)) = Some sym ->
  v_adjustedLeverage v <= default 25 (lim !! sym).
Proof.
  intros Hv Hdir Hsym. unfold validate in Hv.
  apply validated_origin in Hv. destruct Hv as [Hv|(d & _ & _ & ->)].
  - simpl in Hv. apply elem_of_nil in Hv. contradiction.
  - simpl in *. apply rule_leverage_cap; assumption.
Qed.

Lemma find_position_held bot id pos :
  find_position bot id = Some pos ->
  pos ∈ pf_positions (bot_portfolio bot).
Proof.
  unfold find_position. intros H. apply List.find_some in H.
  apply list_elem_of_In. apply H.
Qed.

Lemma find_market_quoted mkts sym market :
  find_market mkts (Some sym) = Some market ->
  market ∈ mkts /\ m_symbol market = sym.
Proof.
  unfold find_market. intros H. apply List.find_some in H.
  destruct H as [Hin Hb]. split; [apply list_elem_of_In; exact Hin|].
  apply bool_decide_eq_true in Hb. congruence.
Qed.

(** X4. Every request a bot's turn makes to the venue is made on the
    account of that bot, and is added after the requests made before; the
    log entry of the turn records the raw decisions, rejected ones
    included, and the notes of validation followed by those of
    execution. *)
Theorem turn_requests_on_own_account
    (precs : gmap string SymbolPrecisionInfo) (lim : gmap string Q)
    (clock : nat -> N) (venue : list VenueCall -> VenueCall -> Settled)
    (bot : BotState) (mkts : list Market) (prompt : string)
    (decisions : list AiDecision) (k : nat) (calls : list VenueCall) :
  let st :=
    snd (bot_turn precs lim clock venue bot mkts prompt decisions k calls) in
  exists notes sent newLog,
    ex_calls st = calls ++ sent /\
    Forall (fun c => call_botId c = bot_id bot) sent /\
    bot_botLogs
      (bot_after_turn precs lim clock venue bot mkts prompt decisions k
         calls)
    = take 50 (newLog :: bot_botLogs bot) /\
    log_decisions newLog = decisions /\
    log_notes newLog
    = vs_notes (validate lim clock bot k decisions) ++ notes.
Proof.
  intros st.
  destruct (effects_bot_turn precs lim clock venue bot mkts prompt
              decisions k calls
              (fun c => call_botId c = bot_id bot) (fun _ => True))
    as (notes & sent & Hn & Hc & HP & _ & _ & newLog & Hl & Hln & Hld).
  { intros v _. apply effects_execute_decision.
    - intros market size sym tradeSize _ _ _ _ _ _ _.
      split; [reflexivity|]. intros _. split; [reflexivity|].
      eapply Forall_impl; [apply slTp_calls_protective|].
      intros c (spec & -> & _). reflexivity.
    - intros id pos _ _ _ _. split; [reflexivity|exact I]. }
  exists notes, sent, newLog. fold st in Hn, Hc, Hl, Hln.
  split; [exact Hc|]. split; [exact HP|].
  split; [unfold bot_after_turn; exact Hl|].
  split; [exact Hld|]. rewrite Hln. exact Hn.
Qed.

(** X5. In a turn, every leverage the engine sets at the venue for a symbol
    is at most the venue maximum of that symbol (25 when the table has no
    entry): the clamp of validation is what execution sends. *)
Theorem turn_leverage_within_venue_maximum
    (precs : gmap string SymbolPrecisionInfo) (lim : gmap string Q)
    (clock : nat -> N) (venue : list VenueCall -> VenueCall -> Settled)
    (bot : BotState) (mkts : list Market) (prompt : string)
    (decisions : list AiDecision) (k : nat) (calls : list VenueCall) :
  exists sent,
    ex_calls
      (snd (bot_turn precs lim clock venue bot mkts prompt decisions k
              calls))
    = calls ++ sent /\
    Forall (leverage_within lim) sent.
Proof.
  destruct (effects_bot_turn precs lim clock venue bot mkts prompt
              decisions k calls (leverage_within lim) (fun _ => True))
    as (notes & sent & _ & Hc & HP & _).
  { intros v Hv. apply effects_execute_decision.
    - intros market size sym tradeSize Hdir _ _ Hsym _ _ _.
      split.
      + simpl. eapply validated_leverage_cap; eassumption.
      + intros _. split; [exact I|].
        eapply Forall_impl; [apply slTp_calls_protective|].
        intros c (spec & -> & _). exact I.
    - intros id pos _ _ _ _. split; exact I. }
  exists sent. split; [exact Hc|exact HP].
Qed.

(** X7. In a turn of a bot whose positions have entry prices that are not
    zero, every reduce-only market order is on the account of the bot, for
    the symbol of a position the bot holds and on the side that closes it;
    and the cooldowns of the bot stored after the turn differ from those
    before only on symbols of held positions: the entry of any other
    symbol is as it was, and no entry is removed. *)
Theorem turn_closes_only_held_positions
    (precs : gmap string SymbolPrecisionInfo) (lim : gmap string Q)
    (clock : nat -> N) (venue : list VenueCall -> VenueCall -> Settled)
    (bot : BotState) (mkts : list Market) (prompt : string)
    (decisions : list AiDecision) (k : nat) (calls : list VenueCall) :
  (forall pos,
     pos ∈ pf_positions (bot_portfolio bot) -> ~ pos_entryPrice pos == 0) ->
  let stored :=
    bot_after_turn precs lim clock venue bot mkts prompt decisions k calls in
  exists sent,
    ex_calls
      (snd (bot_turn precs lim clock venue bot mkts prompt decisions k
              calls))
    = calls ++ sent /\
    Forall (closes_held bot) sent /\
    (forall sym,
       ~ held_symbol bot sym ->
       bot_symbolCooldowns stored !! sym = bot_symbolCooldowns bot !! sym) /\
    (forall sym,
       is_Some (bot_symbolCooldowns bot !! sym) ->
       is_Some (bot_symbolCooldowns stored !! sym)).
Proof.
  intros _ stored.
  destruct (effects_bot_turn precs lim clock venue bot mkts prompt
              decisions k calls (closes_held bot) (held_symbol bot))
    as (notes & sent & _ & Hc & HP & Hcd & Hs & _).
  { intros v Hv. apply effects_execute_decision.
    - intros market size sym tradeSize _ _ _ _ _ _ _.
      split; [exact I|]. intros _. split.
      + simpl. intros E. discriminate E.
      + eapply Forall_impl; [apply slTp_calls_protective|].
        intros c (spec & -> & _ & _ & _ & _ & [[Ht _]|[Ht _]]);
          simpl; intros _ E; congruence.
    - intros id pos _ _ Hpos Hq.
      pose proof (find_position_held bot id pos Hpos) as Hheld.
      split.
      + simpl. intros _ _. exists pos. split; [exact Hheld|].
        split; [reflexivity|]. split; reflexivity.
      + exists pos. split; [exact Hheld|reflexivity]. }
  exists sent. split; [exact Hc|]. split; [exact HP|].
  split; [exact Hcd|exact Hs].
Qed.

Lemma turn_closes_only_held_positions_witness :
  let bot := Sample.agent real 1000 [Sample.btc_long "pos_1"]
               {[ "ETHUSDT" := 5%N ]} in
  let stored :=
    bot_after_turn ∅ ∅ (Sample.clock_at 100) Sample.venue_ok bot
      (Sample.btc_at 10) "" [Sample.close "pos_1"] 0 [] in
  bot_symbolCooldowns stored !! "ETHUSDT" = Some 5%N /\
  bot_symbolCooldowns stored !! Sample.btc = Some 1800100%N.
Proof.
  cbv zeta. split; [|vm_compute; reflexivity].
  destruct (turn_closes_only_held_positions ∅ ∅ (Sample.clock_at 100)
              Sample.venue_ok
              (Sample.agent real 1000 [Sample.btc_long "pos_1"]
                 {[ "ETHUSDT" := 5%N ]})
              (Sample.btc_at 10) "" [Sample.close "pos_1"] 0 [])
    as (sent & _ & _ & Hcd & _).
  { intros pos Hin. apply list_elem_of_singleton in Hin. subst pos.
    vm_compute. discriminate. }
  rewrite Hcd; [reflexivity|].
  intros (pos & Hin & Hsym). apply list_elem_of_singleton in Hin.
  subst pos. discriminate Hsym.
Defined.

(** ** Live engine: one decision, case by case *)

Lemma execute_open_sized precs venue bot d lev market size sym st :
  MINIMUM_TRADE_SIZE_USD <= available_balance st ->
  MINIMUM_TRADE_SIZE_USD <= size ->
  execute_open precs venue bot d lev market size sym st
  = submit_open precs venue bot d lev market
      (trade_size (available_balance st) size) sym
      (ex_extend (sizing_notes sym (available_balance st) size) [] st).
Proof.
  intros HB Hs. unfold trade_size, sizing_notes.
  destruct (Qltb (available_balance st) size) eqn:E.
  - apply Qltb_lt in E. rewrite execute_open_clamp by assumption.
    rewrite push_run. reflexivity.
  - apply Qltb_ge in E. rewrite execute_open_fits by assumption.
    rewrite ex_extend_nil. reflexivity.
Qed.

Lemma execute_catch_run d e st :
  execute_catch d e st = (inl tt, ex_extend [catch_note d e] [] st).
Proof.
  unfold execute_catch, catch_note. destruct (truthyS _).
  - destruct (includes _ _); apply push_run.
  - apply push_run.
Qed.

(** X8. A live open that the venue does not let through is given up
    without touching the agent: when the leverage request fails, one note
    is pushed and no order is sent; at a quote that is not zero, when the
    quantity truncates to zero or less, the leverage has already been set
    at the venue, the warning is pushed and no order is sent; and when the
    market order fails, one note is pushed and no protective order is
    sent. In each case the decision returns normally, so the decisions
    after it still run. *)
Theorem live_open_given_up
    (precs : gmap string SymbolPrecisionInfo) (clock : nat -> N)
    (venue : list VenueCall -> VenueCall -> Settled)
    (bot : BotState) (mkts : list Market) (v : Validated)
    (market : Market) (size : Q) (sym : string) (st : ExecState) :
  let d := v_decision v in
  let lev := v_adjustedLeverage v in
  let B := available_balance st in
  let tradeSize := trade_size B size in
  let sized := sizing_notes sym B size in
  let lever := SetLeverage sym lev (bot_id bot) in
  let order := open_order precs bot d lev market tradeSize sym in
  let quantity :=
    getAdjustedQuantity precs sym (tradeSize * lev / m_price market) in
  let run := execute_decision precs clock venue bot mkts v in
  is_directional (d_action d) = true ->
  find_market mkts (d_symbol d) = Some market ->
  d_size d = Some size -> d_symbol d = Some sym -> sym <> EmptyString ->
  MINIMUM_TRADE_SIZE_USD <= B -> MINIMUM_TRADE_SIZE_USD <= size ->
  (forall e,
     venue (ex_calls st) lever = Failed e ->
     run st = (inl tt, ex_extend (sized ++ [catch_note d e]) [lever] st)) /\
  (venue (ex_calls st) lever = Resolved -> ~ m_price market == 0 ->
   (quantity <= 0 ->
    run st
    = (inl tt,
       ex_extend (sized ++ [QuantityZeroWarning sym]) [lever] st)) /\
   (forall e,
      0 < quantity ->
      venue (ex_calls st ++ [lever]) order = Failed e ->
      run st
      = (inl tt,
         ex_extend (sized ++ [catch_note d e]) [lever; order] st))).
Proof.
  intros d lev B tradeSize sized lever order quantity run
    Hdir Hm Hs Hsym Hne HB Hsize.
  assert (Hnz : ~ size == 0).
  { intros E. unfold MINIMUM_TRADE_SIZE_USD in Hsize. lra. }
  assert (Hrun : run st
                 = try_catch
                     (submit_open precs venue bot d lev market tradeSize sym)
                     (execute_catch d) (ex_extend sized [] st)).
  { subst run. unfold execute_decision, try_catch.
    rewrite (execute_body_open precs clock venue bot mkts v market size sym)
      by assumption.
    fold d lev. rewrite execute_open_sized by assumption. reflexivity. }
  rewrite Hrun. unfold try_catch, submit_open. fold quantity.
  assert (Hcalls : ex_calls (ex_extend sized [] st) = ex_calls st)
    by (simpl; apply app_nil_r).
  split; [|intros Hl _; split].
  - intros e He.
    erewrite bind_inr by (apply await_failed; rewrite Hcalls; exact He).
    rewrite execute_catch_run, !ex_extend_extend. reflexivity.
  - intros Hq.
    erewrite bind_inl by (apply await_resolved; rewrite Hcalls; exact Hl).
    apply Qle_bool_iff in Hq. rewrite Hq.
    rewrite push_run, !ex_extend_extend. reflexivity.
  - intros e Hq He.
    erewrite bind_inl by (apply await_resolved; rewrite Hcalls; exact Hl).
    assert (Hq' : Qle_bool quantity 0 = false).
    { destruct (Qle_bool quantity 0) eqn:E; [|reflexivity].
      apply Qle_bool_iff in E. exfalso. exact (Qlt_not_le _ _ Hq E). }
    rewrite Hq'.
    erewrite bind_inr.
    2:{ apply await_failed. simpl. rewrite app_nil_r. exact He. }
    rewrite execute_catch_run, !ex_extend_extend. reflexivity.
Qed.

(** A LONG of $100 at leverage 1 on a symbol quoted at 1,000,000 with three
    decimals of precision: the quantity is zero, so the leverage is set and
    nothing else is sent. *)
Lemma live_open_given_up_witness :
  let bot := Sample.agent real 1000 [] ∅ in
  let v := {| v_decision := Sample.open_long (Some 100) (Some 1);
              v_adjustedLeverage := 1 |} in
  let st := snd (execute_decision ∅ (Sample.clock_at 0) Sample.venue_ok bot
                   (Sample.btc_at 1000000) v (Sample.init_state bot)) in
  ex_notes st = [QuantityZeroWarning Sample.btc] /\
  ex_calls st = [SetLeverage Sample.btc 1 "bot_degen"].
Proof.
  cbv zeta.
  destruct (live_open_given_up ∅ (Sample.clock_at 0) Sample.venue_ok
              (Sample.agent real 1000 [] ∅) (Sample.btc_at 1000000)
              {| v_decision := Sample.open_long (Some 100) (Some 1);
                 v_adjustedLeverage := 1 |}
              {| m_symbol := Sample.btc; m_price := 1000000 |} 100
              Sample.btc (Sample.init_state (Sample.agent real 1000 [] ∅)))
    as [_ H];
    [reflexivity|reflexivity|reflexivity|reflexivity|discriminate
    |discriminate|discriminate|].
  destruct H as [H _]; [reflexivity|vm_compute; discriminate|].
  rewrite H by (vm_compute; discriminate). split; reflexivity.
Defined.

Lemma allSettled_results venue cs : forall st,
  allSettled venue cs st
  = (inl (imap (fun i c => venue (ex_calls st ++ take i cs) c) cs),
     ex_extend [] cs st).
Proof.
  induction cs as [|c cs IH]; intros st.
  - simpl. rewrite ex_extend_nil. reflexivity.
  - cbn [allSettled]. erewrite bind_inl by apply request_run.
    erewrite bind_inl by apply IH.
    rewrite ex_extend_extend. cbn [imap take].
    unfold mret, Exec_ret. f_equal. f_equal. f_equal.
    + rewrite app_nil_r. reflexivity.
    + apply imap_ext. intros i x _. simpl. rewrite <- app_assoc.
      reflexivity.
Qed.

Lemma slTp_note_by_leg botId d sym quantity i c r :
  slTp_calls botId d sym quantity !! i = Some c ->
  exists leg,
    leg_of c = Some leg /\ slTp_note d sym i r = settlement_note leg sym r.
Proof.
  unfold slTp_calls, slTp_note.
  destruct (truthyQ (d_stopLoss d)) as [sl|];
    destruct (truthyQ (d_takeProfit d)) as [tp|]; simpl;
    destruct i as [|[|i]]; simpl; intros [= <-]; simpl;
    eexists; (split; [reflexivity|]); simpl;
    try rewrite bool_decide_eq_true_2 by (eexists; reflexivity);
    try rewrite bool_decide_eq_false_2 by (intros [? ?]; discriminate);
    reflexivity.
Qed.

(** X9. When the venue accepts the leverage and the market order of a live
    open, the success note is pushed and the protective orders asked for
    are sent after it, stop-loss first: each is reduce-only, on the closing
    side, for the symbol and the quantity of the market order, at the price
    the decision gives. Whatever the venue answers to them, the decision
    returns normally and nothing more is sent; the i-th note after the
    success note reports how the i-th protective order settled, under the
    name of the leg that order is. *)
Theorem protective_orders_reported_by_leg
    (precs : gmap string SymbolPrecisionInfo) (clock : nat -> N)
    (venue : list VenueCall -> VenueCall -> Settled)
    (bot : BotState) (mkts : list Market) (v : Validated)
    (market : Market) (size : Q) (sym : string) (st : ExecState) :
  let d := v_decision v in
  let lev := v_adjustedLeverage v in
  let B := available_balance st in
  let tradeSize := trade_size B size in
  let sized := sizing_notes sym B size in
  let lever := SetLeverage sym lev (bot_id bot) in
  let order := open_order precs bot d lev market tradeSize sym in
  let quantity :=
    getAdjustedQuantity precs sym (tradeSize * lev / m_price market) in
  let protective := slTp_calls (bot_id bot) d sym quantity in
  let run := execute_decision precs clock venue bot mkts v in
  is_directional (d_action d) = true ->
  find_market mkts (d_symbol d) = Some market ->
  d_size d = Some size -> d_symbol d = Some sym -> sym <> EmptyString ->
  MINIMUM_TRADE_SIZE_USD <= B -> MINIMUM_TRADE_SIZE_USD <= size ->
  0 < quantity ->
  venue (ex_calls st) lever = Resolved ->
  venue (ex_calls st ++ [lever]) order = Resolved ->
  exists legs,
    run st
    = (inl tt,
       ex_extend (sized ++ OpenedPosition (d_action d) sym :: legs)
         (lever :: order :: protective) st) /\
    Forall (protective_order (bot_id bot) d sym quantity) protective /\
    length legs = length protective /\
    (forall i c,
       protective !! i = Some c ->
       exists leg,
         leg_of c = Some leg /\
         legs !! i
         = Some (settlement_note leg sym
                   (venue (ex_calls st ++ lever :: order :: take i protective)
                      c))).
Proof.
  intros d lev B tradeSize sized lever order quantity protective run
    Hdir Hm Hs Hsym Hne HB Hsize Hq Hl Ho.
  assert (Hnz : ~ size == 0).
  { intros E. unfold MINIMUM_TRADE_SIZE_USD in Hsize. lra. }
  assert (Hrun : run st
                 = try_catch
                     (submit_open precs venue bot d lev market tradeSize sym)
                     (execute_catch d) (ex_extend sized [] st)).
  { subst run. unfold execute_decision, try_catch.
    rewrite (execute_body_open precs clock venue bot mkts v market size sym)
      by assumption.
    fold d lev. rewrite execute_open_sized by assumption. reflexivity. }
  set (results :=
         imap (fun i c =>
                 venue (ex_calls st ++ lever :: order :: take i protective)
                   c) protective).
  exists (imap (slTp_note d sym) results).
  split; [|split; [apply slTp_calls_protective|split]].
  - rewrite Hrun. unfold try_catch, submit_open. fold quantity.
    erewrite bind_inl.
    2:{ apply await_resolved. simpl. rewrite app_nil_r. exact Hl. }
    assert (Hq' : Qle_bool quantity 0 = false).
    { destruct (Qle_bool quantity 0) eqn:E; [|reflexivity].
      apply Qle_bool_iff in E. exfalso. exact (Qlt_not_le _ _ Hq E). }
    rewrite Hq'.
    erewrite bind_inl.
    2:{ apply await_resolved. simpl. rewrite !app_nil_r. exact Ho. }
    erewrite bind_inl by apply push_run.
    erewrite bind_inl by apply allSettled_results.
    rewrite for_of_push_run, !ex_extend_extend. simpl.
    rewrite !app_nil_r. fold protective.
    assert (E : imap
                  (fun i c =>
                     venue ((ex_calls st ++ [lever; order])
                            ++ take i protective) c) protective
                = results).
    { subst results. apply imap_ext. intros i c _. simpl.
      rewrite <- app_assoc. reflexivity. }
    subst lever order. unfold open_order in E. fold quantity in E.
    rewrite E. reflexivity.
  - subst results. rewrite !length_imap. reflexivity.
  - intros i c Hc.
    destruct (slTp_note_by_leg (bot_id bot) d sym quantity i c
                (venue (ex_calls st ++ lever :: order :: take i protective)
                   c) Hc) as (leg & Hleg & Hnote).
    exists leg. split; [exact Hleg|].
    rewrite list_lookup_imap. subst results. rewrite list_lookup_imap.
    fold protective in Hc. rewrite Hc. simpl. rewrite Hnote. reflexivity.
Qed.

(** A LONG of $100 at leverage 2 with stop-loss and take-profit on a venue
    that rejects stop orders: the position is opened, the failure of the
    stop-loss and the success of the take-profit are both noted. *)
Lemma protective_orders_reported_by_leg_witness :
  let bot := Sample.agent real 1000 [] ∅ in
  let v := {| v_decision := Sample.open_long_protected 100 2 9 12;
              v_adjustedLeverage := 2 |} in
  let st := snd (execute_decision ∅ (Sample.clock_at 0)
                   Sample.venue_no_stops bot (Sample.btc_at 10) v
                   (Sample.init_state bot)) in
  ex_notes st
  = [OpenedPosition LONG Sample.btc;
     ProtectiveFailed StopLossLeg Sample.btc (Some "Order would trigger");
     ProtectivePlaced TakeProfitLeg Sample.btc] /\
  length (ex_calls st) = 4%nat.
Proof.
  cbv zeta.
  destruct (protective_orders_reported_by_leg ∅ (Sample.clock_at 0)
              Sample.venue_no_stops (Sample.agent real 1000 [] ∅)
              (Sample.btc_at 10)
              {| v_decision := Sample.open_long_protected 100 2 9 12;
                 v_adjustedLeverage := 2 |}
              {| m_symbol := Sample.btc; m_price := 10 |} 100 Sample.btc
              (Sample.init_state (Sample.agent real 1000 [] ∅)))
    as (legs & Hrun & _ & Hlen & Hlegs);
    [reflexivity|reflexivity|reflexivity|reflexivity|discriminate
    |discriminate|discriminate|reflexivity|reflexivity|reflexivity|].
  rewrite Hrun. split; [|reflexivity].
  destruct (Hlegs 0%nat _ eq_refl) as (l0 & E0 & H0).
  destruct (Hlegs 1%nat _ eq_refl) as (l1 & E1 & H1).
  injection E0 as <-. injection E1 as <-.
  destruct legs as [|n0 [|n1 [|n2 legs]]]; try discriminate.
  injection H0 as ->. injection H1 as ->. reflexivity.
Defined.

(** X10. A live close that the venue accepts sends one reduce-only market
    order for the position, reads the clock once, starts a cooldown on the
    symbol of the position that expires 30 minutes (1,800,000 ms) after
    that reading, and pushes the success note. With the bot as it is
    afterwards, the cooldown rule of validation rejects a directional
    decision on that symbol at every clock reading before the expiry, and
    no longer rejects it from the expiry on. *)
Theorem close_starts_enforced_cooldown
    (precs : gmap string SymbolPrecisionInfo) (clock : nat -> N)
    (venue : list VenueCall -> VenueCall -> Settled)
    (bot : BotState) (mkts : list Market) (v : Validated) (id : string)
    (pos : Position) (st : ExecState) :
  let sym := pos_symbol pos in
  let expiry := (clock (ex_clock st) + 1800000)%N in
  let run := execute_decision precs clock venue bot mkts v in
  d_action (v_decision v) = CLOSE ->
  d_closePositionId (v_decision v) = Some id -> id <> EmptyString ->
  find_position bot id = Some pos ->
  0 < close_quantity precs pos ->
  venue (ex_calls st) (close_order precs bot pos) = Resolved ->
  run st
  = (inl tt,
     ex_extend [ClosedPosition sym] [close_order precs bot pos]
       (with_cooldown sym expiry st)) /\
  (forall d' k',
     is_directional (d_action d') = true ->
     d_symbol d' = Some sym -> sym <> EmptyString ->
     let stored := ex_updatedBotState (snd (run st)) in
     ((clock k' < expiry)%N ->
      exists note,
        rule_cooldown clock stored k' d' = (Some note, S (S k')) /\
        is_rejection note = true) /\
     ((expiry <= clock k')%N ->
      fst (rule_cooldown clock stored k' d') = None)).
Proof.
  intros sym expiry run Ha Hid Hne Hpos Hq Hv.
  assert (Hrun : run st
                 = (inl tt,
                    ex_extend [ClosedPosition sym]
                      [close_order precs bot pos]
                      (with_cooldown sym expiry st))).
  { subst run. unfold execute_decision, try_catch.
    rewrite (execute_body_close precs clock venue bot mkts v id Ha Hid Hne).
    unfold execute_close. fold (find_position bot id). rewrite Hpos.
    fold (close_quantity precs pos).
    apply Qltb_lt in Hq. rewrite Hq.
    erewrite bind_inl by (apply await_resolved; exact Hv).
    erewrite bind_inl by reflexivity.
    erewrite bind_inl by reflexivity.
    rewrite push_run. unfold ex_extend, with_cooldown. simpl.
    rewrite !app_nil_r. reflexivity. }
  split; [exact Hrun|].
  intros d' k' Hdir Hsym Hsne stored. subst stored. rewrite Hrun.
  assert (Hts : truthyS (d_symbol d') = Some sym)
    by (apply truthyS_Some; split; assumption).
  assert (Htn : truthyN (Some expiry) = Some expiry).
  { apply truthyN_Some. split; [reflexivity|]. subst expiry. lia. }
  unfold rule_cooldown. rewrite Hdir, Hts. simpl.
  rewrite lookup_insert_eq, Htn. split.
  - intros Hlt. apply N.ltb_lt in Hlt. rewrite Hlt.
    eexists. split; reflexivity.
  - intros Hge. apply N.ltb_ge in Hge. rewrite Hge. reflexivity.
Qed.

(** Scenario D end to end: the position on BTCUSDT is closed at minute 0;
    a LONG on it is rejected at minute 10 and validated at minute 31. *)
Lemma close_starts_enforced_cooldown_witness :
  let bot := Sample.agent real 1000 [Sample.btc_long "pos_1"] ∅ in
  let v := {| v_decision := Sample.close "pos_1";
              v_adjustedLeverage := 1 |} in
  let stored :=
    ex_updatedBotState
      (snd (execute_decision ∅ (Sample.clock_at 0) Sample.venue_ok bot
              (Sample.btc_at 10) v (Sample.init_state bot))) in
  let d := Sample.open_long (Some 100) (Some 2) in
  bot_symbolCooldowns stored !! Sample.btc = Some 1800000%N /\
  (exists note,
     rule_cooldown (Sample.clock_at 600000) stored 0 d
     = (Some note, 2%nat)) /\
  fst (rule_cooldown (Sample.clock_at 1860000) stored 0 d) = None.
Proof.
  cbv zeta.
  destruct (close_starts_enforced_cooldown ∅ (Sample.clock_at 0)
              Sample.venue_ok
              (Sample.agent real 1000 [Sample.btc_long "pos_1"] ∅)
              (Sample.btc_at 10)
              {| v_decision := Sample.close "pos_1";
                 v_adjustedLeverage := 1 |} "pos_1"
              (Sample.btc_long "pos_1")
              (Sample.init_state
                 (Sample.agent real 1000 [Sample.btc_long "pos_1"] ∅)))
    as [Hrun _];
    [reflexivity|reflexivity|discriminate|reflexivity|reflexivity
    |reflexivity|].
  rewrite Hrun. split; [reflexivity|]. split.
  - eexists. reflexivity.
  - reflexivity.
Defined.

(** ** Reconciliation: what a refresh tick keeps and what it replaces *)

Lemma slice_last_snoc {A : Type} (n : nat) (xs : list A) (x : A) :
  last (slice_last (S n) (xs ++ [x])) = Some x.
Proof.
  unfold slice_last. rewrite length_app. simpl.
  rewrite drop_app_le by lia. apply last_snoc.
Qed.

Lemma sum_order_pnl_Qsum orders :
  sum_order_pnl orders == Qsum (ord_pnl <$> orders).
Proof.
  unfold sum_order_pnl.
  assert (H : forall acc,
            fold_left (fun acc o => acc + ord_pnl o) orders acc
            == acc + Qsum (ord_pnl <$> orders)).
  { induction orders as [|o orders IH]; intros acc.
    - cbn [fold_left fmap list_fmap Qsum fold_right]. ring.
    - cbn [fold_left fmap list_fmap Qsum fold_right]. rewrite IH.
      unfold Qsum. ring. }
  rewrite H. ring.
Qed.

(** The fields a refresh leaves alone. *)
Lemma refresh_bot_frame LIVE t ref bot bot' ref' :
  refresh_bot LIVE t ref bot = (Some bot', ref') ->
  bot_id bot' = bot_id bot /\
  bot_tradingMode bot' = bot_tradingMode bot /\
  bot_isPaused bot' = bot_isPaused bot /\
  bot_botLogs bot' = bot_botLogs bot /\
  bot_symbolCooldowns bot' = bot_symbolCooldowns bot.
Proof.
  unfold refresh_bot. destruct (bot_tradingMode bot) eqn:Hmode.
  - intros [= <- _]. simpl. rewrite Hmode. repeat split.
  - destruct (tick_getRealAccountState t (bot_id bot)); [|discriminate].
    destruct (tick_getRealTradeHistory t (bot_id bot)); [|discriminate].
    intros [= <- _]. simpl. rewrite Hmode. repeat split.
Qed.

Lemma refresh_all_length LIVE t bs : forall ref l ref',
  refresh_all LIVE t ref bs = (Some l, ref') -> length l = length bs.
Proof.
  induction bs as [|b bs IH]; intros ref l ref' H; simpl in H.
  - injection H as <- _. reflexivity.
  - destruct (refresh_bot LIVE t ref b) as [r0 ref1].
    destruct (refresh_all LIVE t ref1 bs) as [rs ref2] eqn:E.
    destruct r0; [|discriminate]. destruct rs as [l'|]; [|discriminate].
    injection H as <- _. simpl. f_equal. eapply IH. exact E.
Qed.

Lemma refresh_all_rejects LIVE t bs b : forall ref,
  b ∈ bs -> bot_tradingMode b = real ->
  tick_getRealAccountState t (bot_id b) = None \/
  tick_getRealTradeHistory t (bot_id b) = None ->
  fst (refresh_all LIVE t ref bs) = None.
Proof.
  induction bs as [|b0 bs IH]; intros ref Hin Hmode Hfail.
  - apply elem_of_nil in Hin. contradiction.
  - simpl. apply elem_of_cons in Hin.
    destruct (refresh_bot LIVE t ref b0) as [r0 ref1] eqn:E0.
    destruct (refresh_all LIVE t ref1 bs) as [rs ref2] eqn:E1.
    destruct Hin as [->|Hin].
    + assert (r0 = None).
      { unfold refresh_bot in E0. rewrite Hmode in E0.
        destruct Hfail as [Ha|Hh].
        - rewrite Ha in E0. injection E0 as <- _. reflexivity.
        - rewrite Hh in E0.
          destruct (tick_getRealAccountState t (bot_id b0));
            injection E0 as <- _; reflexivity. }
      subst r0. reflexivity.
    + pose proof (IH ref1 Hin Hmode Hfail) as H. rewrite E1 in H.
      simpl in H. subst rs. simpl. destruct r0; reflexivity.
Qed.

(** X11. A refresh tick with a market snapshot stores the snapshot and
    keeps the list of bots in number and order; whatever it refreshes, it
    leaves the id, the trading mode, the pause flag, the turn log and the
    cooldowns of every bot as they were. It is all or nothing: when a venue
    read of one live bot rejects, no bot of the list is refreshed on that
    tick, paper bots included. *)
Theorem refresh_tick_all_or_nothing (LIVE : Q) (t : Tick) (a : Arena) :
  tick_marketData t <> [] ->
  let a' := updatePortfolios LIVE t a in
  markets a' = tick_marketData t /\
  length (bots a') = length (bots a) /\
  (forall i b,
     bots a !! i = Some b ->
     exists b',
       bots a' !! i = Some b' /\
       bot_id b' = bot_id b /\
       bot_tradingMode b' = bot_tradingMode b /\
       bot_isPaused b' = bot_isPaused b /\
       bot_botLogs b' = bot_botLogs b /\
       bot_symbolCooldowns b' = bot_symbolCooldowns b) /\
  (forall b,
     b ∈ bots a -> bot_tradingMode b = real ->
     tick_getRealAccountState t (bot_id b) = None \/
     tick_getRealTradeHistory t (bot_id b) = None ->
     bots a' = bots a).
Proof.
  intros Hmd a'. subst a'. unfold updatePortfolios.
  destruct (tick_marketData t) as [|m0 md] eqn:Emd; [contradiction|].
  destruct (refresh_all LIVE t (initialBalanceRef a) (bots a))
    as [[l|] ref'] eqn:Eall; simpl.
  - split; [reflexivity|].
    split; [eapply refresh_all_length; exact Eall|].
    split.
    + intros i b Hi.
      destruct (refresh_all_lookup LIVE t (bots a) _ _ _ i b Eall Hi)
        as (r & b' & H1 & H2).
      exists b'. split; [exact H2|].
      destruct (refresh_bot LIVE t r b) as [o r'] eqn:Er. simpl in H1.
      subst o. eapply refresh_bot_frame. exact Er.
    + intros b Hin Hmode Hfail.
      pose proof (refresh_all_rejects LIVE t (bots a) b
                    (initialBalanceRef a) Hin Hmode Hfail) as H.
      rewrite Eall in H. discriminate H.
  - split; [reflexivity|]. split; [reflexivity|]. split.
    + intros i b Hi. exists b. repeat split. exact Hi.
    + intros. reflexivity.
Qed.

(** A paper bot and a live bot whose account read rejects: the tick stores
    the snapshot and leaves both bots as they were. *)
Lemma refresh_tick_all_or_nothing_witness :
  let pbot := Sample.agent paper 1000 [Sample.btc_long "pos_1"] ∅ in
  let lbot := Sample.agent real 950 [] ∅ in
  let t := {| tick_marketData := Sample.btc_at 110;
              tick_getRealAccountState := fun _ => None;
              tick_getRealTradeHistory := fun _ => Some [];
              tick_now := fun _ => 5000%N |} in
  let a := {| bots := [pbot; lbot]; markets := [];
              initialBalanceRef := ∅ |} in
  bots (updatePortfolios 950 t a) = [pbot; lbot] /\
  markets (updatePortfolios 950 t a) = Sample.btc_at 110.
Proof.
  cbv zeta.
  destruct (refresh_tick_all_or_nothing 950
              {| tick_marketData := Sample.btc_at 110;
                 tick_getRealAccountState := fun _ => None;
                 tick_getRealTradeHistory := fun _ => Some [];
                 tick_now := fun _ => 5000%N |}
              {| bots := [Sample.agent paper 1000
                            [Sample.btc_long "pos_1"] ∅;
                          Sample.agent real 950 [] ∅];
                 markets := []; initialBalanceRef := ∅ |})
    as (Hm & _ & _ & Hfail); [discriminate|].
  split; [|exact Hm].
  apply (Hfail (Sample.agent real 950 [] ∅)).
  - right. left.
  - reflexivity.
  - left. reflexivity.
Defined.

(** X12. A refresh of a live bot whose two venue reads succeed takes the
    state of the venue wholesale: the portfolio and the order list are the
    ones the venue reports, the realized PnL is the sum of the PnL of the
    reported orders, and the newest point of the value history carries the
    total value the venue reports; nothing of the local portfolio or order
    list enters the result. *)
Theorem live_refresh_takes_venue_state
    (LIVE : Q) (t : Tick) (ref : gmap string Q) (bot : BotState)
    (pf : Portfolio) (orders : list Order) :
  bot_tradingMode bot = real ->
  tick_getRealAccountState t (bot_id bot) = Some pf ->
  tick_getRealTradeHistory t (bot_id bot) = Some orders ->
  exists bot' ref',
    refresh_bot LIVE t ref bot = (Some bot', ref') /\
    bot_portfolio bot' = pf /\
    bot_orders bot' = orders /\
    bot_realizedPnl bot' == Qsum (ord_pnl <$> orders) /\
    last (bot_valueHistory bot')
    = Some {| vh_timestamp := tick_now t (bot_id bot);
              vh_value := pf_totalValue pf |} /\
    (forall bot2 ref2,
       bot_id bot2 = bot_id bot -> bot_tradingMode bot2 = real ->
       exists bot2' ref2',
         refresh_bot LIVE t ref2 bot2 = (Some bot2', ref2') /\
         bot_portfolio bot2' = bot_portfolio bot' /\
         bot_orders bot2' = bot_orders bot' /\
         bot_realizedPnl bot2' = bot_realizedPnl bot').
Proof.
  intros Hmode Ha Hh. unfold refresh_bot. rewrite Hmode, Ha, Hh.
  eexists. eexists. split; [reflexivity|]. simpl.
  split; [reflexivity|]. split; [reflexivity|].
  split; [apply sum_order_pnl_Qsum|]. split.
  - apply (slice_last_snoc 299).
  - intros bot2 ref2 Hid Hmode2. rewrite Hmode2, Hid, Ha, Hh.
    eexists. eexists. split; [reflexivity|]. simpl.
    split; [reflexivity|]. split; reflexivity.
Qed.

Lemma live_refresh_takes_venue_state_witness :
  let bot := Sample.agent real 950 [Sample.btc_long "pos_1"] ∅ in
  let t := {| tick_marketData := Sample.btc_at 110;
              tick_getRealAccountState :=
                fun _ => Some (Sample.portfolio 700 []);
              tick_getRealTradeHistory :=
                fun _ => Some [{| ord_id := "o1"; ord_symbol := Sample.btc;
                                  ord_pnl := 5 |};
                               {| ord_id := "o2"; ord_symbol := Sample.btc;
                                  ord_pnl := -8 |}];
              tick_now := fun _ => 5000%N |} in
  exists bot' ref',
    refresh_bot 950 t ∅ bot = (Some bot', ref') /\
    pf_positions (bot_portfolio bot') = [] /\
    bot_realizedPnl bot' == -3.
Proof.
  cbv zeta.
  destruct (live_refresh_takes_venue_state 950
              {| tick_marketData := Sample.btc_at 110;
                 tick_getRealAccountState :=
                   fun _ => Some (Sample.portfolio 700 []);
                 tick_getRealTradeHistory :=
                   fun _ => Some [{| ord_id := "o1";
                                     ord_symbol := Sample.btc;
                                     ord_pnl := 5 |};
                                  {| ord_id := "o2";
                                     ord_symbol := Sample.btc;
                                     ord_pnl := -8 |}];
                 tick_now := fun _ => 5000%N |} ∅
              (Sample.agent real 950 [Sample.btc_long "pos_1"] ∅)
              (Sample.portfolio 700 [])
              [{| ord_id := "o1"; ord_symbol := Sample.btc; ord_pnl := 5 |};
               {| ord_id := "o2"; ord_symbol := Sample.btc;
                  ord_pnl := -8 |}])
    as (bot' & ref' & Hrun & Hpf & _ & Hr & _);
    [reflexivity|reflexivity|reflexivity|].
  exists bot', ref'. split; [exact Hrun|].
  split; [rewrite Hpf; reflexivity|].
  rewrite Hr. reflexivity.
Defined.

Lemma paper_position_set_pnl md acc x pos :
  paper_position md acc (set_pnl x pos) = paper_position md acc pos.
Proof. reflexivity. Qed.

Lemma paper_fold_refreshed md ps : forall acc,
  fold_left (paper_position md)
    ((fun pos => set_pnl (position_pnl md pos) pos) <$> ps) acc
  = fold_left (paper_position md) ps acc.
Proof.
  induction ps as [|p ps IH]; intros acc.
  - reflexivity.
  - cbn [fmap list_fmap fold_left]. rewrite paper_position_set_pnl.
    apply IH.
Qed.

(** X13. Refreshing a paper portfolio is idempotent at an unchanged market
    snapshot: a second refresh gives the portfolio of the first. The result
    does not depend on the unrealized PnL stored before, only on the
    entries, sizes and leverages of the positions and on the balance, which
    a refresh never changes. *)
Theorem paper_refresh_idempotent (md : list Market) (pf : Portfolio) :
  paper_portfolio md (paper_portfolio md pf) = paper_portfolio md pf /\
  pf_balance (paper_portfolio md pf) = pf_balance pf /\
  (forall pf2,
     pf_balance pf2 = pf_balance pf ->
     (fun pos => set_pnl 0 pos) <$> pf_positions pf2
     = (fun pos => set_pnl 0 pos) <$> pf_positions pf ->
     paper_portfolio md pf2 = paper_portfolio md pf).
Proof.
  split; [|split; [reflexivity|]].
  - unfold paper_portfolio at 1. rewrite paper_positions.
    cbn [pf_balance]. rewrite paper_fold_refreshed. reflexivity.
  - intros pf2 Hb Hps.
    assert (Hfold : forall ps acc,
              fold_left (paper_position md)
                ((fun pos => set_pnl 0 pos) <$> ps) acc
              = fold_left (paper_position md) ps acc).
    { induction ps as [|p ps IH]; intros acc; [reflexivity|].
      cbn [fmap list_fmap fold_left]. rewrite paper_position_set_pnl.
      apply IH. }
    unfold paper_portfolio. rewrite Hb.
    rewrite <- (Hfold (pf_positions pf2)), <- (Hfold (pf_positions pf)),
      Hps. reflexivity.
Qed.

Lemma paper_refresh_idempotent_witness :
  let stale := Sample.portfolio 1000 [set_pnl 77 (Sample.btc_long "p")] in
  let fresh := Sample.portfolio 1000 [Sample.btc_long "p"] in
  paper_portfolio (Sample.btc_at 110) stale
  = paper_portfolio (Sample.btc_at 110) fresh.
Proof.
  cbv zeta.
  destruct (paper_refresh_idempotent (Sample.btc_at 110)
              (Sample.portfolio 1000 [Sample.btc_long "p"]))
    as (_ & _ & H).
  apply H; reflexivity.
Defined.

(** ** Engine start *)

Lemma initial_sync_bot_ref PAPER LIVE sync now ref bot :
  snd (initial_sync_bot PAPER LIVE sync now ref bot)
  = <[bot_id bot := nominal_balance PAPER LIVE (bot_tradingMode bot)]> ref.
Proof.
  unfold initial_sync_bot, nominal_balance.
  destruct (bot_tradingMode bot); [reflexivity|].
  destruct sync as [[pf orders]|]; reflexivity.
Qed.

Lemma initial_sync_bot_frame PAPER LIVE sync now ref bot :
  let bot' := fst (initial_sync_bot PAPER LIVE sync now ref bot) in
  bot_id bot' = bot_id bot /\
  bot_tradingMode bot' = bot_tradingMode bot /\
  bot_isPaused bot' = bot_isPaused bot /\
  bot_botLogs bot' = bot_botLogs bot /\
  bot_symbolCooldowns bot' = bot_symbolCooldowns bot.
Proof.
  unfold initial_sync_bot.
  destruct (bot_tradingMode bot) eqn:Hmode;
    [|destruct sync as [[pf orders]|]];
    simpl; rewrite ?Hmode; repeat split; reflexivity.
Qed.

Lemma initial_sync_bot_fst PAPER LIVE sync now ref ref' bot :
  fst (initial_sync_bot PAPER LIVE sync now ref bot)
  = fst (initial_sync_bot PAPER LIVE sync now ref' bot).
Proof.
  unfold initial_sync_bot. destruct (bot_tradingMode bot); [reflexivity|].
  destruct sync as [[pf orders]|]; reflexivity.
Qed.

Lemma initial_sync_lookup PAPER LIVE sync now bs ref i b :
  bs !! i = Some b ->
  exists r,
    fst (initial_sync PAPER LIVE sync now ref bs) !! i
    = Some (fst (initial_sync_bot PAPER LIVE (sync (bot_id b))
                   (now (bot_id b)) r b)).
Proof.
  intros Hi. exists ref. unfold initial_sync. cbn [fst].
  rewrite list_lookup_fmap, Hi. reflexivity.
Qed.

Lemma initial_sync_length PAPER LIVE sync now bs ref :
  length (fst (initial_sync PAPER LIVE sync now ref bs)) = length bs.
Proof. unfold initial_sync. cbn [fst]. apply length_fmap. Qed.

Lemma initial_sync_writes_other PAPER LIVE sync now bs : forall ref x,
  x ∉ bot_id <$> bs ->
  initial_sync_writes PAPER LIVE sync now bs ref !! x = ref !! x.
Proof.
  unfold initial_sync_writes.
  induction bs as [|b0 bs IH]; intros ref x Hx; simpl; [reflexivity|].
  rewrite fmap_cons in Hx. apply not_elem_of_cons in Hx.
  destruct Hx as [Hne Hx]. rewrite (IH _ x Hx), initial_sync_bot_ref.
  apply lookup_insert_ne. congruence.
Qed.

Lemma initial_sync_writes_recorded PAPER LIVE sync now bs : forall ref b,
  b ∈ bs ->
  exists b2,
    b2 ∈ bs /\ bot_id b2 = bot_id b /\
    initial_sync_writes PAPER LIVE sync now bs ref !! bot_id b
    = Some (nominal_balance PAPER LIVE (bot_tradingMode b2)).
Proof.
  induction bs as [|b0 bs IH]; intros ref b Hin.
  - apply elem_of_nil in Hin. contradiction.
  - change (initial_sync_writes PAPER LIVE sync now (b0 :: bs) ref)
      with (initial_sync_writes PAPER LIVE sync now bs
              (snd (initial_sync_bot PAPER LIVE (sync (bot_id b0))
                      (now (bot_id b0)) ref b0))).
    rewrite initial_sync_bot_ref.
    destruct (decide (bot_id b ∈ bot_id <$> bs)) as [Hlater|Hnot].
    + apply list_elem_of_fmap in Hlater.
      destruct Hlater as (b1 & Hid & Hin1).
      destruct (IH (<[bot_id b0 :=
                        nominal_balance PAPER LIVE (bot_tradingMode b0)]>
                      ref) b1 Hin1) as (b2 & Hin2 & Hid2 & Hl).
      exists b2. split; [right; exact Hin2|].
      split; [congruence|]. rewrite Hid. exact Hl.
    + rewrite (initial_sync_writes_other PAPER LIVE sync now bs _ _ Hnot).
      apply elem_of_cons in Hin. destruct Hin as [->|Hin].
      * exists b0. split; [left|]. split; [reflexivity|].
        apply lookup_insert_eq.
      * exfalso. apply Hnot. apply list_elem_of_fmap. exists b.
        split; [reflexivity|exact Hin].
Qed.

Lemma elem_of_filter_paper (bs : list BotState) (b : BotState) :
  b ∈ List.filter is_paper bs <-> b ∈ bs /\ bot_tradingMode b = paper.
Proof.
  rewrite !list_elem_of_In, List.filter_In. unfold is_paper.
  split; intros [Hin Hm]; (split; [exact Hin|]);
    destruct (bot_tradingMode b); congruence.
Qed.

Lemma elem_of_filter_live (bs : list BotState) (b : BotState) :
  b ∈ List.filter is_live bs <-> b ∈ bs /\ bot_tradingMode b = real.
Proof.
  rewrite !list_elem_of_In, List.filter_In. unfold is_live.
  split; intros [Hin Hm]; (split; [exact Hin|]);
    destruct (bot_tradingMode b); congruence.
Qed.

Lemma initial_sync_ref_other PAPER LIVE sync now bs ref x :
  x ∉ bot_id <$> bs ->
  snd (initial_sync PAPER LIVE sync now ref bs) !! x = ref !! x.
Proof.
  intros Hx. unfold initial_sync. cbn [snd].
  rewrite !initial_sync_writes_other; [reflexivity| |].
  - intros Hin. apply Hx. apply list_elem_of_fmap in Hin.
    destruct Hin as (b & -> & Hin). apply list_elem_of_fmap. exists b.
    split; [reflexivity|]. apply elem_of_filter_paper in Hin. apply Hin.
  - intros Hin. apply Hx. apply list_elem_of_fmap in Hin.
    destruct Hin as (b & -> & Hin). apply list_elem_of_fmap. exists b.
    split; [reflexivity|]. apply elem_of_filter_live in Hin. apply Hin.
Qed.

(** A live bot with the id decides: its figure is written last. *)
Lemma initial_sync_ref_live PAPER LIVE sync now bs ref b :
  b ∈ bs -> bot_tradingMode b = real ->
  snd (initial_sync PAPER LIVE sync now ref bs) !! bot_id b = Some LIVE.
Proof.
  intros Hin Hmode. unfold initial_sync. cbn [snd].
  assert (Hl : b ∈ List.filter is_live bs)
    by (apply elem_of_filter_live; split; assumption).
  destruct (initial_sync_writes_recorded PAPER LIVE sync now _
              (initial_sync_writes PAPER LIVE sync now
                 (List.filter is_paper bs) ref) b Hl)
    as (b2 & Hin2 & _ & ->).
  apply elem_of_filter_live in Hin2. destruct Hin2 as [_ ->]. reflexivity.
Qed.

Lemma initial_sync_ref_recorded PAPER LIVE sync now bs ref b :
  b ∈ bs ->
  exists b2,
    b2 ∈ bs /\ bot_id b2 = bot_id b /\
    snd (initial_sync PAPER LIVE sync now ref bs) !! bot_id b
    = Some (nominal_balance PAPER LIVE (bot_tradingMode b2)).
Proof.
  intros Hin.
  destruct (decide (bot_id b ∈ bot_id <$> List.filter is_live bs))
    as [Hlive|Hnot].
  - apply list_elem_of_fmap in Hlive. destruct Hlive as (b1 & Hid & Hin1).
    apply elem_of_filter_live in Hin1. destruct Hin1 as [Hin1 Hm1].
    exists b1. split; [exact Hin1|]. split; [congruence|].
    rewrite Hid, Hm1.
    apply (initial_sync_ref_live PAPER LIVE sync now bs ref b1 Hin1 Hm1).
  - unfold initial_sync. cbn [snd].
    rewrite (initial_sync_writes_other PAPER LIVE sync now _ _ _ Hnot).
    assert (Hp : b ∈ List.filter is_paper bs).
    { apply elem_of_filter_paper. split; [exact Hin|].
      destruct (bot_tradingMode b) eqn:Hm; [reflexivity|].
      exfalso. apply Hnot. apply list_elem_of_fmap. exists b.
      split; [reflexivity|]. apply elem_of_filter_live.
      split; assumption. }
    destruct (initial_sync_writes_recorded PAPER LIVE sync now _ ref b Hp)
      as (b2 & Hin2 & Hid2 & H).
    exists b2. apply elem_of_filter_paper in Hin2.
    split; [apply Hin2|]. split; [exact Hid2|exact H].
Qed.

(** X14. The one-time sync at engine start keeps the bots in number and
    order, with their ids, modes, pause flags, logs and cooldowns. A paper
    bot, and a live bot whose sync gets no answer, are left exactly as they
    were; a live bot whose sync succeeds takes the portfolio and orders of
    the venue, and its value history restarts as a single point at the
    total value the venue reports. Every bot ends up with a nominal initial
    balance on record, the paper or the live figure of its mode when ids
    are distinct, and the live figure whenever a live bot carries the id;
    no other entry of the record is touched. *)
Theorem initial_sync_records_every_bot
    (PAPER LIVE : Q) (sync : string -> option (Portfolio * list Order))
    (now : string -> N) (ref : gmap string Q) (bs : list BotState) :
  let r := initial_sync PAPER LIVE sync now ref bs in
  length (fst r) = length bs /\
  (forall i b,
     bs !! i = Some b ->
     exists b',
       fst r !! i = Some b' /\
       (bot_id b' = bot_id b /\
        bot_tradingMode b' = bot_tradingMode b /\
        bot_isPaused b' = bot_isPaused b /\
        bot_botLogs b' = bot_botLogs b /\
        bot_symbolCooldowns b' = bot_symbolCooldowns b) /\
       (bot_tradingMode b = paper \/ sync (bot_id b) = None -> b' = b) /\
       (forall pf orders,
          bot_tradingMode b = real ->
          sync (bot_id b) = Some (pf, orders) ->
          bot_portfolio b' = pf /\ bot_orders b' = orders /\
          bot_valueHistory b'
          = [{| vh_timestamp := now (bot_id b);
                vh_value := pf_totalValue pf |}])) /\
  (forall x, x ∉ bot_id <$> bs -> snd r !! x = ref !! x) /\
  (forall b, b ∈ bs -> is_Some (snd r !! bot_id b)) /\
  (NoDup (bot_id <$> bs) ->
   forall b,
     b ∈ bs ->
     snd r !! bot_id b
     = Some (nominal_balance PAPER LIVE (bot_tradingMode b))) /\
  (forall b,
     b ∈ bs -> bot_tradingMode b = real ->
     snd r !! bot_id b = Some LIVE).
Proof.
  intros r. subst r.
  split; [apply initial_sync_length|]. split; [|split; [|split; [|split]]];
    [| | | |apply initial_sync_ref_live].
  - intros i b Hi.
    destruct (initial_sync_lookup PAPER LIVE sync now bs ref i b Hi)
      as [r0 Hr].
    eexists. split; [exact Hr|].
    split; [apply initial_sync_bot_frame|]. split.
    + intros Hcase. unfold initial_sync_bot.
      destruct (bot_tradingMode b); [reflexivity|].
      destruct Hcase as [Hp|Hs]; [discriminate|]. rewrite Hs. reflexivity.
    + intros pf orders Hmode Hs. unfold initial_sync_bot.
      rewrite Hmode, Hs. simpl. repeat split.
  - apply initial_sync_ref_other.
  - intros b Hin.
    destruct (initial_sync_ref_recorded PAPER LIVE sync now bs ref b Hin)
      as (b2 & _ & _ & H). rewrite H. eexists. reflexivity.
  - intros Hnd b Hin.
    destruct (initial_sync_ref_recorded PAPER LIVE sync now bs ref b Hin)
      as (b2 & Hin2 & Hid & H). rewrite H.
    assert (b2 = b); [|subst; reflexivity].
    apply list_elem_of_lookup in Hin. destruct Hin as [i Hi].
    apply list_elem_of_lookup in Hin2. destruct Hin2 as [j Hj].
    assert (i = j).
    { eapply NoDup_lookup; [exact Hnd| |].
      - rewrite list_lookup_fmap, Hi. reflexivity.
      - rewrite list_lookup_fmap, Hj. simpl. rewrite Hid. reflexivity. }
    subst j. congruence.
Qed.

Lemma initial_sync_records_every_bot_witness :
  let pbot := createNewBot 10000 950 "bot_paper" "P" "" gemini paper 0 in
  let lbot := createNewBot 10000 950 "bot_live" "L" "" grok real 0 in
  let r := initial_sync 10000 950
             (fun _ => Some (Sample.portfolio 700 [], []))
             (fun _ => 9%N) ∅ [pbot; lbot] in
  snd r !! "bot_paper" = Some 10000 /\
  snd r !! "bot_live" = Some 950 /\
  (bot_valueHistory <$> fst r)
  = [[{| vh_timestamp := 0; vh_value := 10000 |}];
     [{| vh_timestamp := 9; vh_value := 700 |}]].
Proof.
  cbv zeta.
  destruct (initial_sync_records_every_bot 10000 950
              (fun _ => Some (Sample.portfolio 700 [], []))
              (fun _ => 9%N) ∅
              [createNewBot 10000 950 "bot_paper" "P" "" gemini paper 0;
               createNewBot 10000 950 "bot_live" "L" "" grok real 0])
    as (_ & _ & _ & _ & H & _).
  assert (Hnd : NoDup (bot_id <$>
                  [createNewBot 10000 950 "bot_paper" "P" "" gemini paper 0;
                   createNewBot 10000 950 "bot_live" "L" "" grok real 0])).
  { simpl. apply NoDup_cons. split.
    - intros Hin. apply list_elem_of_singleton in Hin. discriminate Hin.
    - apply NoDup_singleton. }
  split; [|split].
  - apply (H Hnd (createNewBot 10000 950 "bot_paper" "P" "" gemini paper 0)).
    left.
  - apply (H Hnd (createNewBot 10000 950 "bot_live" "L" "" grok real 0)).
    right. left.
  - reflexivity.
Defined.

(** ** Bot configurations *)

Lemma find_snoc {A} (f : A -> bool) (l : list A) (x : A) :
  find f (l ++ [x])
  = match find f l with
    | Some y => Some y
    | None => if f x then Some x else None
    end.
Proof.
  induction l as [|a l IH]; simpl; [reflexivity|].
  destruct (f a); [reflexivity|exact IH].
Qed.

Lemma provider_map_fold (ps : list ApiProvider) :
  forall (m : gmap Z ProviderType) id,
  fold_left (fun m p => <[ap_id p := ap_provider_type p]> m) ps m !! id
  = match deciding_provider ps id with
    | Some p => Some (ap_provider_type p)
    | None => m !! id
    end.
Proof.
  unfold deciding_provider.
  induction ps as [|p ps IH]; intros m id; simpl; [reflexivity|].
  rewrite IH, find_snoc.
  destruct (find (fun p0 => (ap_id p0 =? id)%Z) (rev ps)); [reflexivity|].
  simpl. destruct (Z.eqb_spec (ap_id p) id) as [->|Hne].
  - apply lookup_insert_eq.
  - apply lookup_insert_ne. exact Hne.
Qed.

Lemma provider_map_lookup (ps : list ApiProvider) (id : Z) :
  provider_map ps !! id = ap_provider_type <$> deciding_provider ps id.
Proof.
  unfold provider_map. rewrite provider_map_fold.
  destruct (deciding_provider ps id); [reflexivity|apply lookup_empty].
Qed.

(** X15. The configurations loaded from the API are those of the active
    bots of the response, in the order of the response, with the name,
    prompt, mode and pause flag of the bot; every configuration comes from
    an active bot. The decision source of a configuration is grok exactly
    when the last provider entry that carries the bot's provider id is of
    type grok; it is gemini in every other case: a provider of another
    type, or no provider with that id. *)
Theorem fetchBotConfigs_active_bots_with_provider
    (botsData : list ApiBot) (providersData : list ApiProvider) :
  let configs := fetchBotConfigs (Some (botsData, providersData)) in
  cfg_id <$> configs = ab_id <$> List.filter ab_is_active botsData /\
  (forall i c,
     configs !! i = Some c ->
     exists bot,
       List.filter ab_is_active botsData !! i = Some bot /\
       bot ∈ botsData /\ ab_is_active bot = true /\
       cfg_id c = ab_id bot /\ cfg_name c = ab_name bot /\
       cfg_prompt c = ab_prompt bot /\ cfg_mode c = ab_trading_mode bot /\
       cfg_isPaused c = ab_is_paused bot /\
       (cfg_provider c = grok <->
        exists p,
          deciding_provider providersData (ab_provider_id bot) = Some p /\
          ap_provider_type p = pt_grok) /\
       (cfg_provider c = gemini <-> cfg_provider c <> grok)).
Proof.
  intros configs. subst configs. unfold fetchBotConfigs.
  split.
  - rewrite <- list_fmap_compose. reflexivity.
  - intros i c Hi. rewrite list_lookup_fmap in Hi.
    destruct (List.filter ab_is_active botsData !! i) as [bot|] eqn:Eb;
      [|discriminate]. simpl in Hi. injection Hi as <-.
    exists bot. split; [reflexivity|].
    assert (Hin : In bot (List.filter ab_is_active botsData)).
    { apply list_elem_of_In. eapply list_elem_of_lookup_2. exact Eb. }
    apply List.filter_In in Hin. destruct Hin as [Hin Hact].
    split; [apply list_elem_of_In; exact Hin|]. split; [exact Hact|].
    simpl. do 5 (split; [reflexivity|]).
    rewrite provider_map_lookup. split.
    + destruct (deciding_provider providersData (ab_provider_id bot))
        as [p|]; simpl.
      * split.
        -- intros H. exists p. split; [reflexivity|].
           destruct (ap_provider_type p); try discriminate H. reflexivity.
        -- intros (p' & E & Hg). injection E as <-. rewrite Hg.
           reflexivity.
      * split; [discriminate|]. intros (p' & E & _). discriminate E.
    + destruct (resolve_provider _); split; congruence.
Qed.

(** An inactive bot is left out; the provider id 7 is registered twice and
    the later entry decides. *)
Lemma fetchBotConfigs_active_bots_with_provider_witness :
  let active :=
    {| ab_id := "bot_a"; ab_name := "A"; ab_prompt := "p";
       ab_provider_id := 7; ab_trading_mode := paper;
       ab_is_active := true; ab_is_paused := false |} in
  let inactive :=
    {| ab_id := "bot_b"; ab_name := "B"; ab_prompt := "p";
       ab_provider_id := 7; ab_trading_mode := real;
       ab_is_active := false; ab_is_paused := false |} in
  let providers :=
    [{| ap_id := 7; ap_provider_type := pt_openai |};
     {| ap_id := 7; ap_provider_type := pt_grok |}] in
  exists c,
    fetchBotConfigs (Some ([inactive; active], providers)) = [c] /\
    cfg_id c = "bot_a" /\ cfg_provider c = grok.
Proof.
  cbv zeta.
  destruct (fetchBotConfigs_active_bots_with_provider
              [{| ab_id := "bot_b"; ab_name := "B"; ab_prompt := "p";
                  ab_provider_id := 7; ab_trading_mode := real;
                  ab_is_active := false; ab_is_paused := false |};
               {| ab_id := "bot_a"; ab_name := "A"; ab_prompt := "p";
                  ab_provider_id := 7; ab_trading_mode := paper;
                  ab_is_active := true; ab_is_paused := false |}]
              [{| ap_id := 7; ap_provider_type := pt_openai |};
               {| ap_id := 7; ap_provider_type := pt_grok |}])
    as (_ & H).
  eexists. split; [reflexivity|].
  destruct (H 0%nat _ eq_refl) as (bot & Hb & _ & _ & Hid & _ & _ & _ & _
                                   & Hg & _).
  simpl in Hb. injection Hb as <-.
  split; [exact Hid|]. apply Hg. eexists. split; reflexivity.
Defined.

Lemma initial_sync_fmap {X} (f : BotState -> X) PAPER LIVE sync now :
  (forall s n r b, f (fst (initial_sync_bot PAPER LIVE s n r b)) = f b) ->
  forall bs ref,
    f <$> fst (initial_sync PAPER LIVE sync now ref bs) = f <$> bs.
Proof.
  intros Hf bs ref. unfold initial_sync. cbn [fst].
  rewrite <- list_fmap_compose. apply list_fmap_ext.
  intros i b _. apply Hf.
Qed.

Lemma find_config_some cs id c :
  find_config cs id = Some c -> c ∈ cs /\ cfg_id c = id.
Proof.
  unfold find_config. intros H. apply List.find_some in H.
  destruct H as [Hin Hb]. split; [apply list_elem_of_In; exact Hin|].
  apply String.eqb_eq. exact Hb.
Qed.

Lemma find_config_member cs c :
  c ∈ cs -> is_Some (find_config cs (cfg_id c)).
Proof.
  unfold find_config. induction cs as [|c0 cs IH]; intros Hin.
  - apply elem_of_nil in Hin. contradiction.
  - simpl. destruct (String.eqb (cfg_id c0) (cfg_id c)) eqn:E.
    + eexists. reflexivity.
    + apply elem_of_cons in Hin. destruct Hin as [->|Hin].
      * rewrite String.eqb_refl in E. discriminate E.
      * apply IH. exact Hin.
Qed.

(** The ids of the bots of the saved state that have a configuration. *)
Lemma resume_ids cs (saved : list SavedBot) :
  bot_id <$> (ld_bot <$> omap (resume_bot cs) saved)
  = List.filter (fun id => bool_decide (is_Some (find_config cs id)))
      (bot_id <$> (saved_bot <$> saved)).
Proof.
  induction saved as [|s saved IH]; [reflexivity|].
  cbn [omap list_omap fmap list_fmap List.filter].
  unfold resume_bot at 1.
  destruct (find_config cs (bot_id (saved_bot s))) as [c|] eqn:E.
  - rewrite bool_decide_eq_true_2 by (eexists; reflexivity).
    cbn [fmap list_fmap]. simpl. f_equal. exact IH.
  - rewrite bool_decide_eq_false_2 by (intros [? ?]; discriminate).
    exact IH.
Qed.

(** Every bot the engine starts with has a configuration: its pause flag is
    that of the first configuration with its id, its mode that of a
    configuration with its id. *)
Lemma initial_loaded_configured PAPER LIVE cs saved created b :
  b ∈ ld_bot <$> initial_loaded PAPER LIVE cs saved created ->
  (exists c,
     find_config cs (bot_id b) = Some c /\
     bot_isPaused b = cfg_isPaused c) /\
  (exists c,
     c ∈ cs /\ cfg_id c = bot_id b /\ bot_tradingMode b = cfg_mode c).
Proof.
  intros Hin. apply list_elem_of_fmap in Hin.
  destruct Hin as (ld & -> & Hin). unfold initial_loaded in Hin.
  destruct saved as [|s0 saved].
  - apply list_elem_of_fmap in Hin. destruct Hin as (c & -> & Hc).
    unfold fresh_bot. cbn [ld_bot].
    destruct (find_config_member cs c Hc) as [c1 E1].
    simpl. rewrite E1. split.
    + exists c1. split; reflexivity.
    + exists c. split; [exact Hc|]. split; reflexivity.
  - apply list_elem_of_omap in Hin. destruct Hin as (s & _ & Hres).
    unfold resume_bot in Hres.
    destruct (find_config cs (bot_id (saved_bot s))) as [c|] eqn:E;
      [|discriminate]. injection Hres as <-. cbn [ld_bot]. simpl.
    destruct (find_config_some _ _ _ E) as [Hc Hid].
    split.
    + exists c. split; [exact E|reflexivity].
    + exists c. split; [exact Hc|]. split; [exact Hid|reflexivity].
Qed.

(** X16. Engine start always clears the loading flag. It starts no bot
    when the application is not configured, when no active configuration
    is loaded, or when reading the saved state throws. Otherwise the bots
    started are, when the saved state has bots, the saved bots that still
    have a configuration, in saved order (a configured bot that is absent
    from a saved state is not started), and one fresh bot per
    configuration when nothing is saved. Every bot started has a
    configuration, takes its mode and pause flag from it, and has a
    nominal initial balance on record; nothing else is on record. *)
Theorem initialize_starts_configured_bots (PAPER LIVE : Q) (w : InitWorld) :
  let h := initialize PAPER LIVE w in
  let configs := fetchBotConfigs (iw_configs w) in
  hs_isLoading h = false /\
  (iw_isAppConfigured w = false \/ configs = [] \/
   iw_savedState w = ReadThrows ->
   hs_bots h = [] /\ hs_initialBalanceRef h = ∅) /\
  (iw_isAppConfigured w = true ->
   forall saved,
     iw_savedState w = ReadSaved saved -> saved <> [] ->
     bot_id <$> hs_bots h
     = List.filter (fun id => bool_decide (is_Some (find_config configs id)))
         (bot_id <$> (saved_bot <$> saved))) /\
  (iw_isAppConfigured w = true ->
   iw_savedState w = ReadNull \/ iw_savedState w = ReadSaved [] ->
   bot_id <$> hs_bots h = cfg_id <$> configs) /\
  (forall b,
     b ∈ hs_bots h ->
     is_Some (hs_initialBalanceRef h !! bot_id b) /\
     (exists c,
        find_config configs (bot_id b) = Some c /\
        bot_isPaused b = cfg_isPaused c) /\
     (exists c,
        c ∈ configs /\ cfg_id c = bot_id b /\
        bot_tradingMode b = cfg_mode c)) /\
  (forall x,
     is_Some (hs_initialBalanceRef h !! x) -> x ∈ bot_id <$> hs_bots h).
Proof.
  intros h configs. subst h. unfold initialize. fold configs.
  destruct (iw_isAppConfigured w) eqn:Econf; simpl negb; cbv iota.
  2:{ simpl. split; [reflexivity|]. split; [intros _; split; reflexivity|].
      split; [discriminate|]. split; [discriminate|]. split.
      - intros b Hb. apply elem_of_nil in Hb. contradiction.
      - intros x [v Hx]. rewrite lookup_empty in Hx. discriminate Hx. }
  destruct configs as [|c0 cs] eqn:Ecs.
  { cbn [hs_isLoading hs_bots hs_initialBalanceRef].
    split; [reflexivity|]. split; [intros _; split; reflexivity|].
    split.
    - intros _ saved _ _. rewrite fmap_nil.
      induction (bot_id <$> (saved_bot <$> saved)) as [|x l IH];
        [reflexivity|]. cbn [List.filter].
      rewrite bool_decide_eq_false_2 by (intros [? ?]; discriminate).
      exact IH.
    - split; [reflexivity|]. split.
      + intros b Hb. apply elem_of_nil in Hb. contradiction.
      + intros x [v Hx]. rewrite lookup_empty in Hx. discriminate Hx. }
  rewrite <- Ecs.
  assert (Hmain : forall savedBots,
    let r :=
      initial_sync PAPER LIVE (iw_sync w) (iw_now w) ∅
        (ld_bot <$> initial_loaded PAPER LIVE configs savedBots
                      (iw_created w)) in
    bot_id <$> fst r
    = bot_id <$> (ld_bot <$> initial_loaded PAPER LIVE configs savedBots
                               (iw_created w)) /\
    (forall b,
       b ∈ fst r ->
       is_Some (snd r !! bot_id b) /\
       (exists c,
          find_config configs (bot_id b) = Some c /\
          bot_isPaused b = cfg_isPaused c) /\
       (exists c,
          c ∈ configs /\ cfg_id c = bot_id b /\
          bot_tradingMode b = cfg_mode c)) /\
    (forall x, is_Some (snd r !! x) -> x ∈ bot_id <$> fst r)).
  { intros savedBots r.
    set (bs := ld_bot <$> initial_loaded PAPER LIVE configs savedBots
                            (iw_created w)) in *.
    assert (Hids : bot_id <$> fst r = bot_id <$> bs).
    { apply initial_sync_fmap. intros. apply initial_sync_bot_frame. }
    split; [exact Hids|]. split.
    - intros b Hb. apply list_elem_of_lookup in Hb. destruct Hb as [i Hi].
      assert (Hlen : (i < length bs)%nat).
      { rewrite <- (initial_sync_length PAPER LIVE (iw_sync w) (iw_now w)
                      bs ∅).
        eapply lookup_lt_Some. exact Hi. }
      apply lookup_lt_is_Some_2 in Hlen. destruct Hlen as [b0 Hb0].
      destruct (initial_sync_lookup PAPER LIVE (iw_sync w) (iw_now w) bs ∅
                  i b0 Hb0) as [r0 Hr]. fold r in Hr.
      rewrite Hi in Hr. injection Hr as ->.
      destruct (initial_sync_bot_frame PAPER LIVE (iw_sync w (bot_id b0))
                  (iw_now w (bot_id b0)) r0 b0)
        as (Eid & Emode & Epause & _).
      rewrite Eid, Emode, Epause.
      assert (Hin0 : b0 ∈ bs) by (eapply list_elem_of_lookup_2; exact Hb0).
      split.
      + destruct (initial_sync_ref_recorded PAPER LIVE (iw_sync w)
                    (iw_now w) bs ∅ b0 Hin0) as (b2 & _ & _ & H).
        fold r in H. rewrite H. eexists. reflexivity.
      + eapply initial_loaded_configured. exact Hin0.
    - intros x Hx. rewrite Hids.
      destruct (decide (x ∈ bot_id <$> bs)) as [Hin|Hnot]; [exact Hin|].
      pose proof (initial_sync_ref_other PAPER LIVE (iw_sync w) (iw_now w)
                    bs ∅ x Hnot) as Ho. fold r in Ho.
      rewrite Ho, lookup_empty in Hx. destruct Hx as [? Hx].
      discriminate Hx. }
  destruct (iw_savedState w) as [| |saved] eqn:Esaved.
  - simpl. split; [reflexivity|]. split; [intros _; split; reflexivity|].
    split; [intros _ saved E; discriminate E|].
    split; [intros _ [E|E]; discriminate E|]. split.
    + intros b Hb. apply elem_of_nil in Hb. contradiction.
    + intros x [v Hx]. rewrite lookup_empty in Hx. discriminate Hx.
  - specialize (Hmain []). cbv zeta in Hmain.
    destruct (initial_sync PAPER LIVE (iw_sync w) (iw_now w) ∅ _)
      as [l ref] eqn:Esync.
    cbn [hs_isLoading hs_bots hs_initialBalanceRef fst snd] in *.
    destruct Hmain as (Hids & Hbots & Hdom).
    split; [reflexivity|]. split.
    { intros [E|[E|E]]; [discriminate E| |discriminate E].
      rewrite Ecs in E. discriminate E. }
    split; [intros _ saved E; discriminate E|]. split.
    { intros _ _. rewrite Hids. unfold initial_loaded.
      rewrite <- !list_fmap_compose. reflexivity. }
    split; [exact Hbots|exact Hdom].
  - specialize (Hmain saved). cbv zeta in Hmain.
    destruct (initial_sync PAPER LIVE (iw_sync w) (iw_now w) ∅ _)
      as [l ref] eqn:Esync.
    cbn [hs_isLoading hs_bots hs_initialBalanceRef fst snd] in *.
    destruct Hmain as (Hids & Hbots & Hdom).
    split; [reflexivity|]. split.
    { intros [E|[E|E]]; [discriminate E| |discriminate E].
      rewrite Ecs in E. discriminate E. }
    split.
    { intros _ saved' E Hne. injection E as <-. rewrite Hids.
      destruct saved as [|s0 saved]; [contradiction|].
      unfold initial_loaded. apply resume_ids. }
    split.
    { intros _ [E|E]; [discriminate E|]. injection E as ->.
      rewrite Hids. unfold initial_loaded.
      rewrite <- !list_fmap_compose. reflexivity. }
    split; [exact Hbots|exact Hdom].
Qed.

(** Two bots are configured; the saved state holds one of them and a bot
    that is no longer configured: only the first is started. *)
Lemma initialize_starts_configured_bots_witness :
  let api id :=
    {| ab_id := id; ab_name := id; ab_prompt := "p"; ab_provider_id := 1;
       ab_trading_mode := paper; ab_is_active := true;
       ab_is_paused := false |} in
  let saved :=
    [{| saved_bot := Sample.agent paper 1000 [] ∅;
        saved_symbolCooldowns := None |};
     {| saved_bot := createNewBot 10000 950 "bot_old" "O" "p" gemini paper 0;
        saved_symbolCooldowns := Some ∅ |}] in
  let w :=
    {| iw_isAppConfigured := true; iw_exchangeInfo := None;
       iw_configs := Some ([api "bot_degen"; api "bot_b"], []);
       iw_savedState := ReadSaved saved;
       iw_created := fun _ => 0%N; iw_sync := fun _ => None;
       iw_now := fun _ => 0%N |} in
  hs_isLoading (initialize 10000 950 w) = false /\
  bot_id <$> hs_bots (initialize 10000 950 w) = ["bot_degen"].
Proof.
  intros api saved w.
  destruct (initialize_starts_configured_bots 10000 950 w)
    as (Hload & _ & Hsaved & _).
  split; [exact Hload|].
  rewrite (Hsaved eq_refl saved eq_refl); [|discriminate].
  reflexivity.
Defined.

(** ** Reset of a bot *)

Lemma find_bot_some bs id b :
  find_bot bs id = Some b -> b ∈ bs /\ bot_id b = id.
Proof.
  unfold find_bot. intros H. apply List.find_some in H.
  destruct H as [Hin Hb]. split; [apply list_elem_of_In; exact Hin|].
  apply String.eqb_eq. exact Hb.
Qed.

Lemma find_bot_member bs b : b ∈ bs -> is_Some (find_bot bs (bot_id b)).
Proof.
  unfold find_bot. induction bs as [|b0 bs IH]; intros Hin.
  - apply elem_of_nil in Hin. contradiction.
  - simpl. destruct (String.eqb (bot_id b0) (bot_id b)) eqn:E.
    + eexists. reflexivity.
    + apply elem_of_cons in Hin. destruct Hin as [->|Hin].
      * rewrite String.eqb_refl in E. discriminate E.
      * apply IH. exact Hin.
Qed.

(** X17. A reset is refused for a bot that trades with real funds, and
    does nothing when it is not confirmed or when the bot has no active
    configuration any more. Otherwise it replaces every bot with that id,
    in place, by the fresh bot of the latest configuration: the id is kept,
    positions, orders, logs and cooldowns are empty, the balance is the
    nominal balance of the mode of the configuration, which may be the
    live mode. Every other bot, the market snapshot and every other
    recorded initial balance are untouched, and the recorded initial
    balance of the bot is removed. *)
Theorem resetBot_replaces_only_that_bot
    (PAPER LIVE : Q) (confirm : bool)
    (response : option (list ApiBot * list ApiProvider)) (now : nat -> N)
    (botId : string) (closure : list BotState) (a : Arena) :
  let a' := resetBot PAPER LIVE confirm response now botId closure a in
  ((exists b, find_bot closure botId = Some b /\ bot_tradingMode b = real)
   \/ confirm = false
   \/ find_config (fetchBotConfigs response) botId = None ->
   a' = a) /\
  ((forall b, find_bot closure botId = Some b -> bot_tradingMode b = paper)
   -> confirm = true ->
   forall config,
     find_config (fetchBotConfigs response) botId = Some config ->
     markets a' = markets a /\
     bot_id <$> bots a' = bot_id <$> bots a /\
     (forall i b,
        bots a !! i = Some b ->
        exists b',
          bots a' !! i = Some b' /\
          (bot_id b <> botId -> b' = b) /\
          (bot_id b = botId ->
           b' = createNewBot PAPER LIVE botId (cfg_name config)
                  (cfg_prompt config) (cfg_provider config)
                  (cfg_mode config) (now i) /\
           pf_positions (bot_portfolio b') = [] /\
           bot_orders b' = [] /\ bot_botLogs b' = [] /\
           bot_symbolCooldowns b' = ∅ /\
           pf_balance (bot_portfolio b')
           = nominal_balance PAPER LIVE (cfg_mode config))) /\
     (forall x, x <> botId ->
        initialBalanceRef a' !! x = initialBalanceRef a !! x) /\
     (botId ∈ bot_id <$> bots a -> initialBalanceRef a' !! botId = None) /\
     (botId ∉ bot_id <$> bots a -> a' = a)).
Proof.
  intros a'. subst a'. unfold resetBot. split.
  - intros [(b & Hf & Hm)|[Hc|Hcfg]].
    + rewrite Hf, Hm. reflexivity.
    + rewrite Hc. simpl. destruct (find_bot closure botId) as [b|];
        [destruct (bot_tradingMode b)|]; reflexivity.
    + rewrite Hcfg. destruct (find_bot closure botId) as [b|];
        [destruct (bot_tradingMode b)|]; destruct confirm; reflexivity.
  - intros Hpaper -> config Hcfg. rewrite Hcfg.
    assert (Hrefused :
      match find_bot closure botId with
      | Some botToReset =>
          match bot_tradingMode botToReset with
          | real => true
          | paper => false
          end
      | None => false
      end = false).
    { destruct (find_bot closure botId) as [b|]; [|reflexivity].
      rewrite (Hpaper b eq_refl). reflexivity. }
    rewrite Hrefused. cbn [negb bots markets initialBalanceRef].
    destruct (find_config_some _ _ _ Hcfg) as [_ Hcid].
    assert (Hlook : forall i b,
      bots a !! i = Some b ->
      imap
        (fun i b =>
           if String.eqb (bot_id b) botId then
             createNewBot PAPER LIVE (cfg_id config) (cfg_name config)
               (cfg_prompt config) (cfg_provider config) (cfg_mode config)
               (now i)
           else b) (bots a) !! i
      = Some (if String.eqb (bot_id b) botId then
                createNewBot PAPER LIVE botId (cfg_name config)
                  (cfg_prompt config) (cfg_provider config)
                  (cfg_mode config) (now i)
              else b)).
    { intros i b Hi. rewrite list_lookup_imap, Hi. simpl.
      rewrite Hcid. reflexivity. }
    split; [reflexivity|]. split; [|split; [|split; [|split]]].
    + apply list_eq. intros i. rewrite !list_lookup_fmap.
      destruct (bots a !! i) as [b|] eqn:Hi.
      * rewrite (Hlook i b Hi). simpl. f_equal.
        destruct (String.eqb_spec (bot_id b) botId) as [E|E];
          [symmetry; exact E|reflexivity].
      * rewrite list_lookup_imap, Hi. reflexivity.
    + intros i b Hi. eexists. split; [apply (Hlook i b Hi)|].
      destruct (String.eqb_spec (bot_id b) botId) as [E|E]; split.
      * intros Hne. contradiction.
      * intros _. split; [reflexivity|]. simpl.
        unfold nominal_balance. destruct (cfg_mode config); repeat split.
      * intros _. reflexivity.
      * intros Heq. contradiction.
    + intros x Hx. destruct (find_bot (bots a) botId); [|reflexivity].
      apply lookup_delete_ne. congruence.
    + intros Hin. apply list_elem_of_fmap in Hin.
      destruct Hin as (b & -> & Hin).
      destruct (find_bot_member _ _ Hin) as [b1 ->].
      apply lookup_delete_eq.
    + intros Hnot.
      assert (Hnone : find_bot (bots a) botId = None).
      { destruct (find_bot (bots a) botId) as [b|] eqn:E; [|reflexivity].
        destruct (find_bot_some _ _ _ E) as [Hin Hid].
        exfalso. apply Hnot. apply list_elem_of_fmap. exists b.
        split; [symmetry; exact Hid|exact Hin]. }
      rewrite Hnone. destruct a as [bs mk ref]. simpl in *. f_equal.
      apply list_eq. intros i. rewrite list_lookup_imap.
      destruct (bs !! i) as [b|] eqn:Hi; [|reflexivity]. simpl.
      destruct (String.eqb_spec (bot_id b) botId) as [E|E]; [|reflexivity].
      exfalso. apply Hnot. apply list_elem_of_fmap. exists b.
      split; [symmetry; exact E|].
      eapply list_elem_of_lookup_2. exact Hi.
Qed.

(** A paper bot with an open position whose configuration was switched to
    the live mode: the reset gives a live bot with the live nominal balance
    and no position, and removes its recorded initial balance. *)
Lemma resetBot_replaces_only_that_bot_witness :
  let bot := Sample.agent paper 1000 [Sample.btc_long "pos_1"] ∅ in
  let a :=
    {| bots := [bot]; markets := [];
       initialBalanceRef := {["bot_degen" := 10000]} |} in
  let response :=
    Some ([{| ab_id := "bot_degen"; ab_name := "DEGEN"; ab_prompt := "p";
              ab_provider_id := 1; ab_trading_mode := real;
              ab_is_active := true; ab_is_paused := false |}], []) in
  let a' := resetBot 10000 950 true response (fun _ => 5%N) "bot_degen"
              [bot] a in
  initialBalanceRef a' !! "bot_degen" = None /\
  exists b',
    bots a' = [b'] /\ bot_tradingMode b' = real /\
    pf_balance (bot_portfolio b') = 950 /\
    pf_positions (bot_portfolio b') = [].
Proof.
  intros bot a response a'.
  destruct (resetBot_replaces_only_that_bot 10000 950 true response
              (fun _ => 5%N) "bot_degen" [bot] a) as [_ H].
  assert (Hpaper : forall b,
            find_bot [bot] "bot_degen" = Some b ->
            bot_tradingMode b = paper).
  { intros b E. injection E as <-. reflexivity. }
  destruct (H Hpaper eq_refl _ eq_refl)
    as (_ & _ & Hbots & _ & Hnone & _).
  split.
  - apply Hnone. left.
  - destruct (Hbots 0%nat bot eq_refl) as (b' & Hb' & _ & Hreset).
    destruct (Hreset eq_refl) as (Eb & Hpos & _ & _ & _ & Hbal).
    exists b'. split; [|split; [|split]].
    + subst b'. reflexivity.
    + subst b'. reflexivity.
    + exact Hbal.
    + exact Hpos.
Defined.

Lemma refresh_bot_ref_paper LIVE t ref bot x :
  (bot_id bot = x -> bot_tradingMode bot = paper) ->
  snd (refresh_bot LIVE t ref bot) !! x = ref !! x.
Proof.
  intros Hp. unfold refresh_bot.
  destruct (bot_tradingMode bot) eqn:Hmode; [reflexivity|].
  destruct (tick_getRealAccountState t (bot_id bot)); [|reflexivity].
  destruct (tick_getRealTradeHistory t (bot_id bot)); [|reflexivity].
  simpl. destruct (ref !! bot_id bot); [reflexivity|].
  apply lookup_insert_ne. intros E. specialize (Hp E). discriminate Hp.
Qed.

Lemma refresh_all_ref_paper LIVE t x bs : forall ref,
  (forall b, b ∈ bs -> bot_id b = x -> bot_tradingMode b = paper) ->
  snd (refresh_all LIVE t ref bs) !! x = ref !! x.
Proof.
  induction bs as [|b0 bs IH]; intros ref Hp; simpl; [reflexivity|].
  pose proof (refresh_bot_ref_paper LIVE t ref b0 x
                (Hp b0 (list_elem_of_here _ _))) as H0.
  destruct (refresh_bot LIVE t ref b0) as [r0 ref1]. simpl in H0.
  assert (Hp' : forall b, b ∈ bs -> bot_id b = x ->
                          bot_tradingMode b = paper).
  { intros b Hb. apply Hp. right. exact Hb. }
  specialize (IH ref1 Hp').
  destruct (refresh_all LIVE t ref1 bs) as [rs ref2]. simpl in *.
  rewrite IH. exact H0.
Qed.

(** A refresh tick changes neither the id nor the mode of a bot. *)
Lemma updatePortfolios_modes LIVE t a b' :
  b' ∈ bots (updatePortfolios LIVE t a) ->
  exists b,
    b ∈ bots a /\ bot_id b' = bot_id b /\
    bot_tradingMode b' = bot_tradingMode b.
Proof.
  unfold updatePortfolios.
  destruct (tick_marketData t) as [|m0 md];
    [intros H; exists b'; repeat split; exact H|].
  destruct (refresh_all LIVE t (initialBalanceRef a) (bots a))
    as [[l|] ref'] eqn:Eall; cbn [bots];
    [|intros H; exists b'; repeat split; exact H].
  intros Hin. apply list_elem_of_lookup in Hin. destruct Hin as [i Hi].
  assert (Hlen : (i < length (bots a))%nat).
  { rewrite <- (refresh_all_length LIVE t (bots a) _ _ _ Eall).
    eapply lookup_lt_Some. exact Hi. }
  apply lookup_lt_is_Some_2 in Hlen. destruct Hlen as [b Hb].
  destruct (refresh_all_lookup LIVE t (bots a) _ _ _ i b Eall Hb)
    as (r & b2 & H1 & H2).
  rewrite Hi in H2. injection H2 as <-.
  destruct (refresh_bot LIVE t r b) as [o r'] eqn:Er. simpl in H1.
  subst o. destruct (refresh_bot_frame LIVE t r b b' r' Er)
    as (Eid & Emode & _).
  exists b. split; [eapply list_elem_of_lookup_2; exact Hb|].
  split; [exact Eid|exact Emode].
Qed.

Lemma updatePortfolios_ref_paper LIVE t a x :
  (forall b, b ∈ bots a -> bot_id b = x -> bot_tradingMode b = paper) ->
  initialBalanceRef (updatePortfolios LIVE t a) !! x
  = initialBalanceRef a !! x.
Proof.
  intros Hp. unfold updatePortfolios.
  destruct (tick_marketData t); [reflexivity|].
  pose proof (refresh_all_ref_paper LIVE t x (bots a)
                (initialBalanceRef a) Hp) as H.
  destruct (refresh_all LIVE t (initialBalanceRef a) (bots a)) as [o ref'].
  destruct o; exact H.
Qed.

(** X18. After the reset of a paper bot to a paper configuration, no
    sequence of refresh ticks puts an initial balance of that bot on record
    again: the reset removes the figure, and a refresh records one only
    for a live bot. *)
Theorem reset_paper_balance_not_restored
    (PAPER LIVE : Q) (response : option (list ApiBot * list ApiProvider))
    (now : nat -> N) (botId : string) (closure : list BotState) (a : Arena)
    (config : BotConfig) (ticks : list Tick) :
  (forall b, find_bot closure botId = Some b -> bot_tradingMode b = paper) ->
  find_config (fetchBotConfigs response) botId = Some config ->
  cfg_mode config = paper ->
  botId ∈ bot_id <$> bots a ->
  initialBalanceRef
    (fold_left (fun a t => updatePortfolios LIVE t a) ticks
       (resetBot PAPER LIVE true response now botId closure a)) !! botId
  = None.
Proof.
  intros Hpaper Hcfg Hmode Hin.
  set (a0 := resetBot PAPER LIVE true response now botId closure a).
  assert (Hinv :
    (forall b, b ∈ bots a0 -> bot_id b = botId ->
               bot_tradingMode b = paper) /\
    initialBalanceRef a0 !! botId = None).
  { subst a0. unfold resetBot. rewrite Hcfg.
    assert (Hrefused :
      match find_bot closure botId with
      | Some botToReset =>
          match bot_tradingMode botToReset with
          | real => true
          | paper => false
          end
      | None => false
      end = false).
    { destruct (find_bot closure botId) as [b|]; [|reflexivity].
      rewrite (Hpaper b eq_refl). reflexivity. }
    rewrite Hrefused. cbn [negb bots initialBalanceRef]. split.
    - intros b Hb Hid. apply list_elem_of_lookup in Hb.
      destruct Hb as [i Hi]. rewrite list_lookup_imap in Hi.
      destruct (bots a !! i) as [b0|]; [|discriminate]. simpl in Hi.
      injection Hi as <-.
      destruct (String.eqb_spec (bot_id b0) botId) as [E|E]; [exact Hmode|].
      contradiction.
    - apply list_elem_of_fmap in Hin. destruct Hin as (b & -> & Hb).
      destruct (find_bot_member _ _ Hb) as [b1 ->].
      apply lookup_delete_eq. }
  clearbody a0. revert a0 Hinv.
  induction ticks as [|t ticks IH]; intros a0 [Hm Hr]; [exact Hr|].
  simpl. apply IH. split.
  - intros b' Hb' Hid.
    destruct (updatePortfolios_modes LIVE t a0 b' Hb')
      as (b & Hb & Eid & Emode).
    rewrite Emode. apply Hm; [exact Hb|congruence].
  - rewrite updatePortfolios_ref_paper; [exact Hr|exact Hm].
Qed.

(** A paper bot is reset and refreshed twice against a snapshot. *)
Lemma reset_paper_balance_not_restored_witness :
  let bot := Sample.agent paper 1000 [Sample.btc_long "pos_1"] ∅ in
  let a :=
    {| bots := [bot]; markets := [];
       initialBalanceRef := {["bot_degen" := 10000]} |} in
  let response :=
    Some ([{| ab_id := "bot_degen"; ab_name := "DEGEN"; ab_prompt := "p";
              ab_provider_id := 1; ab_trading_mode := paper;
              ab_is_active := true; ab_is_paused := false |}], []) in
  let t :=
    {| tick_marketData := Sample.btc_at 110;
       tick_getRealAccountState := fun _ => None;
       tick_getRealTradeHistory := fun _ => None;
       tick_now := fun _ => 7%N |} in
  initialBalanceRef a !! "bot_degen" = Some 10000 /\
  initialBalanceRef
    (fold_left (fun a t => updatePortfolios 950 t a) [t; t]
       (resetBot 10000 950 true response (fun _ => 5%N) "bot_degen"
          [bot] a)) !! "bot_degen"
  = None.
Proof.
  intros bot a response t. split; [reflexivity|].
  eapply (reset_paper_balance_not_restored 10000 950 response
            (fun _ => 5%N) "bot_degen" [bot] a _ [t; t]).
  - intros b E. injection E as <-. reflexivity.
  - reflexivity.
  - reflexivity.
  - left.
Defined.

(** ** The decision turn over all bots *)

Section TurnOverBots.

Variable precs : gmap string SymbolPrecisionInfo.
Variable lim : gmap string Q.
Variable clock : nat -> N.
Variable venue : list VenueCall -> VenueCall -> Settled.
Variable getDecision : BotState -> list Market -> string * list AiDecision.

Lemma bot_turn_returns bot mkts prompt decisions k calls :
  fst (bot_turn precs lim clock venue bot mkts prompt decisions k calls)
  = inl tt.
Proof.
  destruct (bot_turn_split precs lim clock venue bot mkts prompt decisions
              k calls) as (st1 & _ & ->).
  rewrite append_log_run. reflexivity.
Qed.

Lemma bot_turn_frame {X : Type} (f : BotState -> X) bot mkts prompt
    decisions k calls :
  (forall c b, f (set_symbolCooldowns c b) = f b) ->
  (forall l b, f (set_botLogs l b) = f b) ->
  f (ex_updatedBotState
       (snd (bot_turn precs lim clock venue bot mkts prompt decisions k
               calls)))
  = f bot.
Proof.
  intros Hc Hl. unfold bot_turn.
  match goal with
  | |- f (ex_updatedBotState (snd (?m ?st))) = _ =>
      assert (Hk : keeps f m)
  end.
  { apply keeps_bind.
    - destruct (bot_tradingMode bot); [apply keeps_ret|].
      apply keeps_for_of. intros v.
      apply keeps_execute_decision. exact Hc.
    - intros _. apply keeps_append_log. exact Hl. }
  rewrite Hk. reflexivity.
Qed.

Lemma bot_turn_calls_own bot mkts prompt decisions k calls :
  exists sent,
    ex_calls
      (snd (bot_turn precs lim clock venue bot mkts prompt decisions k
              calls))
    = calls ++ sent /\
    Forall (fun c => call_botId c = bot_id bot) sent.
Proof.
  destruct (effects_bot_turn precs lim clock venue bot mkts prompt
              decisions k calls
              (fun c => call_botId c = bot_id bot) (fun _ => True))
    as (notes & sent & _ & Hc & HP & _).
  { intros v _. apply effects_execute_decision.
    - intros market size sym tradeSize _ _ _ _ _ _ _.
      split; [reflexivity|]. intros _. split; [reflexivity|].
      eapply Forall_impl; [apply slTp_calls_protective|].
      intros c (spec & -> & _). reflexivity.
    - intros id pos _ _ _ _. split; [reflexivity|exact I]. }
  exists sent. split; [exact Hc|exact HP].
Qed.

Lemma bot_after_turn_cooldowns bot mkts prompt decisions k calls :
  let stored :=
    bot_after_turn precs lim clock venue bot mkts prompt decisions k calls in
  (forall sym,
     ~ held_symbol bot sym ->
     bot_symbolCooldowns stored !! sym = bot_symbolCooldowns bot !! sym) /\
  (forall sym,
     is_Some (bot_symbolCooldowns bot !! sym) ->
     is_Some (bot_symbolCooldowns stored !! sym)).
Proof.
  intros stored.
  destruct (effects_bot_turn precs lim clock venue bot mkts prompt
              decisions k calls (fun _ => True) (held_symbol bot))
    as (notes & sent & _ & _ & _ & Hcd & Hs & _).
  { intros v Hv. apply effects_execute_decision.
    - intros market size sym tradeSize _ _ _ _ _ _ _.
      split; [exact I|]. intros _. split; [exact I|].
      apply Forall_forall. intros c _. exact I.
    - intros id pos _ _ Hpos _. split; [exact I|].
      exists pos. split; [|reflexivity].
      exact (find_position_held bot id pos Hpos). }
  split; [exact Hcd|exact Hs].
Qed.

Lemma stored_from_turn bot mkts prompt decisions k calls :
  bot_isPaused bot = false ->
  stored_from bot prompt decisions
    (bot_after_turn precs lim clock venue bot mkts prompt decisions k
       calls).
Proof.
  intros Hp. unfold stored_from.
  pose proof (fun X (f : BotState -> X) =>
                bot_turn_frame f bot mkts prompt decisions k calls) as Hf.
  destruct (bot_after_turn_logs precs lim clock venue bot mkts prompt
              decisions k calls) as (newLog & Hl & Hd & Hpr & _).
  destruct (bot_after_turn_cooldowns bot mkts prompt decisions k calls)
    as [Hcd Hs].
  do 13 (split;
         [unfold bot_after_turn;
          cbn [set_isLoading bot_id bot_name bot_prompt bot_provider
               bot_tradingMode bot_portfolio bot_orders bot_valueHistory
               bot_realizedPnl bot_tradeCount bot_winRate bot_isPaused
               bot_isLoading];
          first [reflexivity
                | rewrite Hf by reflexivity;
                  first [reflexivity | exact Hp]]|]).
  split; [|split].
  - exists newLog. split; [exact Hl|]. split; assumption.
  - exact Hcd.
  - exact Hs.
Qed.

Lemma takes_turn_cons bot rest id :
  takes_turn (bot :: rest) id
  = (negb (bot_isPaused bot) && String.eqb (bot_id bot) id)
    || takes_turn rest id.
Proof. reflexivity. Qed.

Lemma takes_turn_some closure id :
  takes_turn closure id = true ->
  exists bot, bot ∈ closure /\ bot_isPaused bot = false /\ bot_id bot = id.
Proof.
  unfold takes_turn. intros H. apply existsb_exists in H.
  destruct H as (bot & Hin & Hb). apply andb_true_iff in Hb.
  destruct Hb as [Hp He]. exists bot.
  split; [apply list_elem_of_In; exact Hin|].
  split; [apply negb_true_iff; exact Hp|apply String.eqb_eq; exact He].
Qed.

(** The turn over [closure]: a bot of the hook whose id no unpaused bot of
    [closure] carries is left as it is; any other bot is replaced by what
    the turn of an unpaused bot of [closure] with its id stores, on the
    answer of the decision source of that bot. *)
Lemma runTradingTurn_stores mkts closure : forall ts,
  let ts' :=
    runTradingTurn precs lim clock venue getDecision mkts closure ts in
  (exists sent,
     ts_calls ts' = ts_calls ts ++ sent /\
     Forall (fun c => takes_turn closure (call_botId c) = true) sent) /\
  forall i b,
    ts_current ts !! i = Some b ->
    exists b',
      ts_current ts' !! i = Some b' /\ bot_id b' = bot_id b /\
      (takes_turn closure (bot_id b) = false -> b' = b) /\
      (takes_turn closure (bot_id b) = true ->
       exists bot k calls,
         bot ∈ closure /\ bot_isPaused bot = false /\
         bot_id bot = bot_id b /\
         b' = bot_after_turn precs lim clock venue bot mkts
                (fst (getDecision bot mkts)) (snd (getDecision bot mkts))
                k calls).
Proof.
  induction closure as [|bot rest IH]; intros ts ts'; subst ts'.
  - simpl. split.
    + exists []. rewrite app_nil_r. split; [reflexivity|constructor].
    + intros i b Hi. exists b. split; [exact Hi|]. split; [reflexivity|].
      split; [reflexivity|discriminate].
  - cbn [runTradingTurn]. destruct (bot_isPaused bot) eqn:Hp.
    + destruct (IH ts) as [(sent & Hc & HF) Hbots]. split.
      * exists sent. split; [exact Hc|].
        eapply Forall_impl; [exact HF|]. intros c Hcall.
        rewrite takes_turn_cons, Hcall. apply orb_true_r.
      * intros i b Hi.
        destruct (Hbots i b Hi) as (b' & H1 & H2 & H3 & H4).
        exists b'. split; [exact H1|]. split; [exact H2|].
        rewrite takes_turn_cons, Hp. cbn [negb andb orb].
        split; [exact H3|]. intros Ht.
        destruct (H4 Ht) as (bot' & k' & calls' & Hin & Hrest).
        exists bot', k', calls'. split; [right; exact Hin|exact Hrest].
    + assert (Hafter :
        bot_after_turn precs lim clock venue bot mkts
          (fst (getDecision bot mkts)) (snd (getDecision bot mkts))
          (ts_clock ts) (ts_calls ts)
        = set_isLoading false
            (ex_updatedBotState
               (snd (bot_turn precs lim clock venue bot mkts
                       (fst (getDecision bot mkts))
                       (snd (getDecision bot mkts))
                       (ts_clock ts) (ts_calls ts))))) by reflexivity.
      destruct (getDecision bot mkts) as [prompt decisions] eqn:Egd.
      cbn [fst snd] in Hafter.
      pose proof (bot_turn_returns bot mkts prompt decisions
                    (ts_clock ts) (ts_calls ts)) as Hret.
      pose proof (bot_turn_frame bot_id bot mkts prompt decisions
                    (ts_clock ts) (ts_calls ts)
                    (fun _ _ => eq_refl) (fun _ _ => eq_refl)) as Sid.
      destruct (bot_turn_calls_own bot mkts prompt decisions
                  (ts_clock ts) (ts_calls ts)) as (sent1 & Hc1 & HF1).
      destruct (bot_turn precs lim clock venue bot mkts prompt decisions
                  (ts_clock ts) (ts_calls ts)) as [[[]|e] st];
        [|discriminate Hret].
      cbn [snd] in Sid, Hc1, Hafter.
      set (stored := set_isLoading false (ex_updatedBotState st)) in *.
      match goal with
      | |- context [runTradingTurn _ _ _ _ _ _ rest ?t] => set (ts1 := t)
      end.
      destruct (IH ts1) as [(sent2 & Hc2 & HF2) Hbots]. split.
      * exists (sent1 ++ sent2). rewrite Hc2. subst ts1. cbn [ts_calls].
        rewrite Hc1, app_assoc. split; [reflexivity|].
        apply Forall_app. split.
        -- eapply Forall_impl; [exact HF1|]. intros c Hcall.
           rewrite takes_turn_cons, Hcall, Hp, String.eqb_refl.
           reflexivity.
        -- eapply Forall_impl; [exact HF2|]. intros c Hcall.
           rewrite takes_turn_cons, Hcall. apply orb_true_r.
      * intros i b Hi.
        assert (H1 : ts_current ts1 !! i
                     = Some (if String.eqb (bot_id b) (bot_id bot)
                             then stored else b)).
        { subst ts1. cbn [ts_current]. unfold setBots_at.
          rewrite !list_lookup_fmap, Hi. cbn [fmap option_fmap option_map].
          destruct (String.eqb (bot_id b) (bot_id bot)) eqn:E.
          - cbn [set_isLoading bot_id]. rewrite E. reflexivity.
          - rewrite E. reflexivity. }
        assert (Hid1 : bot_id (if String.eqb (bot_id b) (bot_id bot)
                               then stored else b) = bot_id b).
        { destruct (String.eqb_spec (bot_id b) (bot_id bot)) as [E|E];
            [|reflexivity].
          subst stored. cbn [set_isLoading bot_id]. congruence. }
        destruct (Hbots i _ H1) as (b' & H2 & H3 & H4 & H5).
        rewrite Hid1 in H3, H4, H5.
        exists b'. split; [exact H2|]. split; [exact H3|].
        rewrite takes_turn_cons, Hp. cbn [negb andb].
        rewrite String.eqb_sym.
        destruct (String.eqb (bot_id b) (bot_id bot)) eqn:E; cbn [orb].
        -- split; [discriminate|]. intros _.
           destruct (takes_turn rest (bot_id b)) eqn:Et.
           ++ destruct (H5 eq_refl) as (bot' & k' & calls' & Hin & Hrest).
              exists bot', k', calls'.
              split; [right; exact Hin|exact Hrest].
           ++ rewrite (H4 eq_refl).
              exists bot, (ts_clock ts), (ts_calls ts). split; [left|].
              split; [exact Hp|]. apply String.eqb_eq in E.
              split; [symmetry; exact E|]. rewrite Egd. cbn [fst snd].
              symmetry. exact Hafter.
        -- split; [exact H4|]. intros Ht.
           destruct (H5 Ht) as (bot' & k' & calls' & Hin & Hrest).
           exists bot', k', calls'. split; [right; exact Hin|exact Hrest].
Qed.

End TurnOverBots.

Lemma runTradingTurn_all_paused precs lim clock venue getDecision mkts
    closure ts :
  (forall bot, bot ∈ closure -> bot_isPaused bot = true) ->
  runTradingTurn precs lim clock venue getDecision mkts closure ts = ts.
Proof.
  induction closure as [|bot rest IH]; intros Hp; [reflexivity|].
  cbn [runTradingTurn]. rewrite (Hp bot (list_elem_of_here _ _)).
  apply IH. intros b Hb. apply Hp. right. exact Hb.
Qed.

Lemma runTradingTurn_length precs lim clock venue getDecision mkts closure :
  forall ts,
    length
      (ts_current
         (runTradingTurn precs lim clock venue getDecision mkts closure ts))
    = length (ts_current ts).
Proof.
  induction closure as [|bot rest IH]; intros ts; [reflexivity|].
  cbn [runTradingTurn]. destruct (bot_isPaused bot); [apply IH|].
  destruct (getDecision bot mkts) as [prompt decisions].
  destruct (bot_turn precs lim clock venue bot mkts prompt decisions
              (ts_clock ts) (ts_calls ts)) as [[[]|e] st].
  - rewrite IH. cbn [ts_current]. unfold setBots_at.
    rewrite !length_fmap. reflexivity.
  - cbn [ts_current]. unfold setBots_at. apply length_fmap.
Qed.

(** X19. A decision turn over the bots sends requests only on the accounts
    of bots that are not paused, and keeps the list of bots in number,
    order and ids. A bot whose id is not that of an unpaused bot of the
    list the turn closed over is left as it is, and a turn over paused
    bots only changes nothing. For every other bot the turn stores what
    the turn of the bot it closed over gives on the answer of its decision
    source: the record the turn started from, with the loading flag
    cleared, one new entry with the decisions and the prompt of the answer
    in front of its turn log, of which the 50 newest are kept, and
    cooldowns that differ only on symbols of its positions. Name, prompt,
    provider, mode, portfolio, orders, value history, realized PnL, trade
    count and win rate are those of the bot the turn closed over, whatever
    the bot of that id holds when the turn ends. *)
Theorem runTradingTurn_stores_closure_state
    (precs : gmap string SymbolPrecisionInfo) (lim : gmap string Q)
    (clock : nat -> N) (venue : list VenueCall -> VenueCall -> Settled)
    (getDecision : BotState -> list Market -> string * list AiDecision)
    (mkts : list Market) (closure : list BotState) (ts : TurnState) :
  let ts' :=
    runTradingTurn precs lim clock venue getDecision mkts closure ts in
  (exists sent,
     ts_calls ts' = ts_calls ts ++ sent /\
     Forall (fun c => takes_turn closure (call_botId c) = true) sent) /\
  bot_id <$> ts_current ts' = bot_id <$> ts_current ts /\
  (forall i b,
     ts_current ts !! i = Some b ->
     exists b',
       ts_current ts' !! i = Some b' /\
       (takes_turn closure (bot_id b) = false -> b' = b) /\
       (takes_turn closure (bot_id b) = true ->
        exists bot k calls,
          bot ∈ closure /\ bot_isPaused bot = false /\
          bot_id bot = bot_id b /\
          b' = bot_after_turn precs lim clock venue bot mkts
                 (fst (getDecision bot mkts)) (snd (getDecision bot mkts))
                 k calls /\
          stored_from bot (fst (getDecision bot mkts))
            (snd (getDecision bot mkts)) b')) /\
  ((forall bot, bot ∈ closure -> bot_isPaused bot = true) -> ts' = ts).
Proof.
  intros ts'.
  destruct (runTradingTurn_stores precs lim clock venue getDecision mkts
              closure ts) as [Hcalls Hbots]. fold ts' in Hcalls, Hbots.
  split; [exact Hcalls|]. split; [|split].
  - apply list_eq. intros i. rewrite !list_lookup_fmap.
    destruct (ts_current ts !! i) as [b|] eqn:Hi.
    + destruct (Hbots i b Hi) as (b' & -> & Hid & _). simpl.
      rewrite Hid. reflexivity.
    + apply lookup_ge_None in Hi.
      rewrite <- (runTradingTurn_length precs lim clock venue getDecision
                    mkts closure ts) in Hi.
      apply lookup_ge_None in Hi. fold ts' in Hi. rewrite Hi. reflexivity.
  - intros i b Hi. destruct (Hbots i b Hi) as (b' & H1 & _ & H3 & H4).
    exists b'. split; [exact H1|]. split; [exact H3|]. intros Ht.
    destruct (H4 Ht) as (bot & k & calls & Hin & Hp & Hid & Hb).
    exists bot, k, calls. split; [exact Hin|]. split; [exact Hp|].
    split; [exact Hid|]. split; [exact Hb|]. rewrite Hb.
    apply stored_from_turn. exact Hp.
  - apply runTradingTurn_all_paused.
Qed.

(** The turn closed over a bot with a balance of 1000 and an empty log; by
    the time it ends, a refresh has stored a balance of 1200 for that bot:
    the turn stores 1000 again, with one log entry. *)
Lemma runTradingTurn_stores_closure_state_witness :
  let stale := Sample.agent paper 1000 [] ∅ in
  let refreshed := Sample.agent paper 1200 [] ∅ in
  let ts :=
    {| ts_current := [refreshed]; ts_clock := 0; ts_calls := [] |} in
  let ts' :=
    runTradingTurn ∅ ∅ (Sample.clock_at 0) Sample.venue_ok
      (fun _ _ => (EmptyString, [])) [] [stale] ts in
  exists b',
    ts_current ts' !! 0%nat = Some b' /\
    pf_balance (bot_portfolio b') = 1000 /\
    length (bot_botLogs b') = 1%nat.
Proof.
  intros stale refreshed ts ts'.
  destruct (runTradingTurn_stores_closure_state ∅ ∅ (Sample.clock_at 0)
              Sample.venue_ok (fun _ _ => (EmptyString, [])) [] [stale] ts)
    as (_ & _ & Hbots & _).
  destruct (Hbots 0%nat refreshed eq_refl) as (b' & H1 & _ & H3).
  exists b'. split; [exact H1|].
  destruct (H3 eq_refl) as (bot & k & calls & Hin & _ & _ & _ & Hst).
  apply list_elem_of_singleton in Hin. subst bot.
  destruct Hst as (_ & _ & _ & _ & _ & Hpf & _ & _ & _ & _ & _ & _ & _
                   & (newLog & Hl & _) & _).
  rewrite Hpf, Hl. split; reflexivity.
Defined.
(** ** Bounded turn log and value history *)











(** ** The decision source *)




Lemma from_open_bracket_some s t :
  from_open_bracket s = Some t ->
  exists pre rest,
    s = String.append pre t /\ t = String "["%char rest /\
    occurs "["%char pre = false.
Proof.
  induction s as [|c s IH]; simpl; [discriminate|].
  destruct (Ascii.eqb_spec c "["%char) as [->|Hne].
  - intros [= <-]. exists EmptyString, s. repeat split.
  - intros H. destruct (IH H) as (pre & rest & -> & -> & Ho).
    exists (String c pre), rest. split; [reflexivity|].
    split; [reflexivity|]. simpl. rewrite Ho.
    destruct (Ascii.eqb_spec c "["%char); [contradiction|reflexivity].
Qed.

Lemma from_open_bracket_none s :
  from_open_bracket s = None <-> occurs "["%char s = false.
Proof.
  induction s as [|c s IH]; simpl; [split; reflexivity|].
  destruct (Ascii.eqb c "["%char); simpl; [split; discriminate|exact IH].
Qed.

Lemma upto_last_close_none s :
  upto_last_close s = None <-> occurs "]"%char s = false.
Proof.
  induction s as [|c s IH]; simpl; [split; reflexivity|].
  destruct (upto_last_close s) as [p|].
  - split; [discriminate|]. intros H. apply orb_false_iff in H.
    destruct H as [_ H]. apply IH in H. discriminate H.
  - destruct (Ascii.eqb c "]"%char); simpl; [split; discriminate|].
    split; intros _; [apply IH|]; reflexivity.
Qed.

Lemma upto_last_close_some s p :
  upto_last_close s = Some p ->
  exists body post,
    s = String.append p post /\
    p = String.append body (String "]"%char EmptyString) /\
    occurs "]"%char post = false.
Proof.
  revert p. induction s as [|c s IH]; intros p; simpl; [discriminate|].
  destruct (upto_last_close s) as [p'|] eqn:E.
  - intros [= <-]. destruct (IH p' eq_refl) as (body & post & -> & -> & Ho).
    exists (String c body), post. repeat split. exact Ho.
  - destruct (Ascii.eqb_spec c "]"%char) as [->|Hne]; [|discriminate].
    intros [= <-]. exists EmptyString, s. split; [reflexivity|].
    split; [reflexivity|]. apply upto_last_close_none. exact E.
Qed.

Lemma occurs_append c a b :
  occurs c (String.append a b) = occurs c a || occurs c b.
Proof.
  induction a as [|x a IH]; simpl; [reflexivity|].
  rewrite IH. apply orb_assoc.
Qed.

(** What follows a later opening bracket follows the first one. *)
Lemma after_first_open pre rest : forall pre' post',
  String.append pre (String "["%char rest)
  = String.append pre' (String "["%char post') ->
  occurs "["%char pre = false ->
  occurs "]"%char rest = false ->
  occurs "]"%char post' = false.
Proof.
  induction pre as [|c pre IH]; intros pre' post' E Hpre Hrest.
  - destruct pre' as [|c' pre']; simpl in E.
    + injection E as <-. exact Hrest.
    + injection E as _ E. rewrite E, occurs_append in Hrest.
      apply orb_false_iff in Hrest. destruct Hrest as [_ Hrest].
      simpl in Hrest. exact Hrest.
  - simpl in Hpre. apply orb_false_iff in Hpre. destruct Hpre as [Hc Hpre].
    destruct pre' as [|c' pre']; simpl in E.
    + injection E as -> _. discriminate Hc.
    + injection E as _ E. exact (IH pre' post' E Hpre Hrest).
Qed.

(** X21. The array the service extracts from the text of the model is the
    span from the first opening bracket of the text to its last closing
    bracket: the text is [pre], the span, then [post], where [pre] has no
    opening bracket and [post] no closing bracket, and the span starts
    with an opening and ends with a closing bracket; so prose around the
    array is dropped, and several arrays are taken as one span. Nothing is
    extracted exactly when no closing bracket follows an opening bracket
    of the text. *)
Theorem match_array_first_to_last_bracket (decisionText : string) :
  match match_array decisionText with
  | Some jsonString =>
      exists pre body post,
        decisionText = String.append pre (String.append jsonString post) /\
        jsonString
        = String "["%char
            (String.append body (String "]"%char EmptyString)) /\
        occurs "["%char pre = false /\ occurs "]"%char post = false
  | None =>
      forall pre post,
        decisionText = String.append pre (String "["%char post) ->
        occurs "]"%char post = false
  end.
Proof.
  unfold match_array.
  destruct (from_open_bracket decisionText) as [t|] eqn:Eo; simpl.
  - destruct (from_open_bracket_some _ _ Eo)
      as (pre & rest & Hs & Ht & Hpre).
    destruct (upto_last_close t) as [p|] eqn:Ec.
    + destruct (upto_last_close_some _ _ Ec)
        as (body & post & Hp & Hb & Hpost).
      assert (Hbody : exists body',
                p = String "["%char
                      (String.append body' (String "]"%char EmptyString))).
      { rewrite Hb, Ht in Hp. destruct body as [|c body].
        - simpl in Hp. discriminate Hp.
        - simpl in Hp. injection Hp as <- _. exists body. rewrite Hb.
          reflexivity. }
      destruct Hbody as [body' Hbody].
      exists pre, body', post. rewrite Hs. rewrite Hp at 1.
      split; [reflexivity|]. split; [exact Hbody|].
      split; [exact Hpre|exact Hpost].
    + intros pre' post' Hd. apply upto_last_close_none in Ec.
      rewrite Ht in Ec. simpl in Ec.
      rewrite Hs, Ht in Hd.
      exact (after_first_open pre rest pre' post' Hd Hpre Ec).
  - intros pre post Hd. apply from_open_bracket_none in Eo.
    rewrite Hd, occurs_append in Eo. apply orb_false_iff in Eo.
    destruct Eo as [_ Eo]. simpl in Eo. discriminate Eo.
Qed.

(** A text with prose around two arrays: the span runs from the first
    opening to the last closing bracket. *)
Lemma match_array_first_to_last_bracket_witness :
  exists pre body post,
    "Sure: [a] [b]."
    = String.append pre (String.append "[a] [b]" post) /\
    "[a] [b]"
    = String "["%char (String.append body (String "]"%char EmptyString)) /\
    occurs "["%char pre = false /\ occurs "]"%char post = false.
Proof. exact (match_array_first_to_last_bracket "Sure: [a] [b]."). Defined.

